(** * obspy.segy.benchmark: offset, alignment, normalisation and layout

    A shallow embedding of [obspy/segy/benchmark.py] (functions
    [_calcOffset] and [plotBenchmark]) together with the properties of
    its data-preparation and layout pipeline.

    Numbers.  Python [int] is [Z].  A Python [float] that the code only
    ever produces from finite arithmetic (offsets, [scale], explicit
    axis bounds) is an exact rational [Q]; its division raises
    [ZeroDivisionError] on a zero divisor.  A numpy float (trace samples
    and everything computed from them) is [num]: an exact rational
    extended with [+inf], [-inf] and [nan], whose division never raises.
    Rounding, overflow and the sign of zero are not modelled.
    [math.sqrt] is a parameter [math_sqrt : Z -> Q] of the development.

    Effects.  An exception is a [Raise] result.  The calls to matplotlib
    are events, collected in order; a computation that draws returns the
    events it emitted with its result.  An event is a call that returns;
    [run_with] gives the run against a library that raises at the calls
    it rejects.  [readSU] is outside the model: the collections are given
    parsed.

    Collections are values: the in-place updates of [tr.data] are the
    collections returned by each stage, and the collections of one call
    are taken to be distinct objects. *)

From Stdlib Require Import ZArith QArith Qabs Qminmax List Bool String Ascii.
From Stdlib Require Import Lia Lqa Decimal DecimalString.
Import ListNotations.

Set Implicit Arguments.

(** ** Exceptions and results *)

Inductive exn : Type :=
| IndexError
| ValueError
| ZeroDivisionError
| TypeError
| UnboundLocalError.

Inductive result (A : Type) : Type :=
| Ok (a : A)
| Raise (e : exn).

Arguments Ok {A} a.
Arguments Raise {A} e.

Definition rbind {A B : Type} (c : result A) (k : A -> result B) : result B :=
  match c with
  | Ok a => k a
  | Raise e => Raise e
  end.

Declare Scope result_scope.
Delimit Scope result_scope with result.
Notation "x <- c ;; k" := (rbind c (fun x => k))
  (at level 61, c at next level, right associativity) : result_scope.

Fixpoint mapM {A B : Type} (f : A -> result B) (l : list A) : result (list B) :=
  match l with
  | [] => Ok []
  | a :: l' =>
      (b <- f a ;;
       bs <- mapM f l' ;;
       Ok (b :: bs))%result
  end.

(** ** Numbers *)

Definition Qltb (a b : Q) : bool := negb (Qle_bool b a).

(** Python float division. *)
Definition py_div (a b : Q) : result Q :=
  if Qeq_bool b 0 then Raise ZeroDivisionError else Ok (a / b).

(** numpy floats. *)
Inductive num : Type :=
| Fin (q : Q)
| PInf
| NInf
| NaN.

Definition num_add (a b : num) : num :=
  match a, b with
  | NaN, _ | _, NaN => NaN
  | Fin x, Fin y => Fin (x + y)
  | PInf, NInf | NInf, PInf => NaN
  | PInf, _ | _, PInf => PInf
  | NInf, _ | _, NInf => NInf
  end.

Definition num_opp (a : num) : num :=
  match a with
  | Fin x => Fin (- x)
  | PInf => NInf
  | NInf => PInf
  | NaN => NaN
  end.

Definition num_sub (a b : num) : num :=
  match a, b with
  | NaN, _ | _, NaN => NaN
  | Fin x, Fin y => Fin (x - y)
  | PInf, PInf | NInf, NInf => NaN
  | PInf, _ | _, NInf => PInf
  | NInf, _ | _, PInf => NInf
  end.

Definition num_abs (a : num) : num :=
  match a with
  | Fin x => Fin (Qabs x)
  | PInf | NInf => PInf
  | NaN => NaN
  end.

(** [x / y] of numpy: a zero divisor gives an infinity or [nan], an
    infinite divisor gives zero. *)
Definition num_div (a b : num) : num :=
  match a, b with
  | NaN, _ | _, NaN => NaN
  | Fin x, Fin y =>
      if Qeq_bool y 0 then
        if Qeq_bool x 0 then NaN else if Qltb 0 x then PInf else NInf
      else Fin (x / y)
  | Fin _, (PInf | NInf) => Fin 0
  | (PInf | NInf), (PInf | NInf) => NaN
  | PInf, Fin y => if Qltb y 0 then NInf else PInf
  | NInf, Fin y => if Qltb y 0 then PInf else NInf
  end.

(** [a < b]; every comparison with [nan] is false. *)
Definition num_ltb (a b : num) : bool :=
  match a, b with
  | NaN, _ | _, NaN => false
  | Fin x, Fin y => Qltb x y
  | NInf, (Fin _ | PInf) => true
  | Fin _, PInf => true
  | _, _ => false
  end.

Definition num_gtb (a b : num) : bool := num_ltb b a.

Definition is_finite (a : num) : bool :=
  match a with Fin _ => true | _ => false end.

Definition is_nan (a : num) : bool :=
  match a with NaN => true | _ => false end.

(** Equality of numpy floats up to the representation of the rational. *)
Definition num_eq (a b : num) : Prop :=
  match a, b with
  | Fin x, Fin y => x == y
  | PInf, PInf | NInf, NInf | NaN, NaN => True
  | _, _ => False
  end.

(** [a <= b] for floats that are not [nan]. *)
Definition num_le (a b : num) : Prop :=
  is_nan a = false /\ is_nan b = false /\ num_ltb b a = false.

(** ** Data model *)

Record TraceHeader : Type := {
  scalar_to_be_applied_to_all_coordinates : Z;
  group_coordinate_x : Z;
  group_coordinate_y : Z;
  source_coordinate_x : Z;
  source_coordinate_y : Z;
  sample_interval_in_ms_for_this_trace : Z
}.

Record Trace : Type := {
  header : TraceHeader;
  data : list num
}.

(** [file] is the name of the file the collection was read from, when
    there is one. *)
Record SUFile : Type := {
  traces : list Trace;
  file : option string
}.

(** Collections keep their identity when their traces are updated. *)
Definition set_data (tr : Trace) (d : list num) : Trace :=
  {| header := header tr; data := d |}.

Definition set_traces (st : SUFile) (trs : list Trace) : SUFile :=
  {| traces := trs; file := file st |}.

(** ** Built-in [max] and [min], and the reductions of numpy *)

(** [max(l)] and [min(l)] of Python keep the first element and replace
    it by a later one only when that one compares strictly better. *)
Definition py_best {A : Type} (better : A -> A -> bool) (l : list A) : result A :=
  match l with
  | [] => Raise ValueError
  | x :: l' => Ok (fold_left (fun m v => if better v m then v else m) l' x)
  end.

Definition py_max : list num -> result num := py_best num_gtb.
Definition py_min : list num -> result num := py_best num_ltb.
Definition py_maxQ : list Q -> result Q := py_best (fun v m => Qltb m v).
Definition py_minQ : list Q -> result Q := py_best Qltb.
Definition py_min_nat : list nat -> result nat := py_best Nat.ltb.

(** [numpy.maximum] and [numpy.minimum] propagate [nan]. *)
Definition np_maximum (a b : num) : num :=
  if is_nan a then a else if is_nan b then b else if num_gtb b a then b else a.

Definition np_minimum (a b : num) : num :=
  if is_nan a then a else if is_nan b then b else if num_ltb b a then b else a.

(** [a.max()] and [a.min()] of an array; an empty array has no maximum. *)
Definition np_max (a : list num) : result num :=
  match a with
  | [] => Raise ValueError
  | x :: a' => Ok (fold_left np_maximum a' x)
  end.

Definition np_min (a : list num) : result num :=
  match a with
  | [] => Raise ValueError
  | x :: a' => Ok (fold_left np_minimum a' x)
  end.

(** A loop that updates each element and threads a variable. *)
Fixpoint mapAccumM {S A B : Type} (f : S -> A -> result (B * S)) (s : S) (l : list A)
  : result (list B * S) :=
  match l with
  | [] => Ok ([], s)
  | a :: l' =>
      (r <- f s a ;;
       rs <- mapAccumM f (snd r) l' ;;
       Ok (fst r :: fst rs, snd rs))%result
  end.

(** ** Rendering events *)

Inductive normalize_policy : Type :=
| NormalizeNone
| NormalizeStream
| NormalizeTraces.

Inductive event : Type :=
| Figure (dpi : Z) (figsize : Q * Q)
| SetDpi (dpi : Z)
| SetFigwidth (w : Q)
| SetFigheight (h : Q)
| Suptitle (text : string) (y : Q) (x_small : bool)
| Plot (x y : list num) (color : string) (label : option string)
| SetYlim (lo hi : num)
| SetXlim (lo hi : num)
| SetXlabel (text : string)
| SetYlabel (text : string)
| Legend
| Savefig (outfile : option string) (format : option string)
| Show.

(** What [plotBenchmark] returns: [None], the image string, or the
    figure it was given. *)
Inductive retval : Type :=
| RetNone
| RetImage
| RetFig (fig : nat).

(** A computation that draws: the events it emitted, in order, and its
    result; the events emitted before an exception stay. *)
Definition M (A : Type) : Type := (list event * result A)%type.

Definition mret {A : Type} (a : A) : M A := ([], Ok a).

Definition mbind {A B : Type} (c : M A) (k : A -> M B) : M B :=
  match snd c with
  | Ok a => (fst c ++ fst (k a), snd (k a))
  | Raise e => (fst c, Raise e)
  end.

Definition lift {A : Type} (r : result A) : M A := ([], r).

Definition emit (e : event) : M unit := ([e], Ok tt).

Declare Scope M_scope.
Delimit Scope M_scope with M.
Notation "x <- c ;; k" := (mbind c (fun x => k))
  (at level 61, c at next level, right associativity) : M_scope.
Notation "c ;; k" := (mbind c (fun _ => k))
  (at level 61, right associativity) : M_scope.

Fixpoint foldM {S A : Type} (f : S -> A -> M S) (s : S) (l : list A) : M S :=
  match l with
  | [] => mret s
  | a :: l' => (s' <- f s a ;; foldM f s' l')%M
  end.

(** *** A library that raises

    An event stands for a call that returns.  Matplotlib can instead
    raise at a call, for instance at [set_ylim] on limits that are not
    finite.  The code catches no exception of the calls recorded as
    events and decides nothing on what they return, so its run against a
    library that raises at the calls it rejects is the run above cut
    after the first rejected call. *)
Inductive outcome (A : Type) : Type :=
| Returns (a : A)
| Raises (e : exn)
| LibraryRaises.

Arguments Returns {A} a.
Arguments Raises {A} e.
Arguments LibraryRaises {A}.

(** The calls made until one is rejected, the rejected one included, and
    whether one was. *)
Fixpoint calls_until_rejected (accepts : event -> bool) (events : list event)
  : list event * bool :=
  match events with
  | [] => ([], false)
  | e :: rest =>
      if accepts e then
        (e :: fst (calls_until_rejected accepts rest),
         snd (calls_until_rejected accepts rest))
      else ([e], true)
  end.

Definition run_with {A : Type} (accepts : event -> bool) (m : M A)
  : list event * outcome A :=
  if snd (calls_until_rejected accepts (fst m))
  then (fst (calls_until_rejected accepts (fst m)), LibraryRaises)
  else (fst m, match snd m with Ok a => Returns a | Raise e => Raises e end).

(** ** Parameters of [plotBenchmark] *)

Record Config : Type := {
  normalize : normalize_policy;
  clip_partial_traces : bool;
  scale : Q;
  xmin : option Q;
  xmax : option Q;
  ymin : option Q;
  ymax : option Q;
  fig : option nat;
  plot_legend : bool;
  title : string;
  size : Z * Z;
  dpi : Z;
  outfile : option string;
  format : option string;
  trim_to_smallest_trace : bool
}.

(** Running extremes of the plot loop. *)
Record Bounds : Type := {
  min_y : num;
  max_y : num;
  max_x : num
}.

(** ** Strings *)

Definition newline : ascii := ascii_of_nat 10.
Definition slash : ascii := ascii_of_nat 47.

(** [title.split('\n', 1)] when the title has a line break. *)
Fixpoint split_newline (s : string) : option (string * string) :=
  match s with
  | EmptyString => None
  | String c s' =>
      if Ascii.eqb c newline then Some (EmptyString, s')
      else match split_newline s' with
           | Some (a, b) => Some (String c a, b)
           | None => None
           end
  end.

(** [os.path.basename]: what follows the last slash. *)
Fixpoint basename_from (acc s : string) : string :=
  match s with
  | EmptyString => acc
  | String c s' =>
      if Ascii.eqb c slash then basename_from EmptyString s'
      else basename_from (acc ++ String c EmptyString) s'
  end.

Definition basename (s : string) : string := basename_from EmptyString s.

Definition str (i : nat) : string := NilEmpty.string_of_uint (Nat.to_uint i).

(** Truth value of an optional string: [None] and [''] are false. *)
Definition truthy (s : option string) : bool :=
  match s with
  | Some (String _ _) => true
  | _ => false
  end.

Section Benchmark.

Variable math_sqrt : Z -> Q.

Local Open Scope result_scope.

(** ** [_calcOffset] *)

Definition _calcOffset (trace : Trace) : result Q :=
  let th := header trace in
  let scalco := Z.abs (scalar_to_be_applied_to_all_coordinates th) in
  let scalco :=
    if (scalco <? 10)%Z && negb (scalco =? 1)%Z then (10 ^ scalco)%Z else scalco in
  inv <- py_div 1 (inject_Z scalco) ;;
  Ok (inv *
      math_sqrt ((group_coordinate_x th - source_coordinate_x th) ^ 2 +
                 (group_coordinate_y th - source_coordinate_y th) ^ 2)%Z).

(** ** [plotBenchmark]: trimming *)

(** [npts]: the smallest sample count of each collection, then the
    smallest of those. *)
Definition smallest_npts (streams : list SUFile) : result nat :=
  npts <- mapM (fun st => py_min_nat (map (fun tr => List.length (data tr)) (traces st)))
            streams ;;
  py_min_nat npts.

Definition trim_traces (npts : nat) (streams : list SUFile) : list SUFile :=
  map (fun st =>
         set_traces st (map (fun tr => set_data tr (firstn npts (data tr))) (traces st)))
      streams.

Definition trim_stage (trim_to_smallest_trace : bool) (streams : list SUFile)
  : result (list SUFile) :=
  if trim_to_smallest_trace then
    npts <- smallest_npts streams ;;
    Ok (trim_traces npts streams)
  else Ok streams.

(** ** [plotBenchmark]: offsets *)

Definition stream_offset_spacing (st : SUFile) : result Q :=
  temp <- mapM _calcOffset (traces st) ;;
  hi <- py_maxQ temp ;;
  lo <- py_minQ temp ;;
  py_div (hi - lo) (inject_Z (Z.of_nat (List.length (traces st)))).

Definition get_min_offset (streams : list SUFile) : result Q :=
  offsets <- mapM stream_offset_spacing streams ;;
  py_minQ offsets.

(** ** [plotBenchmark]: normalisation *)

Definition stream_max (st : SUFile) : result num :=
  l <- mapM (fun _i => np_max (data _i)) (traces st) ;;
  py_max l.

Definition stream_min (st : SUFile) : result num :=
  l <- mapM (fun _i => np_min (data _i)) (traces st) ;;
  py_min l.

(** The block under [if normalize != 'stream']. *)
Definition global_data_range (streams : list SUFile) : result num :=
  mm <- mapM (fun st =>
                hi <- stream_max st ;;
                lo <- stream_min st ;;
                Ok (hi, lo)) streams ;;
  minimum <- py_min (map snd mm) ;;
  maximum <- py_max (map fst mm) ;;
  Ok (num_sub maximum minimum).

(** [tr.data /= (data_range / (min_offset * scale))]. *)
Definition rescale (data_range : num) (min_offset scale : Q) (d : list num) : list num :=
  map (fun v => num_div v (num_div data_range (Fin (min_offset * scale)))) d.

(** The body of [for tr in st.traces]; [data_range] is [None] while the
    variable is unbound. *)
Definition normalize_trace (normalize : normalize_policy) (min_offset scale : Q)
    (data_range : option num) (tr : Trace) : result (Trace * option num) :=
  data_range <-
    match normalize with
    | NormalizeTraces =>
        hi <- np_max (data tr) ;;
        lo <- np_min (data tr) ;;
        Ok (Some (num_sub hi lo))
    | _ => Ok data_range
    end ;;
  match data_range with
  | None => Raise UnboundLocalError
  | Some r =>
      let r := num_abs r in
      Ok (set_data tr (rescale r min_offset scale (data tr)), Some r)
  end.

(** The body of [for st in streams]. *)
Definition normalize_stream (normalize : normalize_policy) (min_offset scale : Q)
    (data_range : option num) (st : SUFile) : result (SUFile * option num) :=
  data_range <-
    match normalize with
    | NormalizeStream =>
        hi <- stream_max st ;;
        lo <- stream_min st ;;
        Ok (Some (num_sub hi lo))
    | _ => Ok data_range
    end ;;
  r <- mapAccumM (normalize_trace normalize min_offset scale) data_range (traces st) ;;
  Ok (set_traces st (fst r), snd r).

Definition normalize_stage (normalize : normalize_policy) (min_offset scale : Q)
    (streams : list SUFile) : result (list SUFile) :=
  data_range <-
    match normalize with
    | NormalizeStream => Ok None
    | _ => r <- global_data_range streams ;; Ok (Some r)
    end ;;
  r <- mapAccumM (normalize_stream normalize min_offset scale) data_range streams ;;
  Ok (fst r).

(** ** [plotBenchmark]: figure, labels and colours *)

Definition set_title (title : string) : M unit :=
  match title with
  | EmptyString => mret tt
  | _ =>
      match split_newline title with
      | Some (main, subtitle) =>
          (emit (Suptitle main (97 # 100) false) ;;
           emit (Suptitle subtitle (935 # 1000) true))%M
      | None => emit (Suptitle title (95 # 100) false)
      end
  end.

(** The block under [if not fig]. *)
Definition setup_figure (cfg : Config) : M unit :=
  match fig cfg with
  | None =>
      (w <- lift (py_div (inject_Z (fst (size cfg))) (inject_Z (dpi cfg))) ;;
       h <- lift (py_div (inject_Z (snd (size cfg))) (inject_Z (dpi cfg))) ;;
       emit (Figure (dpi cfg) (w, h)) ;;
       emit (SetDpi (dpi cfg)) ;;
       emit (SetFigwidth w) ;;
       emit (SetFigheight h) ;;
       set_title (title cfg))%M
  | Some _ => mret tt
  end.

(** File names of the collections, or stream numbers when one of them
    has no file. *)
Definition get_labels (streams : list SUFile) : list string :=
  match
    fold_right (fun st acc =>
                  match file st, acc with
                  | Some name, Some l => Some (basename name :: l)
                  | _, _ => None
                  end) (Some []) streams
  with
  | Some l => l
  | None => map (fun i => ("Stream #" ++ str i)%string) (seq 0 (List.length streams))
  end.

(** More than five collections: [for i in len(streams)] iterates over
    an integer. *)
Definition get_colors (streams : list SUFile) : result (list string) :=
  if (5 <? List.length streams)%nat then Raise TypeError
  else Ok ["grey"; "red"; "green"; "blue"; "black"]%string.

Definition index {A : Type} (l : list A) (i : nat) : result A :=
  match nth_error l i with
  | Some a => Ok a
  | None => Raise IndexError
  end.

(** ** [plotBenchmark]: the plot loop *)

Definition trace_x (delta : Z) (tr : Trace) : list num :=
  map (fun i => Fin (inject_Z (Z.of_nat i * delta) / 1000000))
      (seq 0 (List.length (data tr))).

Definition shift (offset : Q) (d : list num) : list num :=
  map (fun v => num_add v (Fin offset)) d.

(** [min(y) < ymin] or [max(y) > ymax] for the bounds that are given. *)
Definition out_of_image (ymin ymax : option Q) (lo hi : num) : bool :=
  match ymin with Some v => num_ltb lo (Fin v) | None => false end
  || match ymax with Some v => num_gtb hi (Fin v) | None => false end.

Definition update_bounds (b : Bounds) (lo hi xhi : num) : Bounds :=
  {| min_y := if num_ltb lo (min_y b) then lo else min_y b;
     max_y := if num_gtb hi (max_y b) then hi else max_y b;
     max_x := if num_gtb xhi (max_x b) then xhi else max_x b |}.

(** The body of [for _j, tr in enumerate(st.traces)]; the state is the
    running bounds and the [legend] flag. *)
Definition plot_trace (clip_partial_traces : bool) (ymin ymax : option Q) (delta : Z)
    (color : string) (labels : list string) (_i : nat)
    (s : Bounds * bool) (tr : Trace) : M (Bounds * bool) :=
  (offset <- lift (_calcOffset tr) ;;
   let y := shift offset (data tr) in
   let x := trace_x delta tr in
   hi <- lift (py_max y) ;;
   lo <- lift (py_min y) ;;
   xhi <- lift (py_max x) ;;
   let b := update_bounds (fst s) lo hi xhi in
   if clip_partial_traces && out_of_image ymin ymax lo hi then mret (b, snd s)
   else if snd s then
     label <- lift (index labels _i) ;;
     emit (Plot x y color (Some label)) ;;
     mret (b, false)
   else
     emit (Plot x y color None) ;;
     mret (b, false))%M.

(** The body of [for _i, st in enumerate(streams)]. *)
Definition plot_stream (clip_partial_traces : bool) (ymin ymax : option Q) (delta : Z)
    (colors labels : list string) (b : Bounds) (ist : nat * SUFile) : M Bounds :=
  (color <- lift (index colors (fst ist)) ;;
   s <- foldM (plot_trace clip_partial_traces ymin ymax delta color labels (fst ist))
          (b, true) (traces (snd ist)) ;;
   mret (fst s))%M.

Definition initial_bounds : Bounds :=
  {| min_y := PInf; max_y := NInf; max_x := NInf |}.

Definition plot_loop (clip_partial_traces : bool) (ymin ymax : option Q) (delta : Z)
    (colors labels : list string) (streams : list SUFile) : M Bounds :=
  foldM (plot_stream clip_partial_traces ymin ymax delta colors labels)
        initial_bounds (combine (seq 0 (List.length streams)) streams).

(** ** [plotBenchmark]: axis limits *)

(** The final [(ymin, ymax)]. *)
Definition limit_offset_axis (ymin ymax : option Q) (b : Bounds) : num * num :=
  let spacing := num_div (num_sub (max_y b) (min_y b)) (Fin 50) in
  let ymax :=
    match ymax with
    | None => num_add (max_y b) spacing
    | Some v => if num_gtb (Fin v) (max_y b) then num_add (max_y b) spacing else Fin v
    end in
  let ymin :=
    match ymin with
    | None => num_sub (min_y b) spacing
    | Some v => if num_ltb (Fin v) (min_y b) then num_sub (min_y b) spacing else Fin v
    end in
  (ymin, ymax).

(** The final [(xmin, xmax)]. *)
Definition limit_time_axis (xmin xmax : option Q) (b : Bounds) : num * num :=
  let xmin :=
    match xmin with
    | None => Fin 0
    | Some v => if Qltb v 0 then Fin 0 else Fin v
    end in
  let xmax :=
    match xmax with
    | None => max_x b
    | Some v => if num_gtb (Fin v) (max_x b) then max_x b else Fin v
    end in
  (xmin, xmax).

(** ** [plotBenchmark]: output *)

Definition handle_output (cfg : Config) : M retval :=
  match outfile cfg with
  | None =>
      if truthy (format cfg) then
        (emit (Savefig None (format cfg)) ;; mret RetImage)%M
      else
        match fig cfg with
        | None => (emit Show ;; mret RetNone)%M
        | Some f => mret (RetFig f)
        end
  | Some name =>
      if truthy (format cfg) then
        (emit (Savefig (Some name) (format cfg)) ;; mret RetNone)%M
      else
        (emit (Savefig (Some name) None) ;; mret RetNone)%M
  end.

(** ** [plotBenchmark] *)

(** [streams[0].traces[0].header.sample_interval_in_ms_for_this_trace]. *)
Definition get_delta (streams : list SUFile) : result Z :=
  st <- index streams 0 ;;
  tr <- index (traces st) 0 ;;
  Ok (sample_interval_in_ms_for_this_trace (header tr)).

(** The collections are given parsed: [readSU] is not part of the model. *)
Definition plotBenchmark (cfg : Config) (sufiles : list SUFile) : M retval :=
  match sufiles with
  | [] => mret RetNone
  | _ =>
      let streams := sufiles in
      (delta <- lift (get_delta streams) ;;
       streams <- lift (trim_stage (trim_to_smallest_trace cfg) streams) ;;
       min_offset <- lift (get_min_offset streams) ;;
       streams <- lift (normalize_stage (normalize cfg) min_offset (scale cfg) streams) ;;
       setup_figure cfg ;;
       let labels := get_labels streams in
       colors <- lift (get_colors streams) ;;
       b <- plot_loop (clip_partial_traces cfg) (ymin cfg) (ymax cfg) delta
              colors labels streams ;;
       let ylim := limit_offset_axis (ymin cfg) (ymax cfg) b in
       emit (SetYlim (fst ylim) (snd ylim)) ;;
       let xlim := limit_time_axis (xmin cfg) (xmax cfg) b in
       emit (SetXlim (fst xlim) (snd xlim)) ;;
       emit (SetXlabel "time [s]") ;;
       emit (SetYlabel "offset [m]") ;;
       (if plot_legend cfg then emit Legend else mret tt) ;;
       handle_output cfg)%M
  end.

(** ** Statements of the specification *)

(** *** Offset Calculator *)

Definition scalco_of (trace : Trace) : Z :=
  Z.abs (scalar_to_be_applied_to_all_coordinates (header trace)).

Definition squared_distance (trace : Trace) : Z :=
  let th := header trace in
  ((group_coordinate_x th - source_coordinate_x th) ^ 2 +
   (group_coordinate_y th - source_coordinate_y th) ^ 2)%Z.

(** The divisor in the words of the specification: [10^scalco] when
    [1 < scalco < 10], [scalco] itself otherwise. *)
Definition spec_divisor (scalco : Z) : Z :=
  if (1 <? scalco)%Z && (scalco <? 10)%Z then (10 ^ scalco)%Z else scalco.

(** The offset in the words of the specification:
    [(1/divisor) * sqrt(dx^2 + dy^2)]. *)
Definition spec_offset (trace : Trace) : result Q :=
  inv <- py_div 1 (inject_Z (spec_divisor (scalco_of trace))) ;;
  Ok (inv * math_sqrt (squared_distance trace)).

Definition offset_follows_spec (trace : Trace) : Prop :=
  _calcOffset trace = spec_offset trace.

(** The divisor with the zero scale field taken as the exponent it is
    for the code. *)
Definition effective_divisor (scalco : Z) : Z :=
  if (scalco =? 0)%Z then 1%Z else spec_divisor scalco.

Definition offset_of (trace : Trace) : Q :=
  1 / inject_Z (effective_divisor (scalco_of trace)) *
  math_sqrt (squared_distance trace).

Definition offset_fails (trace : Trace) : Prop :=
  exists e, _calcOffset trace = Raise e.

(** *** Trace Aligner *)

Definition all_traces (streams : list SUFile) : list Trace :=
  flat_map traces streams.

(** [n] is the sample count of the shortest trace of all collections. *)
Definition shortest_length (streams : list SUFile) (n : nat) : Prop :=
  (exists tr, In tr (all_traces streams) /\ List.length (data tr) = n)
  /\ forall tr, In tr (all_traces streams) -> (n <= List.length (data tr))%nat.

(** [tr'] is [tr] cut to its first [n] samples. *)
Definition truncated_to (n : nat) (tr tr' : Trace) : Prop :=
  header tr' = header tr
  /\ data tr' = firstn n (data tr)
  /\ List.length (data tr') = n
  /\ exists rest, data tr = (data tr' ++ rest)%list.

Definition aligned (n : nat) (streams out : list SUFile) : Prop :=
  Forall2 (fun st st' =>
             file st' = file st
             /\ Forall2 (truncated_to n) (traces st) (traces st'))
          streams out.

(** Every collection has a trace. *)
Definition no_empty_collection (streams : list SUFile) : Prop :=
  Forall (fun st => traces st <> []) streams.

(** *** Layout Engine: axis bounds *)

(** [span/50] and the padded automatic y range. *)
Definition padding (b : Bounds) : num :=
  num_div (num_sub (max_y b) (min_y b)) (Fin 50).

Definition padded_range (b : Bounds) : num * num :=
  (num_sub (min_y b) (padding b), num_add (max_y b) (padding b)).

(** "An explicit bound lying inside the observed data range is
    overridden by the padded auto-bound", for the upper bound. *)
Definition explicit_ymax_inside_is_overridden (ymin ymax : option Q) (b : Bounds) : Prop :=
  forall v lo hi,
    ymax = Some v -> min_y b = Fin lo -> max_y b = Fin hi ->
    (lo <= v)%Q -> (v <= hi)%Q ->
    num_eq (snd (limit_offset_axis ymin ymax b)) (snd (padded_range b)).

(** "x bounds, unlike y bounds, allow shrinking": an explicit upper
    bound below the observed maximum is honored on the x axis and is not
    on the y axis. *)
Definition only_x_bounds_shrink (b : Bounds) : Prop :=
  (forall v observed,
      max_x b = Fin observed -> (v < observed)%Q ->
      snd (limit_time_axis None (Some v) b) = Fin v)
  /\ (forall v hi,
         max_y b = Fin hi -> (v < hi)%Q ->
         snd (limit_offset_axis None (Some v) b) <> Fin v).

(** *** Layout Engine: clipping *)

(** What a [Plot] event draws: the x values, the y values, the colour. *)
Definition curve : Type := (list num * list num * string)%type.

Definition drawn (events : list event) : list curve :=
  flat_map (fun e => match e with
                     | Plot x y color _ => [(x, y, color)]
                     | _ => []
                     end) events.

(** The offset-shifted samples of a trace: every sample plus the offset
    of the trace.  The time of sample [i] is [i * delta / 10^6].  The
    curve of a trace plots the former against the latter. *)
Definition shifted (tr : Trace) : list num :=
  map (fun v => num_add v (Fin (offset_of tr))) (data tr).

Definition sample_times (delta : Z) (tr : Trace) : list num :=
  map (fun i => Fin (inject_Z (Z.of_nat i * delta) / 1000000))
      (seq 0 (List.length (data tr))).

Definition trace_curve (delta : Z) (color : string) (tr : Trace) : curve :=
  (sample_times delta tr, shifted tr, color).

(** Some sample is below the explicit [ymin] or above the explicit
    [ymax]. *)
Definition partly_outside (ymin ymax : option Q) (y : list num) : bool :=
  match ymin with Some v => existsb (fun s => num_ltb s (Fin v)) y | None => false end
  || match ymax with Some v => existsb (fun s => num_gtb s (Fin v)) y | None => false end.

(** The test of the loop on the extremes of [y]. *)
Definition clipped_by_code (ymin ymax : option Q) (y : list num) : bool :=
  match py_min y, py_max y with
  | Ok lo, Ok hi => out_of_image ymin ymax lo hi
  | _, _ => false
  end.

(** The traces the loop draws. *)
Definition kept_by_loop (clip : bool) (ymin ymax : option Q) (tr : Trace) : bool :=
  negb (clip && clipped_by_code ymin ymax (shifted tr)).

(** The curves of the traces that [keep] selects, collection by
    collection in the colour of the collection. *)
Definition stream_curves (keep : Trace -> bool) (delta : Z) (colors : list string)
    (ist : nat * SUFile) : list curve :=
  match nth_error colors (fst ist) with
  | Some color => map (trace_curve delta color) (filter keep (traces (snd ist)))
  | None => []
  end.

Definition curves_of (keep : Trace -> bool) (delta : Z) (colors : list string)
    (streams : list SUFile) : list curve :=
  flat_map (stream_curves keep delta colors)
           (combine (seq 0 (List.length streams)) streams).

(** The running bounds after one more trace, and after all of them. *)
Definition observe (delta : Z) (b : Bounds) (tr : Trace) : Bounds :=
  match py_max (shifted tr), py_min (shifted tr), py_max (trace_x delta tr) with
  | Ok hi, Ok lo, Ok xhi => update_bounds b lo hi xhi
  | _, _, _ => b
  end.

Definition tracked_bounds (delta : Z) (streams : list SUFile) : Bounds :=
  fold_left (observe delta) (all_traces streams) initial_bounds.

(** [m] is the least, the greatest, of the values of [l]. *)
Definition num_least (l : list num) (m : num) : Prop :=
  In m l /\ forall v, In v l -> num_le m v.

Definition num_greatest (l : list num) (m : num) : Prop :=
  In m l /\ forall v, In v l -> num_le v m.

(** The bounds are the minimum and the maximum over the points of the
    curves of all traces, the traces that are not drawn included. *)
Definition extremes_of_all (delta : Z) (streams : list SUFile) (b : Bounds) : Prop :=
  num_least (flat_map shifted (all_traces streams)) (min_y b)
  /\ num_greatest (flat_map shifted (all_traces streams)) (max_y b)
  /\ num_greatest (flat_map (sample_times delta) (all_traces streams)) (max_x b).

(** "With clipPartialTraces enabled, every trace whose offset-shifted
    y-values fall partly outside the explicit bounds is excluded from
    the drawn output entirely." *)
Definition partly_outside_is_excluded (ymin ymax : option Q) (delta : Z)
    (colors labels : list string) (streams : list SUFile) : Prop :=
  forall tr color,
    In tr (all_traces streams) ->
    partly_outside ymin ymax (shifted tr) = true ->
    ~ In (trace_curve delta color tr)
         (drawn (fst (plot_loop true ymin ymax delta colors labels streams))).

(** Every trace has a sample; no sample is [nan]. *)
Definition no_empty_trace (streams : list SUFile) : Prop :=
  Forall (fun tr => data tr <> []) (all_traces streams).

Definition no_nan (d : list num) : Prop :=
  Forall (fun v => is_nan v = false) d.

(** *** Amplitude Normalizer *)

Definition is_least (l : list Q) (m : Q) : Prop :=
  In m l /\ forall x, In x l -> (m <= x)%Q.

Definition is_greatest (l : list Q) (m : Q) : Prop :=
  In m l /\ forall x, In x l -> (x <= m)%Q.

(** [(max_offset - min_offset) / traceCount] of one collection. *)
Definition offset_spacing (st : SUFile) (q : Q) : Prop :=
  exists hi lo,
    is_greatest (map offset_of (traces st)) hi
    /\ is_least (map offset_of (traces st)) lo
    /\ q = ((hi - lo) / inject_Z (Z.of_nat (List.length (traces st))))%Q.

(** [m] is the smallest of the offset spacings of the collections. *)
Definition min_offset_spacing (streams : list SUFile) (m : Q) : Prop :=
  exists qs, Forall2 offset_spacing streams qs /\ is_least qs m.

(** The sample range [max - min] of a trace and of a collection. *)
Definition own_range (tr : Trace) : result num :=
  hi <- np_max (data tr) ;;
  lo <- np_min (data tr) ;;
  Ok (num_sub hi lo).

Definition stream_range (st : SUFile) : result num :=
  hi <- stream_max st ;;
  lo <- stream_min st ;;
  Ok (num_sub hi lo).

(** The data range that a policy applies to trace [tr] of collection
    [st]: global, per collection, or per trace. *)
Definition applicable_range (policy : normalize_policy) (streams : list SUFile)
    (st : SUFile) (tr : Trace) : result num :=
  match policy with
  | NormalizeNone => global_data_range streams
  | NormalizeStream => stream_range st
  | NormalizeTraces => own_range tr
  end.

(** [tr'] is [tr] with its samples divided by
    [abs(range) / (min_offset * scale)]. *)
Definition rescaled_by (policy : normalize_policy) (min_offset scale : Q)
    (streams : list SUFile) (st : SUFile) (tr tr' : Trace) : Prop :=
  exists r,
    applicable_range policy streams st tr = Ok r
    /\ tr' = set_data tr (rescale (num_abs r) min_offset scale (data tr)).

Definition normalized_by (policy : normalize_policy) (min_offset scale : Q)
    (streams out : list SUFile) : Prop :=
  Forall2 (fun st st' =>
             file st' = file st
             /\ Forall2 (rescaled_by policy min_offset scale streams st)
                        (traces st) (traces st'))
          streams out.

(** All samples are equal. *)
Definition flat (samples : list Q) : Prop :=
  forall x y, In x samples -> In y samples -> (x == y)%Q.

(** The variable [data_range] holds the range [r0] or, after a first
    trace, its absolute value. *)
Definition holds_range (r0 : num) (s : option num) : Prop :=
  s = Some r0 \/ s = Some (num_abs r0).

(** Inside a collection, unless the policy is per trace, [data_range]
    holds the range shared by the traces of the collection. *)
Definition shared_range_held (policy : normalize_policy) (streams : list SUFile)
    (st : SUFile) (s : option num) : Prop :=
  policy <> NormalizeTraces ->
  exists r0, (forall tr, applicable_range policy streams st tr = Ok r0) /\ holds_range r0 s.

(** Between collections, under the global policy, [data_range] holds the
    global range. *)
Definition global_range_held (policy : normalize_policy) (streams : list SUFile)
    (s : option num) : Prop :=
  policy = NormalizeNone ->
  exists g, global_data_range streams = Ok g /\ holds_range g s.

(** Under the per-trace policy [tr'] is [tr] divided by its own range
    over [min_offset * scale], and when the samples of [tr] are finite
    and not all equal the range of [tr'] is [min_offset * abs(scale)]. *)
Definition spread_fits (min_offset scale : Q) (tr tr' : Trace) : Prop :=
  (exists r,
      own_range tr = Ok r
      /\ tr' = set_data tr (rescale (num_abs r) min_offset scale (data tr)))
  /\ forall samples,
       data tr = map Fin samples -> ~ flat samples ->
       exists r', own_range tr' = Ok r' /\ num_eq r' (Fin (min_offset * Qabs scale)).

(** "Every trace's sample range equals minOffsetSpacing * scale." *)
Definition every_range_is_spacing_times_scale (scale : Q) (streams : list SUFile) : Prop :=
  forall m out,
    get_min_offset streams = Ok m ->
    normalize_stage NormalizeTraces m scale streams = Ok out ->
    Forall (fun tr' => exists r', own_range tr' = Ok r' /\ num_eq r' (Fin (m * scale)))
           (all_traces out).

(** The data range applied to a trace is zero. *)
Definition degenerate (policy : normalize_policy) (streams : list SUFile)
    (st : SUFile) (tr : Trace) : Prop :=
  exists r, applicable_range policy streams st tr = Ok r /\ num_eq (num_abs r) (Fin 0).

Definition all_non_finite (d : list num) : Prop :=
  Forall (fun v => is_finite v = false) d.

Definition has_flat_trace (streams : list SUFile) : Prop :=
  exists tr samples,
    In tr (all_traces streams) /\ data tr = map Fin samples /\ flat samples.

(** "The Amplitude Normalizer fails on an input with a flat trace." *)
Definition normalizer_rejects_flat (policy : normalize_policy) (min_offset scale : Q)
    (streams : list SUFile) : Prop :=
  has_flat_trace streams ->
  exists e, normalize_stage policy min_offset scale streams = Raise e.

(** *** Further statements: offsets *)

(** The same trace with the sign of its scale field changed, and with
    source and group exchanged. *)
Definition negate_scale (tr : Trace) : Trace :=
  let th := header tr in
  {| header :=
       {| scalar_to_be_applied_to_all_coordinates :=
            (- scalar_to_be_applied_to_all_coordinates th)%Z;
          group_coordinate_x := group_coordinate_x th;
          group_coordinate_y := group_coordinate_y th;
          source_coordinate_x := source_coordinate_x th;
          source_coordinate_y := source_coordinate_y th;
          sample_interval_in_ms_for_this_trace :=
            sample_interval_in_ms_for_this_trace th |};
     data := data tr |}.

Definition swap_ends (tr : Trace) : Trace :=
  let th := header tr in
  {| header :=
       {| scalar_to_be_applied_to_all_coordinates :=
            scalar_to_be_applied_to_all_coordinates th;
          group_coordinate_x := source_coordinate_x th;
          group_coordinate_y := source_coordinate_y th;
          source_coordinate_x := group_coordinate_x th;
          source_coordinate_y := group_coordinate_y th;
          sample_interval_in_ms_for_this_trace :=
            sample_interval_in_ms_for_this_trace th |};
     data := data tr |}.

(** *** Further statements: the prepared collections *)

(** [out] has the collections, the file names, the traces and the
    headers of [streams]. *)
Definition same_layout (streams out : list SUFile) : Prop :=
  Forall2 (fun st st' =>
             file st' = file st
             /\ Forall2 (fun tr tr' => header tr' = header tr) (traces st) (traces st'))
          streams out.

(** Trace by trace [out] has as many samples as [streams]. *)
Definition same_sample_counts (streams out : list SUFile) : Prop :=
  Forall2 (fun st st' =>
             Forall2 (fun tr tr' => List.length (data tr') = List.length (data tr))
                     (traces st) (traces st'))
          streams out.

(** The collections as the plot loop receives them. *)
Definition prepared (cfg : Config) (streams out : list SUFile) (min_offset : Q) : Prop :=
  exists trimmed,
    trim_stage (trim_to_smallest_trace cfg) streams = Ok trimmed
    /\ get_min_offset trimmed = Ok min_offset
    /\ normalize_stage (normalize cfg) min_offset (scale cfg) trimmed = Ok out.

(** All samples of the trace with the data range [r] divided out. *)
Definition divide_by_range (r : num) (min_offset scale : Q) (tr : Trace) : Trace :=
  set_data tr (rescale (num_abs r) min_offset scale (data tr)).

(** *** Further statements: rendering *)

(** The [Plot] events of the traces [trs] of one collection: the first
    one carries [label], the others none. *)
Fixpoint plots (delta : Z) (color : string) (label : option string) (trs : list Trace)
  : list event :=
  match trs with
  | [] => []
  | tr :: rest =>
      Plot (trace_x delta tr) (shifted tr) color label :: plots delta color None rest
  end.

Definition stream_plots (clip : bool) (ymin ymax : option Q) (delta : Z)
    (colors labels : list string) (ist : nat * SUFile) : list event :=
  match nth_error colors (fst ist), nth_error labels (fst ist) with
  | Some color, Some label =>
      plots delta color (Some label)
            (filter (kept_by_loop clip ymin ymax) (traces (snd ist)))
  | _, _ => []
  end.

Definition loop_plots (clip : bool) (ymin ymax : option Q) (delta : Z)
    (colors labels : list string) (streams : list SUFile) : list event :=
  flat_map (stream_plots clip ymin ymax delta colors labels)
           (combine (seq 0 (List.length streams)) streams).

Definition title_events (title : string) : list event :=
  match title with
  | EmptyString => []
  | _ =>
      match split_newline title with
      | Some (main, subtitle) =>
          [Suptitle main (97 # 100) false; Suptitle subtitle (935 # 1000) true]
      | None => [Suptitle title (95 # 100) false]
      end
  end.

(** The events of a new figure; none when a figure is given. *)
Definition figure_events (cfg : Config) : list event :=
  match fig cfg with
  | None =>
      let w := (inject_Z (fst (size cfg)) / inject_Z (dpi cfg))%Q in
      let h := (inject_Z (snd (size cfg)) / inject_Z (dpi cfg))%Q in
      [Figure (dpi cfg) (w, h); SetDpi (dpi cfg); SetFigwidth w; SetFigheight h]
        ++ title_events (title cfg)
  | Some _ => []
  end.

Definition axis_events (cfg : Config) (b : Bounds) : list event :=
  [SetYlim (fst (limit_offset_axis (ymin cfg) (ymax cfg) b))
           (snd (limit_offset_axis (ymin cfg) (ymax cfg) b));
   SetXlim (fst (limit_time_axis (xmin cfg) (xmax cfg) b))
           (snd (limit_time_axis (xmin cfg) (xmax cfg) b));
   SetXlabel "time [s]"; SetYlabel "offset [m]"]
    ++ (if plot_legend cfg then [Legend] else []).

(** The four output modes: what is emitted and what is returned. *)
Definition output_events (cfg : Config) : list event :=
  match outfile cfg, truthy (format cfg), fig cfg with
  | None, true, _ => [Savefig None (format cfg)]
  | None, false, None => [Show]
  | None, false, Some _ => []
  | Some name, true, _ => [Savefig (Some name) (format cfg)]
  | Some name, false, _ => [Savefig (Some name) None]
  end.

Definition returned (cfg : Config) : retval :=
  match outfile cfg, truthy (format cfg), fig cfg with
  | None, true, _ => RetImage
  | None, false, Some f => RetFig f
  | _, _, _ => RetNone
  end.

(** A figure is given or [dpi] is not zero. *)
Definition figure_available (cfg : Config) : Prop :=
  fig cfg <> None \/ dpi cfg <> 0%Z.

(** [plotBenchmark] from the figure on, for the prepared collections. *)
Definition render (cfg : Config) (delta : Z) (streams : list SUFile) : M retval :=
  (setup_figure cfg ;;
   let labels := get_labels streams in
   colors <- lift (get_colors streams) ;;
   b <- plot_loop (clip_partial_traces cfg) (ymin cfg) (ymax cfg) delta
          colors labels streams ;;
   let ylim := limit_offset_axis (ymin cfg) (ymax cfg) b in
   emit (SetYlim (fst ylim) (snd ylim)) ;;
   let xlim := limit_time_axis (xmin cfg) (xmax cfg) b in
   emit (SetXlim (fst xlim) (snd xlim)) ;;
   emit (SetXlabel "time [s]") ;;
   emit (SetYlabel "offset [m]") ;;
   (if plot_legend cfg then emit Legend else mret tt) ;;
   handle_output cfg)%M.

(** The file names of the collections when all have one. *)
Definition file_names (streams : list SUFile) : option (list string) :=
  fold_right (fun st acc =>
                match file st, acc with
                | Some name, Some l => Some (name :: l)
                | _, _ => None
                end) (Some []) streams.

Definition stream_numbers (n : nat) : list string :=
  map (fun i => ("Stream #" ++ str i)%string) (seq 0 n).

(** The labels that the [Plot] events carry, in order. *)
Definition legend_entries (events : list event) : list string :=
  flat_map (fun e => match e with
                     | Plot _ _ _ (Some label) => [label]
                     | _ => []
                     end) events.

(** The labels of the collections with a trace that the loop draws. *)
Definition drawn_labels (clip : bool) (ymin ymax : option Q) (labels : list string)
    (streams : list SUFile) : list string :=
  flat_map (fun ist : nat * SUFile =>
              match nth_error labels (fst ist) with
              | Some label =>
                  if existsb (kept_by_loop clip ymin ymax) (traces (snd ist))
                  then [label] else []
              | None => []
              end)
           (combine (seq 0 (List.length streams)) streams).

(** Every collection has exactly one trace. *)
Definition one_trace_each (streams : list SUFile) : Prop :=
  Forall (fun st => exists tr, traces st = [tr]) streams.

(** *** Further statements: the bounds *)

(** [v] lies between [lo] and [hi]. *)
Definition within (lo hi v : num) : Prop := num_le lo v /\ num_le v hi.

(** The bounds contain every point of the curve of [tr]. *)
Definition encloses (delta : Z) (b : Bounds) (tr : Trace) : Prop :=
  (forall v, In v (shifted tr) -> within (min_y b) (max_y b) v)
  /\ (forall x, In x (trace_x delta tr) -> num_le x (max_x b)).

Definition no_nan_bounds (b : Bounds) : Prop :=
  is_nan (min_y b) = false /\ is_nan (max_y b) = false /\ is_nan (max_x b) = false.

(** [b'] is at least as wide as [b]. *)
Definition widens (b b' : Bounds) : Prop :=
  num_le (min_y b') (min_y b) /\ num_le (max_y b) (max_y b')
  /\ num_le (max_x b) (max_x b').

Definition all_finite (d : list num) : Prop :=
  Forall (fun v => is_finite v = true) d.

End Benchmark.

(** ** Concrete inputs *)

(** A square root that is exact on perfect squares, to run the model. *)
Definition integer_sqrt (n : Z) : Q := inject_Z (Z.sqrt n).

Definition make_header (scalco gx gy : Z) : TraceHeader :=
  {| scalar_to_be_applied_to_all_coordinates := scalco;
     group_coordinate_x := gx;
     group_coordinate_y := gy;
     source_coordinate_x := 0;
     source_coordinate_y := 0;
     sample_interval_in_ms_for_this_trace := 1000 |}.

Definition make_trace (scalco gx gy : Z) (samples : list Q) : Trace :=
  {| header := make_header scalco gx gy; data := map Fin samples |}.

(** A trace with scale field 0, 3 east and 4 north of its source. *)
Definition unscaled_trace : Trace := make_trace 0 3 4 [1; 2]%Q.

(** The observed y range [[-2, 3]] of the specification, and an
    observed x maximum of 2 seconds. *)
Definition observed_bounds : Bounds :=
  {| min_y := Fin (-2); max_y := Fin 3; max_x := Fin 2 |}.

(** A trace at distance [gx] of its source with [n] samples, and the
    collections of the specification: trace lengths 50 and 80, and 60. *)
Definition long_trace (gx : Z) (n : nat) : Trace :=
  {| header := make_header 1 gx 0;
     data := map (fun i => Fin (inject_Z (Z.of_nat i))) (seq 0 n) |}.

Definition uneven_streams : list SUFile :=
  [ {| traces := [long_trace 10 50; long_trace 20 80]; file := None |};
    {| traces := [long_trace 10 60]; file := None |} ].

(** One collection of three traces 10, 20 and 40 away from the source
    (offset spacing [(40 - 10) / 3 = 10]); the second trace is flat. *)
Definition flat_trace : Trace := make_trace 1 20 0 [5; 5; 5]%Q.

Definition sample_streams : list SUFile :=
  [ {| traces := [make_trace 1 10 0 [1; 2; 4]%Q; flat_trace;
                  make_trace 1 40 0 [0; -1; 3; 7]%Q];
       file := None |} ].

(** Normalised traces to draw: the first one reaches 50, the second
    one stays below 24. *)
Definition drawable_streams : list SUFile :=
  [ {| traces := [make_trace 1 10 0 [10; 20; 40]%Q; make_trace 1 20 0 [1; 2; 3]%Q];
       file := None |} ].

Definition palette : list string := ["grey"; "red"; "green"; "blue"; "black"]%string.

(** The default parameters of [plotBenchmark]. *)
Definition default_config : Config :=
  {| normalize := NormalizeTraces;
     clip_partial_traces := true;
     scale := 3;
     xmin := None; xmax := None; ymin := None; ymax := None;
     fig := None;
     plot_legend := true;
     title := EmptyString;
     size := (800, 600)%Z;
     dpi := 100;
     outfile := None;
     format := None;
     trim_to_smallest_trace := true |}.

(** Six collections, one more than the preset colours. *)
Definition six_streams : list SUFile :=
  (drawable_streams ++ sample_streams ++ uneven_streams
   ++ drawable_streams ++ sample_streams)%list.

(** The default parameters with [dpi=0]. *)
Definition zero_dpi_config : Config :=
  {| normalize := NormalizeTraces;
     clip_partial_traces := true;
     scale := 3;
     xmin := None; xmax := None; ymin := None; ymax := None;
     fig := None;
     plot_legend := true;
     title := EmptyString;
     size := (800, 600)%Z;
     dpi := 0;
     outfile := None;
     format := None;
     trim_to_smallest_trace := true |}.

(** A collection whose second trace has no sample. *)
Definition empty_trace_streams : list SUFile :=
  [ {| traces := [make_trace 1 10 0 [1; 2]%Q; make_trace 1 20 0 []];
       file := None |} ].

(** Two collections of one trace each. *)
Definition single_trace_streams : list SUFile :=
  [ {| traces := [make_trace 1 10 0 [1; 2; 4]%Q]; file := Some "a/b.su"%string |};
    {| traces := [make_trace 1 20 0 [0; 3]%Q]; file := None |} ].

(** A trace 10 away from its source whose first sample is [nan]: its
    offset-shifted samples are [nan] and 110. *)
Definition nan_trace : Trace :=
  {| header := make_header 1 10 0; data := [NaN; Fin 100] |}.

Definition nan_streams : list SUFile :=
  [ {| traces := [nan_trace]; file := None |} ].

(** A library that raises at [set_ylim] and [set_xlim] on a limit that
    is not finite and accepts every other call. *)
Definition finite_limits_only (e : event) : bool :=
  match e with
  | SetYlim lo hi | SetXlim lo hi => is_finite lo && is_finite hi
  | _ => true
  end.

(** A call with a title in two lines, explicit limits, the policy
    ["stream"] and an output file with its format. *)
Definition explicit_config : Config :=
  {| normalize := NormalizeStream;
     clip_partial_traces := true;
     scale := 2;
     xmin := Some (-1); xmax := Some (1 # 1000); ymin := None; ymax := Some (41 # 2);
     fig := None;
     plot_legend := true;
     title := ("Benchmark" ++ String newline "halfspace")%string;
     size := (800, 600)%Z;
     dpi := 100;
     outfile := Some "benchmark.png"%string;
     format := Some "png"%string;
     trim_to_smallest_trace := false |}.

(** * Properties *)

Section Properties.

Variable math_sqrt : Z -> Q.

Local Open Scope Z_scope.

(** ** Results and numbers *)

Lemma Qltb_lt (a b : Q) : Qltb a b = true <-> (a < b)%Q.
Proof.
  unfold Qltb. rewrite negb_true_iff.
  split; intros H.
  - apply Qnot_le_lt. intros Hle. apply Qle_bool_iff in Hle. congruence.
  - destruct (Qle_bool b a) eqn:E; [|reflexivity].
    apply Qle_bool_iff in E. apply Qle_not_lt in E. contradiction.
Qed.

Lemma Qltb_ge (a b : Q) : Qltb a b = false <-> (b <= a)%Q.
Proof.
  unfold Qltb. rewrite negb_false_iff. apply Qle_bool_iff.
Qed.

Lemma Qeq_bool_false (a b : Q) : ~ (a == b)%Q -> Qeq_bool a b = false.
Proof.
  intros H. destruct (Qeq_bool a b) eqn:E; [|reflexivity].
  apply Qeq_bool_iff in E. contradiction.
Qed.

Lemma py_div_nonzero (a b : Q) : ~ (b == 0)%Q -> py_div a b = Ok (a / b)%Q.
Proof.
  intros H. unfold py_div. now rewrite Qeq_bool_false.
Qed.

Lemma inject_Z_nonzero (z : Z) : z <> 0 -> ~ (inject_Z z == 0)%Q.
Proof.
  intros H E. apply H. unfold Qeq in E. simpl in E. lia.
Qed.

(** ** Offset Calculator *)

Lemma effective_divisor_pos (s : Z) : 0 <= s -> 0 < effective_divisor s.
Proof.
  intros Hs. unfold effective_divisor, spec_divisor.
  destruct (Z.eqb_spec s 0); [lia|].
  destruct (Z.ltb_spec 1 s); destruct (Z.ltb_spec s 10); simpl;
    first [lia | apply Z.pow_pos_nonneg; lia].
Qed.

(** The value the code selects for [scalco] is the effective divisor. *)
Lemma selected_divisor (s : Z) :
  0 <= s ->
  (if (s <? 10) && negb (s =? 1) then 10 ^ s else s) = effective_divisor s.
Proof.
  intros Hs. unfold effective_divisor, spec_divisor.
  destruct (Z.eqb_spec s 0) as [E|E]; [rewrite E; reflexivity|].
  destruct (Z.ltb_spec s 10); destruct (Z.eqb_spec s 1);
    destruct (Z.ltb_spec 1 s); simpl; try reflexivity; lia.
Qed.

Lemma calcOffset_total (trace : Trace) :
  _calcOffset math_sqrt trace = Ok (offset_of math_sqrt trace).
Proof.
  unfold _calcOffset, offset_of, squared_distance, scalco_of.
  set (s := Z.abs _).
  assert (Hs : 0 <= s) by apply Z.abs_nonneg.
  rewrite (selected_divisor Hs).
  rewrite py_div_nonzero; [reflexivity|].
  apply inject_Z_nonzero. pose proof (effective_divisor_pos Hs). lia.
Qed.

(** C2 (amended).  For every trace header the computed offset is
    [(1/divisor) * sqrt((group_x - source_x)^2 + (group_y - source_y)^2)]
    where, with [scalco = abs(scale field)], the divisor is [1] for
    [scalco = 0], [10^scalco] for [1 < scalco < 10] and [scalco] itself
    otherwise: it is the divisor of the specification for every non-zero
    [scalco] ([1] gives the raw distance, [2] gives [100], [100] gives
    [100]), and the computation never raises. *)
Theorem calcOffset_divisor (trace : Trace) :
  _calcOffset math_sqrt trace =
    Ok (1 / inject_Z (effective_divisor (scalco_of trace)) *
        math_sqrt (squared_distance trace))%Q
  /\ (scalco_of trace <> 0 ->
      effective_divisor (scalco_of trace) = spec_divisor (scalco_of trace))
  /\ (scalco_of trace = 0 -> effective_divisor (scalco_of trace) = 1)
  /\ (1 < scalco_of trace < 10 ->
      effective_divisor (scalco_of trace) = 10 ^ scalco_of trace)
  /\ (scalco_of trace = 1 \/ 10 <= scalco_of trace ->
      effective_divisor (scalco_of trace) = scalco_of trace)
  /\ effective_divisor 1 = 1
  /\ effective_divisor 2 = 100
  /\ effective_divisor 100 = 100.
Proof.
  split; [apply calcOffset_total|].
  unfold effective_divisor, spec_divisor.
  repeat split; try reflexivity; intros H.
  - destruct (Z.eqb_spec (scalco_of trace) 0); [contradiction|reflexivity].
  - now rewrite H.
  - destruct (Z.eqb_spec (scalco_of trace) 0); [lia|].
    destruct (Z.ltb_spec 1 (scalco_of trace)); [|lia].
    destruct (Z.ltb_spec (scalco_of trace) 10); [reflexivity|lia].
  - destruct (Z.eqb_spec (scalco_of trace) 0); [lia|].
    destruct (Z.ltb_spec 1 (scalco_of trace));
      destruct (Z.ltb_spec (scalco_of trace) 10); simpl; lia.
Qed.

(** C5 (amended).  For every trace header whose coordinate-scale field
    is 0 the Offset Calculator raises nothing: it takes the field as the
    exponent 0, divides by [10^0 = 1] and returns the raw Euclidean
    distance. *)
Theorem calcOffset_zero_scale (trace : Trace) :
  scalar_to_be_applied_to_all_coordinates (header trace) = 0 ->
  exists offset,
    _calcOffset math_sqrt trace = Ok offset
    /\ (offset == math_sqrt (squared_distance trace))%Q.
Proof.
  intros H. eexists. split; [apply calcOffset_total|].
  unfold offset_of, scalco_of. rewrite H. simpl.
  unfold effective_divisor. simpl. field.
Qed.

(** ** Empty input *)

(** C8.  When the list of collections is empty the pipeline returns at
    once: it returns [None], raises nothing and emits no rendering event
    (no figure is created, nothing is drawn or saved). *)
Theorem plotBenchmark_empty (cfg : Config) :
  plotBenchmark math_sqrt cfg [] = ([], Ok RetNone).
Proof. reflexivity. Qed.

(** ** Loops over lists *)

Lemma mapM_ok (A B : Type) (f : A -> result B) (R : A -> B -> Prop) (l : list A) :
  Forall (fun a => exists b, f a = Ok b /\ R a b) l ->
  exists bs, mapM f l = Ok bs /\ Forall2 R l bs.
Proof.
  induction 1 as [|a l [b [Hb HR]] _ [bs [Hbs HF]]].
  - exists []. split; [reflexivity|constructor].
  - exists (b :: bs). simpl. rewrite Hb. simpl. rewrite Hbs. simpl.
    split; [reflexivity|now constructor].
Qed.

Lemma mapM_total (A B : Type) (f : A -> result B) (g : A -> B) (l : list A) :
  (forall a, In a l -> f a = Ok (g a)) -> mapM f l = Ok (map g l).
Proof.
  induction l as [|a l IH]; intros H; [reflexivity|].
  simpl. rewrite (H a (or_introl eq_refl)). simpl.
  rewrite IH; [reflexivity|]. intros b Hb. apply H. now right.
Qed.

(** A loop raises [e] when one element does and the others return or
    raise [e] too. *)
Lemma mapM_raises (A B : Type) (f : A -> result B) (e : exn) (l : list A) :
  Exists (fun a => f a = Raise e) l ->
  Forall (fun a => (exists b, f a = Ok b) \/ f a = Raise e) l ->
  mapM f l = Raise e.
Proof.
  induction l as [|a l IH]; intros HE HF; [inversion HE|].
  inversion HF as [|? ? Ha HF']; subst. simpl.
  destruct Ha as [[b Hb]|Ha]; [|now rewrite Ha].
  rewrite Hb. simpl.
  inversion HE as [? ? Hr|? ? HE']; subst; [congruence|].
  now rewrite (IH HE' HF').
Qed.

Lemma Forall2_map_right (A B : Type) (R : A -> B -> Prop) (f : A -> B) (l : list A) :
  (forall a, In a l -> R a (f a)) -> Forall2 R l (map f l).
Proof.
  induction l as [|a l IH]; intros H; constructor.
  - apply H. now left.
  - apply IH. intros b Hb. apply H. now right.
Qed.

Lemma Forall2_In_l (A B : Type) (R : A -> B -> Prop) (l : list A) (l' : list B) :
  Forall2 R l l' -> forall a, In a l -> exists b, In b l' /\ R a b.
Proof.
  induction 1 as [|x y l l' Hxy _ IH]; intros a []; subst.
  - exists y. split; [now left|assumption].
  - destruct (IH a H) as [b [Hb Hab]]. exists b. split; [now right|assumption].
Qed.

Lemma Forall2_In_r (A B : Type) (R : A -> B -> Prop) (l : list A) (l' : list B) :
  Forall2 R l l' -> forall b, In b l' -> exists a, In a l /\ R a b.
Proof.
  induction 1 as [|x y l l' Hxy _ IH]; intros b []; subst.
  - exists x. split; [now left|assumption].
  - destruct (IH b H) as [a [Ha Hab]]. exists a. split; [now right|assumption].
Qed.

(** ** Built-in [max] and [min] *)

Section Best.

Variables (A : Type) (better : A -> A -> bool) (le : A -> A -> Prop) (P : A -> Prop).

Hypothesis better_le : forall v m, P v -> P m -> better v m = true -> le v m.
Hypothesis worse_le : forall v m, P v -> P m -> better v m = false -> le m v.
Hypothesis le_refl : forall a, P a -> le a a.
Hypothesis le_trans : forall a b c, le a b -> le b c -> le a c.

Lemma fold_best (l : list A) :
  forall a, P a -> Forall P l ->
  let r := fold_left (fun m v => if better v m then v else m) l a in
  In r (a :: l) /\ P r /\ forall y, In y (a :: l) -> le r y.
Proof.
  induction l as [|v l IH]; intros a Pa Pl; simpl.
  - split; [now left|]. split; [assumption|].
    intros y [<-|[]]. now apply le_refl.
  - inversion Pl as [|? ? Pv Pl']; subst.
    set (a' := if better v a then v else a).
    assert (Pa' : P a') by (unfold a'; now destruct (better v a)).
    destruct (IH a' Pa' Pl') as [Hin [Pr Hle]].
    assert (Ha : le a' a /\ le a' v).
    { unfold a'. destruct (better v a) eqn:E.
      - split; [now apply better_le|now apply le_refl].
      - split; [now apply le_refl|now apply worse_le]. }
    split; [|split; [assumption|]].
    + destruct Hin as [Hin|Hin]; [|now right; right].
      rewrite <- Hin. unfold a'. destruct (better v a); [right; now left|now left].
    + intros y [<-|[<-|Hy]].
      * apply le_trans with a'; [apply Hle; now left|apply Ha].
      * apply le_trans with a'; [apply Hle; now left|apply Ha].
      * apply Hle. now right.
Qed.

Lemma py_best_spec (l : list A) :
  l <> [] -> Forall P l ->
  exists r, py_best better l = Ok r /\ In r l /\ P r /\ forall y, In y l -> le r y.
Proof.
  destruct l as [|a l]; [congruence|]. intros _ Pl.
  inversion Pl as [|? ? Pa Pl']; subst.
  eexists. split; [reflexivity|]. now apply fold_best.
Qed.

End Best.

Lemma py_min_nat_spec (l : list nat) :
  l <> [] ->
  exists r, py_min_nat l = Ok r /\ In r l /\ forall y, In y l -> (r <= y)%nat.
Proof.
  intros Hl.
  destruct (@py_best_spec nat Nat.ltb le (fun _ => True)) with (l := l)
    as [r [Hr [Hin [_ Hle]]]]; try assumption.
  - intros v m _ _ H. apply Nat.ltb_lt in H. lia.
  - intros v m _ _ H. apply Nat.ltb_ge in H. lia.
  - intros; lia.
  - intros; lia.
  - now apply Forall_forall.
  - exists r. auto.
Qed.

(** ** Trace Aligner *)

Lemma in_all_traces (streams : list SUFile) (tr : Trace) :
  In tr (all_traces streams) <-> exists st, In st streams /\ In tr (traces st).
Proof. unfold all_traces. apply in_flat_map. Qed.

Lemma truncated_firstn (n : nat) (tr : Trace) :
  (n <= List.length (data tr))%nat ->
  truncated_to n tr (set_data tr (firstn n (data tr))).
Proof.
  intros H. unfold truncated_to, set_data. simpl.
  repeat split.
  - rewrite length_firstn. lia.
  - exists (skipn n (data tr)). symmetry. apply firstn_skipn.
Qed.

Lemma trim_traces_aligned (n : nat) (streams : list SUFile) :
  (forall tr, In tr (all_traces streams) -> (n <= List.length (data tr))%nat) ->
  aligned n streams (trim_traces n streams).
Proof.
  unfold aligned, trim_traces. intros H.
  apply Forall2_map_right. intros st Hst.
  split; [reflexivity|]. simpl.
  apply Forall2_map_right. intros tr Htr.
  apply truncated_firstn. apply H. apply in_all_traces. eauto.
Qed.

Lemma smallest_npts_spec (streams : list SUFile) :
  streams <> [] -> no_empty_collection streams ->
  exists n, smallest_npts streams = Ok n /\ shortest_length streams n.
Proof.
  intros Hne Hcol. unfold smallest_npts.
  set (f := fun st : SUFile =>
              py_min_nat (map (fun tr => List.length (data tr)) (traces st))).
  destruct (@mapM_ok _ _ f
              (fun st m => (exists tr, In tr (traces st) /\ List.length (data tr) = m)
                           /\ forall tr, In tr (traces st) ->
                                         (m <= List.length (data tr))%nat)
              streams) as [ms [Hms HF]].
  { apply Forall_forall. intros st Hst.
    assert (Ht : traces st <> []) by
      (unfold no_empty_collection in Hcol; rewrite Forall_forall in Hcol; auto).
    destruct (@py_min_nat_spec (map (fun tr => List.length (data tr)) (traces st)))
      as [m [Hm [Hin Hle]]].
    { destruct (traces st); [congruence|discriminate]. }
    exists m. split; [exact Hm|]. split.
    - apply in_map_iff in Hin. destruct Hin as [tr [E Hin]]. eauto.
    - intros tr Hin'. apply Hle. apply in_map_iff. eauto. }
  rewrite Hms. simpl.
  destruct (@py_min_nat_spec ms) as [n [Hn [Hin Hle]]].
  { intros ->. inversion HF; subst. congruence. }
  exists n. split; [exact Hn|]. split.
  - destruct (Forall2_In_r HF _ Hin) as [st [Hst [[tr [Htr Hlen]] _]]].
    exists tr. split; [|exact Hlen]. apply in_all_traces. eauto.
  - intros tr Htr. apply in_all_traces in Htr. destruct Htr as [st [Hst Htr]].
    destruct (Forall2_In_l HF _ Hst) as [m [Hm [_ Hmin]]].
    specialize (Hle m Hm). specialize (Hmin tr Htr). lia.
Qed.

(** C7.  With trimming enabled the Trace Aligner returns the same
    collections with every trace cut to the sample count [n] of the
    globally shortest trace: every trace then has exactly [n] samples,
    which are a prefix of the original ones, and its header is unchanged.
    With trimming disabled the collections are returned untouched. *)
Theorem trim_stage_aligns (streams : list SUFile) :
  streams <> [] ->
  no_empty_collection streams ->
  exists n out,
    shortest_length streams n
    /\ trim_stage true streams = Ok out
    /\ aligned n streams out
    /\ trim_stage false streams = Ok streams.
Proof.
  intros Hne Hcol.
  destruct (smallest_npts_spec Hne Hcol) as [n [Hn Hs]].
  exists n, (trim_traces n streams). split; [exact Hs|].
  unfold trim_stage. rewrite Hn. simpl.
  split; [reflexivity|]. split; [|reflexivity].
  apply trim_traces_aligned. apply Hs.
Qed.

(** ** Drawing computations *)

Lemma mbind_lift_ok (A B : Type) (a : A) (k : A -> M B) :
  mbind (lift (Ok a)) k = k a.
Proof. unfold mbind, lift. simpl. now destruct (k a). Qed.

(** ** Offsets of a collection *)

Lemma py_minQ_spec (l : list Q) :
  l <> [] ->
  exists r, py_minQ l = Ok r /\ In r l /\ forall y, In y l -> (r <= y)%Q.
Proof.
  intros Hl.
  destruct (@py_best_spec Q Qltb Qle (fun _ => True)) with (l := l)
    as [r [Hr [Hin [_ Hle]]]]; try assumption.
  - intros v m _ _ H. apply Qltb_lt in H. now apply Qlt_le_weak.
  - intros v m _ _ H. now apply Qltb_ge in H.
  - intros; apply Qle_refl.
  - intros a b c; apply Qle_trans.
  - now apply Forall_forall.
  - exists r. auto.
Qed.

Lemma py_maxQ_spec (l : list Q) :
  l <> [] ->
  exists r, py_maxQ l = Ok r /\ In r l /\ forall y, In y l -> (y <= r)%Q.
Proof.
  intros Hl.
  destruct (@py_best_spec Q (fun v m => Qltb m v) (fun a b => (b <= a)%Q) (fun _ => True))
    with (l := l) as [r [Hr [Hin [_ Hle]]]]; try assumption.
  - intros v m _ _ H. apply Qltb_lt in H. now apply Qlt_le_weak.
  - intros v m _ _ H. now apply Qltb_ge in H.
  - intros; apply Qle_refl.
  - intros a b c H1 H2. now apply Qle_trans with b.
  - now apply Forall_forall.
  - exists r. auto.
Qed.

Lemma mapM_calcOffset (trs : list Trace) :
  mapM (_calcOffset math_sqrt) trs = Ok (map (offset_of math_sqrt) trs).
Proof. apply mapM_total. intros tr _. apply calcOffset_total. Qed.

Lemma stream_offset_spacing_empty (st : SUFile) :
  traces st = [] -> stream_offset_spacing math_sqrt st = Raise ValueError.
Proof.
  intros H. unfold stream_offset_spacing. rewrite mapM_calcOffset, H. reflexivity.
Qed.

Lemma stream_offset_spacing_ok (st : SUFile) :
  traces st <> [] ->
  exists hi lo,
    py_maxQ (map (offset_of math_sqrt) (traces st)) = Ok hi
    /\ py_minQ (map (offset_of math_sqrt) (traces st)) = Ok lo
    /\ stream_offset_spacing math_sqrt st =
         Ok ((hi - lo) / inject_Z (Z.of_nat (List.length (traces st))))%Q.
Proof.
  intros H. unfold stream_offset_spacing. rewrite mapM_calcOffset. simpl.
  assert (Hm : map (offset_of math_sqrt) (traces st) <> [])
    by (destruct (traces st); [congruence|discriminate]).
  destruct (py_maxQ_spec Hm) as [hi [Hhi _]].
  destruct (py_minQ_spec Hm) as [lo [Hlo _]].
  exists hi, lo. rewrite Hhi, Hlo. simpl.
  repeat split. apply py_div_nonzero. apply inject_Z_nonzero.
  destruct (traces st); [congruence|simpl; lia].
Qed.

(** ** Empty collections *)

Lemma empty_or_not (st : SUFile) : traces st = [] \/ traces st <> [].
Proof. destruct (traces st); [now left|right; discriminate]. Qed.

Lemma smallest_npts_empty_collection (streams : list SUFile) :
  Exists (fun st => traces st = []) streams ->
  smallest_npts streams = Raise ValueError.
Proof.
  intros H. unfold smallest_npts. rewrite mapM_raises with (e := ValueError).
  - reflexivity.
  - apply Exists_exists. apply Exists_exists in H.
    destruct H as [st [Hin E]]. exists st. split; [assumption|]. now rewrite E.
  - apply Forall_forall. intros st _.
    destruct (traces st) as [|tr trs]; [now right|left].
    simpl. eexists. reflexivity.
Qed.

Lemma get_min_offset_empty_collection (streams : list SUFile) :
  Exists (fun st => traces st = []) streams ->
  get_min_offset math_sqrt streams = Raise ValueError.
Proof.
  intros H. unfold get_min_offset. rewrite mapM_raises with (e := ValueError).
  - reflexivity.
  - apply Exists_exists. apply Exists_exists in H.
    destruct H as [st [Hin E]]. exists st. split; [assumption|].
    now apply stream_offset_spacing_empty.
  - apply Forall_forall. intros st _.
    destruct (empty_or_not st) as [E|E].
    + right. now apply stream_offset_spacing_empty.
    + left. destruct (stream_offset_spacing_ok st E) as [hi [lo [_ [_ Hs]]]]. eauto.
Qed.

(** C10.  When the list of collections is not empty but one of the
    collections has no trace, the pipeline raises an exception
    ([IndexError] from the sample-interval lookup of the first trace,
    or [ValueError] from the minimum of the trimming or from the extremes
    of the offsets) before any rendering event: no figure is created and
    nothing is drawn. *)
Theorem plotBenchmark_empty_collection (cfg : Config) (streams : list SUFile) :
  streams <> [] ->
  Exists (fun st => traces st = []) streams ->
  exists e,
    (e = IndexError \/ e = ValueError)
    /\ plotBenchmark math_sqrt cfg streams = ([], Raise e).
Proof.
  intros Hne Hex. destruct streams as [|st0 rest]; [congruence|].
  unfold plotBenchmark.
  destruct (traces st0) as [|tr0 trs0] eqn:E0.
  - exists IndexError. split; [now left|].
    unfold get_delta. simpl. rewrite E0. reflexivity.
  - exists ValueError. split; [now right|].
    unfold get_delta. simpl. rewrite E0. simpl. rewrite mbind_lift_ok.
    unfold trim_stage. destruct (trim_to_smallest_trace cfg).
    + now rewrite (smallest_npts_empty_collection Hex).
    + rewrite mbind_lift_ok. now rewrite (get_min_offset_empty_collection Hex).
Qed.

(** ** Layout Engine: axis bounds *)

(** C9 (amended).  The lower x bound is never below 0: it is 0 when no
    [xmin] is given or when the given one is negative, and the given one
    otherwise.  The upper x bound is the observed maximum, unless an
    explicit [xmax] is given that does not exceed it, which is then
    honored: x bounds can shrink.  So can y bounds: an explicit [ymax]
    that does not exceed the observed maximum and an explicit [ymin] that
    is not below the observed minimum are honored as well. *)
Theorem limit_time_axis_spec (xmin xmax : option Q) (b : Bounds) (observed : Q) :
  max_x b = Fin observed ->
  let lim := limit_time_axis xmin xmax b in
  (exists lo, fst lim = Fin lo /\ (0 <= lo)%Q)
  /\ (xmin = None -> fst lim = Fin 0)
  /\ (forall v, xmin = Some v -> (v < 0)%Q -> fst lim = Fin 0)
  /\ (forall v, xmin = Some v -> (0 <= v)%Q -> fst lim = Fin v)
  /\ (xmax = None -> snd lim = Fin observed)
  /\ (forall v, xmax = Some v -> (v <= observed)%Q -> snd lim = Fin v)
  /\ (forall v, xmax = Some v -> (observed < v)%Q -> snd lim = Fin observed)
  /\ (forall ymin v hi,
         max_y b = Fin hi -> (v <= hi)%Q ->
         snd (limit_offset_axis ymin (Some v) b) = Fin v)
  /\ (forall ymax v lo,
         min_y b = Fin lo -> (lo <= v)%Q ->
         fst (limit_offset_axis (Some v) ymax b) = Fin v).
Proof.
  intros Hx. unfold limit_time_axis. rewrite Hx. cbn [fst snd].
  repeat split.
  - destruct xmin as [v|]; [|exists 0%Q; split; [reflexivity|apply Qle_refl]].
    destruct (Qltb v 0) eqn:E.
    + exists 0%Q. split; [reflexivity|apply Qle_refl].
    + exists v. split; [reflexivity|now apply Qltb_ge].
  - now intros ->.
  - intros v -> Hv. apply Qltb_lt in Hv. now rewrite Hv.
  - intros v -> Hv. apply Qltb_ge in Hv. now rewrite Hv.
  - now intros ->.
  - intros v -> Hv. unfold num_gtb. simpl. apply Qltb_ge in Hv. now rewrite Hv.
  - intros v -> Hv. unfold num_gtb. simpl. apply Qltb_lt in Hv. now rewrite Hv.
  - intros ymin v hi Hhi Hv. unfold limit_offset_axis. cbn [snd].
    rewrite Hhi. unfold num_gtb. cbn [num_ltb]. apply Qltb_ge in Hv. now rewrite Hv.
  - intros ymax v lo Hlo Hv. unfold limit_offset_axis. cbn [fst].
    rewrite Hlo. cbn [num_ltb]. apply Qltb_ge in Hv. now rewrite Hv.
Qed.

(** C3 (amended).  For an observed y range [[lo, hi]] with span
    [hi - lo]: when no explicit bound is given the final y bounds are
    [[lo - span/50, hi + span/50]]; an explicit [ymax] is honored when it
    does not exceed the observed maximum and is replaced by the padded
    [hi + span/50] when it does; an explicit [ymin] is honored when it is
    not below the observed minimum and is replaced by the padded
    [lo - span/50] when it is.  Explicit bounds can therefore only shrink
    the padded automatic range, never expand it. *)
Theorem limit_offset_axis_spec (ymin ymax : option Q) (b : Bounds) (lo hi : Q) :
  min_y b = Fin lo ->
  max_y b = Fin hi ->
  (lo <= hi)%Q ->
  let lim := limit_offset_axis ymin ymax b in
  let pad := ((hi - lo) / 50)%Q in
  (ymin = None -> fst lim = Fin (lo - pad))
  /\ (ymax = None -> snd lim = Fin (hi + pad))
  /\ (forall v, ymax = Some v -> (v <= hi)%Q -> snd lim = Fin v)
  /\ (forall v, ymax = Some v -> (hi < v)%Q -> snd lim = Fin (hi + pad))
  /\ (forall v, ymin = Some v -> (lo <= v)%Q -> fst lim = Fin v)
  /\ (forall v, ymin = Some v -> (v < lo)%Q -> fst lim = Fin (lo - pad))
  /\ (exists l h, fst lim = Fin l /\ snd lim = Fin h
                  /\ (lo - pad <= l)%Q /\ (h <= hi + pad)%Q).
Proof.
  intros Hlo Hhi Hle. unfold limit_offset_axis. rewrite Hlo, Hhi. simpl.
  assert (Hpad : (0 <= (hi - lo) / 50)%Q).
  { apply Qle_shift_div_l; [reflexivity|]. lra. }
  repeat split.
  - now intros ->.
  - now intros ->.
  - intros v -> Hv. unfold num_gtb. simpl. apply Qltb_ge in Hv. now rewrite Hv.
  - intros v -> Hv. unfold num_gtb. simpl. apply Qltb_lt in Hv. now rewrite Hv.
  - intros v -> Hv. apply Qltb_ge in Hv. now rewrite Hv.
  - intros v -> Hv. apply Qltb_lt in Hv. now rewrite Hv.
  - destruct ymin as [v|], ymax as [w|]; unfold num_gtb; simpl;
      try destruct (Qltb v lo) eqn:Ev; try destruct (Qltb hi w) eqn:Ew;
      do 2 eexists; (split; [reflexivity|]); (split; [reflexivity|]);
      try apply Qltb_ge in Ev; try apply Qltb_ge in Ew; split; lra.
Qed.

(** ** Order of numpy floats *)

Ltac qltb :=
  repeat match goal with
         | H : Qltb _ _ = true |- _ => apply Qltb_lt in H
         | H : Qltb _ _ = false |- _ => apply Qltb_ge in H
         | |- Qltb _ _ = true => apply Qltb_lt
         | |- Qltb _ _ = false => apply Qltb_ge
         end.

Lemma num_ltb_asym (a b : num) : num_ltb a b = true -> num_ltb b a = false.
Proof.
  destruct a, b; simpl; try reflexivity; try discriminate.
  intros H. qltb. lra.
Qed.

Lemma num_ltb_irrefl (a : num) : num_ltb a a = false.
Proof. destruct a; simpl; try reflexivity. qltb. lra. Qed.

Lemma num_le_trans (a b c : num) : num_le a b -> num_le b c -> num_le a c.
Proof.
  unfold num_le. intros [Ha [Hb Hab]] [_ [Hc Hbc]]. repeat split; try assumption.
  destruct a, b, c; simpl in *; try reflexivity; try discriminate.
  qltb. lra.
Qed.

Lemma num_le_lt_trans (a b c : num) :
  num_le a b -> num_ltb b c = true -> num_ltb a c = true.
Proof.
  unfold num_le. intros [Ha [Hb Hab]] Hbc.
  destruct a, b, c; simpl in *; try reflexivity; try discriminate.
  qltb. lra.
Qed.

Lemma num_lt_le_trans (a b c : num) :
  num_ltb a b = true -> num_le b c -> num_ltb a c = true.
Proof.
  unfold num_le. intros Hab [Hb [Hc Hbc]].
  destruct a, b, c; simpl in *; try reflexivity; try discriminate.
  qltb. lra.
Qed.

Lemma py_min_spec (y : list num) :
  y <> [] -> no_nan y ->
  exists lo, py_min y = Ok lo /\ In lo y /\ forall v, In v y -> num_le lo v.
Proof.
  intros Hy Hn.
  destruct (@py_best_spec num num_ltb num_le (fun v => is_nan v = false))
    with (l := y) as [r [Hr [Hin [_ Hle]]]]; try assumption.
  - intros v m Hv Hm H. unfold num_le. auto using num_ltb_asym.
  - intros v m Hv Hm H. unfold num_le. auto.
  - intros a Ha. unfold num_le. auto using num_ltb_irrefl.
  - apply num_le_trans.
  - exists r. auto.
Qed.

Lemma py_max_spec (y : list num) :
  y <> [] -> no_nan y ->
  exists hi, py_max y = Ok hi /\ In hi y /\ forall v, In v y -> num_le v hi.
Proof.
  intros Hy Hn.
  destruct (@py_best_spec num num_gtb (fun a b => num_le b a) (fun v => is_nan v = false))
    with (l := y) as [r [Hr [Hin [_ Hle]]]]; try assumption.
  - intros v m Hv Hm H. unfold num_le, num_gtb in *. auto using num_ltb_asym.
  - intros v m Hv Hm H. unfold num_le, num_gtb in *. auto.
  - intros a Ha. unfold num_le. auto using num_ltb_irrefl.
  - intros a b c H1 H2. now apply num_le_trans with b.
  - exists r. auto.
Qed.

Lemma py_best_nonempty (A : Type) (better : A -> A -> bool) (l : list A) :
  l <> [] -> exists r, py_best better l = Ok r.
Proof. destruct l; [congruence|]. intros _. eexists. reflexivity. Qed.

(** On samples without [nan] the test on the extremes is the test on
    the samples. *)
Lemma clipped_by_code_spec (ymin ymax : option Q) (y : list num) :
  y <> [] -> no_nan y -> clipped_by_code ymin ymax y = partly_outside ymin ymax y.
Proof.
  intros Hy Hn. unfold clipped_by_code, partly_outside, out_of_image.
  destruct (py_min_spec Hy Hn) as [lo [-> [Hlo Hmin]]].
  destruct (py_max_spec Hy Hn) as [hi [-> [Hhi Hmax]]].
  f_equal.
  - destruct ymin as [v|]; [|reflexivity].
    apply eq_true_iff_eq. rewrite existsb_exists. split.
    + intros H. eauto.
    + intros [s [Hs H]]. apply num_le_lt_trans with s; auto.
  - destruct ymax as [v|]; [|reflexivity].
    apply eq_true_iff_eq. rewrite existsb_exists. unfold num_gtb. split.
    + intros H. eauto.
    + intros [s [Hs H]]. apply num_lt_le_trans with s; auto.
Qed.

(** ** Layout Engine: the plot loop *)

Lemma mbind_run (A B : Type) (c : M A) (k : A -> M B) e1 a e2 r :
  c = (e1, Ok a) -> k a = (e2, r) -> mbind c k = ((e1 ++ e2)%list, r).
Proof. intros -> H. unfold mbind. simpl. now rewrite H. Qed.

Lemma drawn_app (e1 e2 : list event) : drawn (e1 ++ e2) = (drawn e1 ++ drawn e2)%list.
Proof. apply flat_map_app. Qed.

Lemma shift_nonempty (offset : Q) (d : list num) : d <> [] -> shift offset d <> [].
Proof. destruct d; [congruence|discriminate]. Qed.

Lemma trace_x_nonempty (delta : Z) (tr : Trace) : data tr <> [] -> trace_x delta tr <> [].
Proof. unfold trace_x. destruct (data tr); [congruence|discriminate]. Qed.

Lemma shift_no_nan (offset : Q) (d : list num) : no_nan d -> no_nan (shift offset d).
Proof.
  unfold no_nan, shift. intros H. apply Forall_map.
  eapply Forall_impl; [|exact H]. now intros [].
Qed.

Section PlotLoop.

Variables (clip : bool) (ymin ymax : option Q) (delta : Z).
Variables (colors labels : list string).

Lemma plot_trace_run (color lab : string) (_i : nat) (s : Bounds * bool) (tr : Trace) :
  data tr <> [] ->
  index labels _i = Ok lab ->
  exists evs flag,
    plot_trace math_sqrt clip ymin ymax delta color labels _i s tr =
      (evs, Ok (observe math_sqrt delta (fst s) tr, flag))
    /\ drawn evs =
         map (trace_curve math_sqrt delta color)
             (filter (kept_by_loop math_sqrt clip ymin ymax) [tr]).
Proof.
  intros Hd Hlab. unfold plot_trace, observe.
  rewrite calcOffset_total, mbind_lift_ok.
  change (shift (offset_of math_sqrt tr) (data tr)) with (shifted math_sqrt tr).
  destruct (@py_best_nonempty _ num_gtb (shifted math_sqrt tr)) as [hi Hhi];
    [now apply shift_nonempty|].
  destruct (@py_best_nonempty _ num_ltb (shifted math_sqrt tr)) as [lo Hlo];
    [now apply shift_nonempty|].
  destruct (@py_best_nonempty _ num_gtb (trace_x delta tr)) as [xhi Hxhi];
    [now apply trace_x_nonempty|].
  fold py_max in Hhi, Hxhi. fold py_min in Hlo.
  rewrite Hhi, Hlo, Hxhi. rewrite !mbind_lift_ok.
  assert (Hk : kept_by_loop math_sqrt clip ymin ymax tr =
               negb (clip && out_of_image ymin ymax lo hi)).
  { unfold kept_by_loop, clipped_by_code. now rewrite Hhi, Hlo. }
  cbn [filter]. rewrite Hk.
  destruct (clip && out_of_image ymin ymax lo hi).
  - exists [], (snd s). split; reflexivity.
  - destruct (snd s).
    + rewrite Hlab, mbind_lift_ok. eexists. exists false. split; reflexivity.
    + eexists. exists false. split; reflexivity.
Qed.

Lemma plot_traces_run (color lab : string) (_i : nat) (trs : list Trace) :
  Forall (fun tr => data tr <> []) trs ->
  index labels _i = Ok lab ->
  forall s, exists evs flag,
    foldM (plot_trace math_sqrt clip ymin ymax delta color labels _i) s trs =
      (evs, Ok (fold_left (observe math_sqrt delta) trs (fst s), flag))
    /\ drawn evs =
         map (trace_curve math_sqrt delta color)
             (filter (kept_by_loop math_sqrt clip ymin ymax) trs).
Proof.
  intros Hd Hlab. induction Hd as [|tr trs Htr _ IH]; intros s.
  - exists [], (snd s). simpl. unfold mret. now destruct s.
  - destruct (@plot_trace_run color lab _i s tr Htr Hlab) as [e1 [f1 [H1 D1]]].
    destruct (IH (observe math_sqrt delta (fst s) tr, f1)) as [e2 [f2 [H2 D2]]].
    exists (e1 ++ e2)%list, f2. split.
    + cbn [foldM]. eapply mbind_run; [exact H1|exact H2].
    + rewrite drawn_app, D1, D2. cbn [filter].
      now destruct (kept_by_loop math_sqrt clip ymin ymax tr).
Qed.

Lemma plot_stream_run (b : Bounds) (_i : nat) (st : SUFile) :
  (_i < List.length colors)%nat ->
  (_i < List.length labels)%nat ->
  Forall (fun tr => data tr <> []) (traces st) ->
  exists evs,
    plot_stream math_sqrt clip ymin ymax delta colors labels b (_i, st) =
      (evs, Ok (fold_left (observe math_sqrt delta) (traces st) b))
    /\ drawn evs =
         stream_curves math_sqrt (kept_by_loop math_sqrt clip ymin ymax) delta colors
                       (_i, st).
Proof.
  intros Hc Hl Hd. unfold plot_stream, stream_curves, index. cbn [fst snd].
  destruct (nth_error colors _i) as [color|] eqn:Ec;
    [|apply nth_error_None in Ec; lia].
  assert (Hlab : exists lab, index labels _i = Ok lab).
  { unfold index. destruct (nth_error labels _i) eqn:El; [eauto|].
    apply nth_error_None in El. lia. }
  destruct Hlab as [lab Hlab].
  rewrite mbind_lift_ok.
  destruct (@plot_traces_run color lab _i (traces st) Hd Hlab (b, true)) as [evs [flag [H D]]].
  exists evs. split; [|exact D].
  replace evs with (evs ++ [])%list by apply app_nil_r.
  eapply mbind_run; [exact H|reflexivity].
Qed.

Lemma plot_streams_run (streams : list SUFile) :
  no_empty_trace streams ->
  forall k b,
    (k + List.length streams <= List.length colors)%nat ->
    (k + List.length streams <= List.length labels)%nat ->
    exists evs,
      foldM (plot_stream math_sqrt clip ymin ymax delta colors labels) b
            (combine (seq k (List.length streams)) streams) =
        (evs, Ok (fold_left (observe math_sqrt delta) (all_traces streams) b))
      /\ drawn evs =
           flat_map (stream_curves math_sqrt (kept_by_loop math_sqrt clip ymin ymax) delta colors)
                    (combine (seq k (List.length streams)) streams).
Proof.
  unfold no_empty_trace, all_traces.
  induction streams as [|st streams IH]; intros Hd k b Hc Hl.
  - exists []. split; reflexivity.
  - simpl in Hd. apply Forall_app in Hd. destruct Hd as [Hst Hrest].
    simpl in Hc, Hl.
    destruct (@plot_stream_run b k st) as [e1 [H1 D1]]; [lia|lia|assumption|].
    destruct (IH Hrest (S k) (fold_left (observe math_sqrt delta) (traces st) b))
      as [e2 [H2 D2]]; [lia|lia|].
    exists (e1 ++ e2)%list. split.
    + cbn [List.length seq combine foldM flat_map]. rewrite fold_left_app.
      eapply mbind_run; [exact H1|exact H2].
    + rewrite drawn_app, D1, D2. reflexivity.
Qed.

End PlotLoop.

(** ** Layout Engine: the observed maximum of x is finite *)

Lemma py_best_in (A : Type) (better : A -> A -> bool) (l : list A) :
  l <> [] -> exists r, py_best better l = Ok r /\ In r l.
Proof.
  intros Hl.
  destruct (@py_best_spec A better (fun _ _ => True) (fun _ => True)) with (l := l)
    as [r [Hr [Hin _]]]; auto.
  - now apply Forall_forall.
  - eauto.
Qed.

Lemma observe_max_x (delta : Z) (b : Bounds) (tr : Trace) :
  data tr <> [] ->
  max_x b = NInf \/ (exists q, max_x b = Fin q) ->
  exists q, max_x (observe math_sqrt delta b tr) = Fin q.
Proof.
  intros Hd Hb. unfold observe.
  destruct (@py_best_nonempty _ num_gtb (shifted math_sqrt tr)) as [hi Hhi];
    [now apply shift_nonempty|].
  destruct (@py_best_nonempty _ num_ltb (shifted math_sqrt tr)) as [lo Hlo];
    [now apply shift_nonempty|].
  destruct (@py_best_in _ num_gtb (trace_x delta tr)) as [xhi [Hxhi Hin]];
    [now apply trace_x_nonempty|].
  fold py_max in Hhi, Hxhi. fold py_min in Hlo. rewrite Hhi, Hlo, Hxhi.
  apply in_map_iff in Hin. destruct Hin as [i [<- _]]. simpl.
  destruct Hb as [->|[q ->]].
  - unfold num_gtb. simpl. eauto.
  - destruct (num_gtb _ _); eauto.
Qed.

Lemma tracked_max_x_finite (delta : Z) (streams : list SUFile) :
  all_traces streams <> [] -> no_empty_trace streams ->
  exists q, max_x (tracked_bounds math_sqrt delta streams) = Fin q.
Proof.
  unfold tracked_bounds, no_empty_trace.
  assert (H : forall trs b,
             Forall (fun tr => data tr <> []) trs ->
             (exists q, max_x b = Fin q) ->
             exists q, max_x (fold_left (observe math_sqrt delta) trs b) = Fin q).
  { induction trs as [|tr trs IH]; intros b Hd Hb; [exact Hb|].
    inversion Hd; subst. simpl. apply IH; [assumption|].
    apply observe_max_x; auto. }
  destruct (all_traces streams) as [|tr trs]; [congruence|].
  intros _ Hd. inversion Hd; subst. simpl. apply H; [assumption|].
  apply observe_max_x; [assumption|now left].
Qed.

Lemma curves_of_ext (keep keep' : Trace -> bool) (delta : Z) (colors : list string)
    (streams : list SUFile) :
  (forall tr, In tr (all_traces streams) -> keep tr = keep' tr) ->
  curves_of math_sqrt keep delta colors streams =
  curves_of math_sqrt keep' delta colors streams.
Proof.
  unfold curves_of. generalize 0%nat.
  induction streams as [|st streams IH]; intros k H; [reflexivity|].
  cbn [List.length seq combine flat_map]. f_equal.
  - unfold stream_curves. cbn [fst snd].
    destruct (nth_error colors k); [|reflexivity]. f_equal.
    apply filter_ext_in. intros tr Htr. apply H. apply in_all_traces.
    exists st. split; [now left|assumption].
  - apply IH. intros tr Htr. apply H. apply in_all_traces.
    apply in_all_traces in Htr. destruct Htr as [st' [Hs Ht]].
    exists st'. split; [now right|assumption].
Qed.

(** ** Amplitude Normalizer: what the loops compute *)

Lemma mapAccumM_inv (S A B : Type) (f : S -> A -> result (B * S))
    (I : S -> Prop) (R : A -> B -> Prop) (l : list A) :
  (forall s a, I s -> In a l -> exists b s', f s a = Ok (b, s') /\ I s' /\ R a b) ->
  forall s, I s ->
  exists bs s', mapAccumM f s l = Ok (bs, s') /\ I s' /\ Forall2 R l bs.
Proof.
  induction l as [|a l IH]; intros Hf s Hs.
  - exists [], s. repeat split; [assumption|constructor].
  - destruct (Hf s a Hs (or_introl eq_refl)) as [b [s1 [Hb [Hs1 HR]]]].
    destruct (IH (fun s a Hs Ha => Hf s a Hs (or_intror Ha)) s1 Hs1)
      as [bs [s2 [Hbs [Hs2 HF]]]].
    exists (b :: bs), s2. simpl. rewrite Hb. simpl. rewrite Hbs. simpl.
    repeat split; [assumption|now constructor].
Qed.

Lemma num_abs_idem (r : num) : num_abs (num_abs r) = num_abs r.
Proof.
  destruct r as [[n d]| | |]; simpl; try reflexivity.
  now rewrite Z.abs_idemp.
Qed.

Lemma np_max_nonempty (d : list num) : d <> [] -> exists r, np_max d = Ok r.
Proof. destruct d; [congruence|]. intros _. eexists. reflexivity. Qed.

Lemma np_min_nonempty (d : list num) : d <> [] -> exists r, np_min d = Ok r.
Proof. destruct d; [congruence|]. intros _. eexists. reflexivity. Qed.

Lemma stream_max_ok (st : SUFile) :
  traces st <> [] -> Forall (fun tr => data tr <> []) (traces st) ->
  exists r, stream_max st = Ok r.
Proof.
  intros Ht Hd. unfold stream_max.
  destruct (@mapM_ok _ _ (fun _i => np_max (data _i)) (fun _ _ => True) (traces st))
    as [l [Hl HF]].
  { eapply Forall_impl; [|exact Hd]. intros tr H.
    destruct (np_max_nonempty H) as [r Hr]. eauto. }
  rewrite Hl. simpl. apply py_best_nonempty.
  intros ->. inversion HF. congruence.
Qed.

Lemma stream_min_ok (st : SUFile) :
  traces st <> [] -> Forall (fun tr => data tr <> []) (traces st) ->
  exists r, stream_min st = Ok r.
Proof.
  intros Ht Hd. unfold stream_min.
  destruct (@mapM_ok _ _ (fun _i => np_min (data _i)) (fun _ _ => True) (traces st))
    as [l [Hl HF]].
  { eapply Forall_impl; [|exact Hd]. intros tr H.
    destruct (np_min_nonempty H) as [r Hr]. eauto. }
  rewrite Hl. simpl. apply py_best_nonempty.
  intros ->. inversion HF. congruence.
Qed.

Lemma no_empty_trace_in (streams : list SUFile) (st : SUFile) :
  no_empty_trace streams -> In st streams ->
  Forall (fun tr => data tr <> []) (traces st).
Proof.
  unfold no_empty_trace. rewrite !Forall_forall. intros H Hst tr Htr.
  apply H. apply in_all_traces. eauto.
Qed.

Lemma global_data_range_ok (streams : list SUFile) :
  streams <> [] -> no_empty_collection streams -> no_empty_trace streams ->
  exists r, global_data_range streams = Ok r.
Proof.
  intros Hne Hcol Hd. unfold global_data_range.
  destruct (@mapM_ok _ _
              (fun st => (hi <- stream_max st ;; lo <- stream_min st ;; Ok (hi, lo))%result)
              (fun _ _ => True) streams) as [mm [Hmm HF]].
  { apply Forall_forall. intros st Hst.
    assert (Ht : traces st <> []).
    { unfold no_empty_collection in Hcol. rewrite Forall_forall in Hcol. auto. }
    pose proof (@no_empty_trace_in streams st Hd Hst) as Hs.
    destruct (stream_max_ok st Ht Hs) as [hi ->]. destruct (stream_min_ok st Ht Hs) as [lo ->].
    simpl. eauto. }
  rewrite Hmm. simpl.
  assert (Hm : mm <> []) by (intros ->; inversion HF; congruence).
  destruct (@py_best_nonempty _ num_ltb (map snd mm)) as [lo Hlo].
  { destruct mm; [congruence|discriminate]. }
  destruct (@py_best_nonempty _ num_gtb (map fst mm)) as [hi Hhi].
  { destruct mm; [congruence|discriminate]. }
  fold py_min in Hlo. fold py_max in Hhi. rewrite Hlo, Hhi. simpl. eauto.
Qed.

Section NormalizeLoops.

Variables (policy : normalize_policy) (min_offset scale : Q) (streams : list SUFile).

Lemma normalize_trace_step (st : SUFile) (s : option num) (tr : Trace) :
  data tr <> [] ->
  shared_range_held policy streams st s ->
  exists tr' s',
    normalize_trace policy min_offset scale s tr = Ok (tr', s')
    /\ shared_range_held policy streams st s'
    /\ rescaled_by policy min_offset scale streams st tr tr'.
Proof.
  intros Hd Hs. unfold normalize_trace, rescaled_by, shared_range_held in *.
  destruct policy.
  - destruct Hs as [r0 [Hr [->| ->]]]; [discriminate| |]; simpl;
      do 2 eexists; (split; [reflexivity|]); rewrite ?num_abs_idem;
      (split; [intros _; exists r0; split; [exact Hr|now right]|]);
      exists r0; (split; [apply (Hr tr)|reflexivity]).
  - destruct Hs as [r0 [Hr [->| ->]]]; [discriminate| |]; simpl;
      do 2 eexists; (split; [reflexivity|]); rewrite ?num_abs_idem;
      (split; [intros _; exists r0; split; [exact Hr|now right]|]);
      exists r0; (split; [apply (Hr tr)|reflexivity]).
  - destruct (np_max_nonempty Hd) as [hi Hhi]. destruct (np_min_nonempty Hd) as [lo Hlo].
    rewrite Hhi, Hlo. simpl. do 2 eexists. split; [reflexivity|].
    split; [congruence|]. exists (num_sub hi lo). split; [|reflexivity].
    unfold own_range. now rewrite Hhi, Hlo.
Qed.

Lemma normalize_stream_step (s : option num) (st : SUFile) :
  traces st <> [] ->
  Forall (fun tr => data tr <> []) (traces st) ->
  global_range_held policy streams s ->
  exists st' s',
    normalize_stream policy min_offset scale s st = Ok (st', s')
    /\ global_range_held policy streams s'
    /\ file st' = file st
    /\ Forall2 (rescaled_by policy min_offset scale streams st) (traces st) (traces st').
Proof.
  intros Ht Hd Hs. unfold normalize_stream.
  assert (Hstart : exists s0,
             match policy with
             | NormalizeStream =>
                 (hi <- stream_max st ;; lo <- stream_min st ;; Ok (Some (num_sub hi lo)))%result
             | _ => Ok s
             end = Ok s0
             /\ shared_range_held policy streams st s0).
  { unfold shared_range_held, global_range_held in *. destruct policy.
    - exists s. split; [reflexivity|]. intros _.
      destruct (Hs eq_refl) as [g [Hg Hh]]. exists g. auto.
    - destruct (stream_max_ok st Ht Hd) as [hi Hhi].
      destruct (stream_min_ok st Ht Hd) as [lo Hlo].
      rewrite Hhi, Hlo. simpl. eexists. split; [reflexivity|]. intros _.
      exists (num_sub hi lo). split; [|now left].
      intros tr. simpl. unfold stream_range. now rewrite Hhi, Hlo.
    - exists s. split; [reflexivity|]. congruence. }
  destruct Hstart as [s0 [-> Hs0]]. simpl.
  destruct (@mapAccumM_inv _ _ _ (normalize_trace policy min_offset scale)
              (shared_range_held policy streams st)
              (rescaled_by policy min_offset scale streams st) (traces st))
    with (s := s0) as [outs [s' [Hrun [Hs' HF]]]]; [|exact Hs0|].
  { intros s1 tr Hs1 Htr. apply normalize_trace_step; [|exact Hs1].
    rewrite Forall_forall in Hd. now apply Hd. }
  rewrite Hrun. simpl. do 2 eexists. split; [reflexivity|].
  split; [|split; [reflexivity|exact HF]].
  unfold global_range_held, shared_range_held in *. intros E.
  destruct Hs' as [g [Hg Hh]]; [congruence|].
  exists g. split; [|exact Hh].
  specialize (Hg {| header := make_header 0 0 0; data := [] |}).
  now rewrite E in Hg.
Qed.

Lemma normalize_stage_spec :
  streams <> [] -> no_empty_collection streams -> no_empty_trace streams ->
  exists out,
    normalize_stage policy min_offset scale streams = Ok out
    /\ normalized_by policy min_offset scale streams out.
Proof.
  intros Hne Hcol Hd. unfold normalize_stage.
  assert (Hstart : exists s0,
             match policy with
             | NormalizeStream => Ok None
             | _ => (r <- global_data_range streams ;; Ok (Some r))%result
             end = Ok s0
             /\ global_range_held policy streams s0).
  { unfold global_range_held.
    destruct (global_data_range_ok Hne Hcol Hd) as [g Hg].
    destruct policy; rewrite ?Hg; simpl; eexists; (split; [reflexivity|]);
      try discriminate.
    intros _. exists g. split; [reflexivity|now left]. }
  destruct Hstart as [s0 [-> Hs0]]. simpl.
  destruct (@mapAccumM_inv _ _ _ (normalize_stream policy min_offset scale)
              (global_range_held policy streams)
              (fun st st' =>
                 file st' = file st
                 /\ Forall2 (rescaled_by policy min_offset scale streams st)
                            (traces st) (traces st'))
              streams) with (s := s0) as [out [s' [Hrun [_ HF]]]]; [|exact Hs0|].
  { intros s1 st Hs1 Hst.
    destruct (@normalize_stream_step s1 st) as [st' [s2 [H1 [H2 [H3 H4]]]]].
    - unfold no_empty_collection in Hcol. rewrite Forall_forall in Hcol. auto.
    - now apply (@no_empty_trace_in streams st).
    - exact Hs1.
    - exists st', s2. auto. }
  rewrite Hrun. simpl. eauto.
Qed.

End NormalizeLoops.

(** ** Amplitude Normalizer: offsets spacing and ranges *)

Lemma stream_offset_spacing_spec (st : SUFile) :
  traces st <> [] ->
  exists q, stream_offset_spacing math_sqrt st = Ok q /\ offset_spacing math_sqrt st q.
Proof.
  intros H. unfold stream_offset_spacing, offset_spacing.
  rewrite mapM_calcOffset. simpl.
  assert (Hm : map (offset_of math_sqrt) (traces st) <> [])
    by (destruct (traces st); [congruence|discriminate]).
  destruct (py_maxQ_spec Hm) as [hi [Hhi [Hin Hle]]].
  destruct (py_minQ_spec Hm) as [lo [Hlo [Hin' Hle']]].
  rewrite Hhi, Hlo. simpl. rewrite py_div_nonzero.
  - eexists. split; [reflexivity|]. exists hi, lo. unfold is_greatest, is_least. auto.
  - apply inject_Z_nonzero. destruct (traces st); [congruence|simpl; lia].
Qed.

Lemma get_min_offset_spec (streams : list SUFile) :
  streams <> [] -> no_empty_collection streams ->
  exists m, get_min_offset math_sqrt streams = Ok m /\ min_offset_spacing math_sqrt streams m.
Proof.
  intros Hne Hcol. unfold get_min_offset, min_offset_spacing.
  destruct (@mapM_ok _ _ (stream_offset_spacing math_sqrt) (offset_spacing math_sqrt) streams)
    as [qs [Hqs HF]].
  { eapply Forall_impl; [|exact Hcol]. intros st. apply stream_offset_spacing_spec. }
  rewrite Hqs. simpl.
  destruct (@py_minQ_spec qs) as [m [Hm [Hin Hle]]].
  { intros ->. inversion HF. congruence. }
  exists m. split; [exact Hm|]. exists qs. unfold is_least. auto.
Qed.

Lemma np_maximum_no_nan (a v : num) :
  is_nan a = false -> is_nan v = false ->
  np_maximum a v = (if num_gtb v a then v else a).
Proof. intros Ha Hv. unfold np_maximum. now rewrite Ha, Hv. Qed.

Lemma np_minimum_no_nan (a v : num) :
  is_nan a = false -> is_nan v = false ->
  np_minimum a v = (if num_ltb v a then v else a).
Proof. intros Ha Hv. unfold np_minimum. now rewrite Ha, Hv. Qed.

(** Without [nan] the reduction of numpy is the built-in one. *)
Lemma np_max_py_max (d : list num) : no_nan d -> np_max d = py_max d.
Proof.
  destruct d as [|a d]; [reflexivity|]. intros H.
  inversion H as [|? ? Ha Hd]; subst. unfold np_max, py_max, py_best. f_equal.
  clear H. revert a Ha. induction Hd as [|v d Hv _ IH]; intros a Ha; [reflexivity|].
  simpl. rewrite np_maximum_no_nan by assumption.
  apply IH. now destruct (num_gtb v a).
Qed.

Lemma np_min_py_min (d : list num) : no_nan d -> np_min d = py_min d.
Proof.
  destruct d as [|a d]; [reflexivity|]. intros H.
  inversion H as [|? ? Ha Hd]; subst. unfold np_min, py_min, py_best. f_equal.
  clear H. revert a Ha. induction Hd as [|v d Hv _ IH]; intros a Ha; [reflexivity|].
  simpl. rewrite np_minimum_no_nan by assumption.
  apply IH. now destruct (num_ltb v a).
Qed.

Lemma finite_no_nan (samples : list Q) : no_nan (map Fin samples).
Proof. unfold no_nan. apply Forall_map. now apply Forall_forall. Qed.

Lemma finite_extremes (samples : list Q) :
  samples <> [] ->
  exists hi lo,
    np_max (map Fin samples) = Ok (Fin hi)
    /\ np_min (map Fin samples) = Ok (Fin lo)
    /\ is_greatest samples hi
    /\ is_least samples lo.
Proof.
  intros Hs.
  assert (Hd : map Fin samples <> []) by (destruct samples; [congruence|discriminate]).
  pose proof (finite_no_nan samples) as Hn.
  rewrite (np_max_py_max Hn), (np_min_py_min Hn).
  destruct (py_max_spec Hd Hn) as [hi [Hhi [Hin Hle]]].
  destruct (py_min_spec Hd Hn) as [lo [Hlo [Hin' Hle']]].
  apply in_map_iff in Hin. destruct Hin as [M [<- HM]].
  apply in_map_iff in Hin'. destruct Hin' as [mn [<- Hmn]].
  exists M, mn. repeat split; try assumption.
  - intros x Hx. destruct (Hle (Fin x) (in_map Fin _ _ Hx)) as [_ [_ H]].
    simpl in H. now apply Qltb_ge in H.
  - intros x Hx. destruct (Hle' (Fin x) (in_map Fin _ _ Hx)) as [_ [_ H]].
    simpl in H. now apply Qltb_ge in H.
Qed.

(** Dividing the samples by [k] turns their range into its absolute
    value over [k]. *)
Lemma scaled_extremes (samples : list Q) (k hi lo hi' lo' : Q) :
  ~ (k == 0)%Q ->
  is_greatest samples hi -> is_least samples lo ->
  is_greatest (map (fun x => x / k)%Q samples) hi' ->
  is_least (map (fun x => x / k)%Q samples) lo' ->
  (hi' - lo' == Qabs ((hi - lo) / k))%Q.
Proof.
  intros Hk [HM HMle] [Hmn Hmnle] [HM' HM'le] [Hmn' Hmn'le].
  apply in_map_iff in HM'. destruct HM' as [x1 [<- Hx1]].
  apply in_map_iff in Hmn'. destruct Hmn' as [x2 [<- Hx2]].
  pose proof (HM'le _ (in_map (fun x => x / k)%Q _ _ HM)) as H1.
  pose proof (HM'le _ (in_map (fun x => x / k)%Q _ _ Hmn)) as H1'.
  pose proof (Hmn'le _ (in_map (fun x => x / k)%Q _ _ Hmn)) as H2.
  pose proof (Hmn'le _ (in_map (fun x => x / k)%Q _ _ HM)) as H2'.
  pose proof (HMle _ Hx1) as H3. pose proof (Hmnle _ Hx2) as H4.
  pose proof (HMle _ Hx2) as H3'. pose proof (Hmnle _ Hx1) as H4'.
  pose proof (HMle _ Hmn) as H5.
  cbv beta in H1, H1', H2, H2'. unfold Qdiv in *.
  pose proof (Qmult_inv_r k Hk) as Hik. revert H1 H1' H2 H2' Hik. generalize (/ k)%Q.
  intros ik H1 H1' H2 H2' Hik. clear HM'le Hmn'le.
  destruct (Qlt_le_dec 0 k) as [Hpos|Hneg].
  - assert (Hi : (0 < ik)%Q) by nra.
    assert (Hp : (0 <= (hi - lo) * ik)%Q) by (apply Qmult_le_0_compat; lra).
    rewrite (Qabs_pos _ Hp).
    assert (E1 : (x1 * ik <= hi * ik)%Q) by (apply Qmult_le_compat_r; lra).
    assert (E2 : (lo * ik <= x2 * ik)%Q) by (apply Qmult_le_compat_r; lra).
    lra.
  - assert (Hi : (ik < 0)%Q) by nra.
    assert (Hp : (0 <= (hi - lo) * - ik)%Q) by (apply Qmult_le_0_compat; lra).
    assert (Hn : ((hi - lo) * ik <= 0)%Q) by lra.
    rewrite (Qabs_neg _ Hn).
    assert (E3 : (lo * - ik <= x1 * - ik)%Q) by (apply Qmult_le_compat_r; lra).
    assert (E4 : (x2 * - ik <= hi * - ik)%Q) by (apply Qmult_le_compat_r; lra).
    lra.
Qed.

Lemma not_flat_nonempty (samples : list Q) : ~ flat samples -> samples <> [].
Proof. intros H ->. apply H. intros x y []. Qed.

Lemma extremes_apart (samples : list Q) (hi lo : Q) :
  is_greatest samples hi -> is_least samples lo -> ~ flat samples -> (lo < hi)%Q.
Proof.
  intros [_ Hhi] [_ Hlo] Hnf. destruct (Qlt_le_dec lo hi) as [H|H]; [exact H|].
  exfalso. apply Hnf. intros x y Hx Hy.
  pose proof (Hhi x Hx). pose proof (Hlo x Hx).
  pose proof (Hhi y Hy). pose proof (Hlo y Hy). lra.
Qed.

Lemma own_range_finite (tr : Trace) (samples : list Q) :
  data tr = map Fin samples -> samples <> [] ->
  exists hi lo,
    own_range tr = Ok (Fin (hi - lo))
    /\ is_greatest samples hi /\ is_least samples lo.
Proof.
  intros Hd Hs. destruct (finite_extremes Hs) as [hi [lo [Hmax [Hmin [Hg Hl]]]]].
  exists hi, lo. unfold own_range. rewrite Hd, Hmax, Hmin. auto.
Qed.

Lemma Qdiv_mult_cancel (a c : Q) : ~ (c == 0)%Q -> (a == a / c * c)%Q.
Proof. intros H. field. exact H. Qed.

Lemma Qdiv_by_ratio (d a c : Q) :
  (a == d)%Q -> ~ (c == 0)%Q -> ~ (d == 0)%Q -> (d / (a / c) == c)%Q.
Proof. intros E Hc Hd. rewrite E. field. split; assumption. Qed.

Lemma rescale_finite (a m sc : Q) (samples : list Q) :
  ~ (m * sc == 0)%Q -> ~ (a == 0)%Q ->
  rescale (Fin a) m sc (map Fin samples) =
  map Fin (map (fun x => x / (a / (m * sc)))%Q samples).
Proof.
  intros Hc Ha. unfold rescale. rewrite !map_map. apply map_ext. intros x.
  simpl. rewrite (Qeq_bool_false Hc). simpl.
  rewrite Qeq_bool_false; [reflexivity|].
  intros E. apply Ha.
  rewrite (Qdiv_mult_cancel a Hc), E. ring.
Qed.

Lemma rescale_by_infinity (a m sc : Q) (samples : list Q) :
  (m * sc == 0)%Q -> (0 < a)%Q ->
  rescale (Fin a) m sc (map Fin samples) = map Fin (map (fun _ => 0%Q) samples).
Proof.
  intros Hc Ha. unfold rescale. rewrite !map_map. apply map_ext. intros x.
  simpl. apply Qeq_bool_iff in Hc. rewrite Hc.
  rewrite Qeq_bool_false by lra.
  apply Qltb_lt in Ha. now rewrite Ha.
Qed.

(** A trace of finite samples that are not all equal has range
    [abs(min_offset * scale)] once rescaled by its own range. *)
Lemma rescaled_range (tr : Trace) (samples : list Q) (m sc : Q) (r : num) :
  data tr = map Fin samples -> ~ flat samples -> own_range tr = Ok r ->
  exists r',
    own_range (set_data tr (rescale (num_abs r) m sc (data tr))) = Ok r'
    /\ num_eq r' (Fin (Qabs (m * sc))).
Proof.
  intros Hd Hnf Hr. pose proof (not_flat_nonempty Hnf) as Hs.
  destruct (own_range_finite tr Hd Hs) as [hi [lo [Hr' [Hg Hl]]]].
  rewrite Hr' in Hr. injection Hr as <-.
  pose proof (extremes_apart Hg Hl Hnf) as Hlt.
  assert (Ha : (Qabs (hi - lo) == hi - lo)%Q) by (apply Qabs_pos; lra).
  change (num_abs (Fin (hi - lo))) with (Fin (Qabs (hi - lo))). rewrite Hd.
  destruct (Qeq_dec (m * sc) 0) as [Hc|Hc].
  - rewrite rescale_by_infinity by (try assumption; lra).
    assert (Hz : map (fun _ : Q => 0%Q) samples <> [])
      by (destruct samples; [congruence|discriminate]).
    destruct (@own_range_finite
                (set_data tr (map Fin (map (fun _ : Q => 0%Q) samples)))
                (map (fun _ : Q => 0%Q) samples) eq_refl Hz)
      as [hi' [lo' [Hr2 [[Hin1 _] [Hin2 _]]]]].
    apply in_map_iff in Hin1. destruct Hin1 as [_ [<- _]].
    apply in_map_iff in Hin2. destruct Hin2 as [_ [<- _]].
    eexists. split; [exact Hr2|]. unfold num_eq.
    rewrite (Qabs_wd _ _ Hc). reflexivity.
  - assert (Hk : ~ (Qabs (hi - lo) / (m * sc) == 0)%Q).
    { intros E. pose proof (Qdiv_mult_cancel (Qabs (hi - lo)) Hc) as E'.
      rewrite E in E'. lra. }
    rewrite rescale_finite by (try assumption; lra).
    set (k := (Qabs (hi - lo) / (m * sc))%Q) in *.
    assert (Hz : map (fun x : Q => (x / k)%Q) samples <> [])
      by (destruct samples; [congruence|discriminate]).
    destruct (@own_range_finite
                (set_data tr (map Fin (map (fun x : Q => (x / k)%Q) samples)))
                (map (fun x : Q => (x / k)%Q) samples) eq_refl Hz)
      as [hi' [lo' [Hr2 [Hg' Hl']]]].
    eexists. split; [exact Hr2|]. unfold num_eq.
    rewrite (scaled_extremes Hk Hg Hl Hg' Hl').
    apply Qabs_wd. unfold k. apply Qdiv_by_ratio; [exact Ha|exact Hc|lra].
Qed.

Lemma min_offset_nonneg (streams : list SUFile) (m : Q) :
  min_offset_spacing math_sqrt streams m -> (0 <= m)%Q.
Proof.
  intros [qs [HF [Hin _]]].
  destruct (Forall2_In_r HF _ Hin) as [st [_ [hi [lo [[_ Hhi] [[Hlo _] ->]]]]]].
  pose proof (Hhi lo Hlo) as Hle.
  apply Qmult_le_0_compat; [lra|].
  apply Qinv_le_0_compat. change 0%Q with (inject_Z 0).
  rewrite <- Zle_Qle. lia.
Qed.

(** C1 (amended).  Under the policy ["traces"], for collections that
    all have a trace and traces that all have a sample, the Amplitude
    Normalizer returns; [min_offset] is the smallest over the collections
    of [(max_offset - min_offset) / traceCount], computed from the
    per-trace offsets, and is not negative; every trace is divided by its
    own range over [min_offset * scale], whatever the other traces are;
    and for every trace whose samples are finite and not all equal the
    sample range [max - min] after normalisation is
    [min_offset * abs(scale)], that is [min_offset * scale] when
    [scale >= 0]. *)
Theorem normalize_traces_range (scale : Q) (streams : list SUFile) :
  streams <> [] ->
  no_empty_collection streams ->
  no_empty_trace streams ->
  exists m out,
    get_min_offset math_sqrt streams = Ok m
    /\ min_offset_spacing math_sqrt streams m
    /\ (0 <= m)%Q
    /\ normalize_stage NormalizeTraces m scale streams = Ok out
    /\ Forall2 (fun st st' => Forall2 (spread_fits m scale) (traces st) (traces st'))
               streams out.
Proof.
  intros Hne Hcol Hd.
  destruct (get_min_offset_spec Hne Hcol) as [m [Hm Hspec]].
  destruct (normalize_stage_spec NormalizeTraces m scale Hne Hcol Hd) as [out [Hout HN]].
  pose proof (min_offset_nonneg Hspec) as Hpos.
  exists m, out. repeat (split; [assumption|]).
  eapply Forall2_impl; [|exact HN]. intros st st' [_ HF]. cbv beta.
  eapply Forall2_impl; [|exact HF]. intros tr tr' [r [Hr ->]].
  split; [exists r; auto|].
  intros samples Hs Hnf.
  destruct (@rescaled_range tr samples m scale r Hs Hnf Hr) as [r' [Hr' He]].
  exists r'. split; [exact Hr'|].
  destruct r' as [q| | |]; try contradiction.
  unfold num_eq in *. rewrite He, Qabs_Qmult, (Qabs_pos m Hpos). reflexivity.
Qed.

(** ** Amplitude Normalizer: a zero range *)

Lemma rescale_zero_range (r : num) (m sc : Q) (d : list num) :
  num_eq (num_abs r) (Fin 0) -> all_non_finite (rescale (num_abs r) m sc d).
Proof.
  intros Hz. unfold all_non_finite, rescale. apply Forall_map. apply Forall_forall.
  intros v _. destruct (num_abs r) as [a| | |]; simpl in Hz; try contradiction.
  assert (Hdiv : num_div (Fin a) (Fin (m * sc)) = NaN
                 \/ exists z, num_div (Fin a) (Fin (m * sc)) = Fin z /\ (z == 0)%Q).
  { simpl. apply Qeq_bool_iff in Hz. rewrite Hz.
    destruct (Qeq_bool (m * sc) 0); [now left|right].
    eexists. split; [reflexivity|]. apply Qeq_bool_iff in Hz. rewrite Hz.
    unfold Qdiv. ring. }
  destruct Hdiv as [->|[z [-> Ez]]].
  - now destruct v.
  - assert (Hlt : Qltb z 0 = false) by (apply Qltb_ge; lra).
    apply Qeq_bool_iff in Ez.
    destruct v as [x| | |]; simpl; rewrite ?Ez, ?Hlt; try reflexivity.
    destruct (Qeq_bool x 0); [reflexivity|]. now destruct (Qltb 0 x).
Qed.

Lemma flat_range_zero (tr : Trace) (samples : list Q) :
  data tr = map Fin samples -> samples <> [] -> flat samples ->
  exists r, own_range tr = Ok r /\ num_eq (num_abs r) (Fin 0).
Proof.
  intros Hd Hs Hf. destruct (own_range_finite tr Hd Hs) as [hi [lo [Hr [[Hhi _] [Hlo _]]]]].
  eexists. split; [exact Hr|]. simpl.
  rewrite (Qabs_wd (hi - lo) 0); [reflexivity|].
  pose proof (Hf hi lo Hhi Hlo). lra.
Qed.

(** C6 (amended).  For collections that all have a trace and traces that
    all have a sample the Amplitude Normalizer raises nothing, under
    every policy and whether or not a trace is flat.  Every sample of a
    trace whose applicable data range is zero becomes [nan] or an
    infinity; under the policy ["traces"] this is so for every flat trace
    of finite samples. *)
Theorem normalize_zero_range (policy : normalize_policy) (min_offset scale : Q)
    (streams : list SUFile) :
  streams <> [] ->
  no_empty_collection streams ->
  no_empty_trace streams ->
  exists out,
    normalize_stage policy min_offset scale streams = Ok out
    /\ Forall2 (fun st st' =>
                  Forall2 (fun tr tr' =>
                             List.length (data tr') = List.length (data tr)
                             /\ (degenerate policy streams st tr ->
                                 all_non_finite (data tr'))
                             /\ (forall samples,
                                    policy = NormalizeTraces ->
                                    data tr = map Fin samples -> flat samples ->
                                    all_non_finite (data tr')))
                          (traces st) (traces st'))
               streams out.
Proof.
  intros Hne Hcol Hd.
  destruct (normalize_stage_spec policy min_offset scale Hne Hcol Hd) as [out [Hout HN]].
  exists out. split; [exact Hout|].
  eapply Forall2_impl; [|exact HN]. intros st st' [_ HF]. cbv beta.
  eapply Forall2_impl; [|exact HF]. intros tr tr' [r [Hr ->]].
  assert (Hdeg : degenerate policy streams st tr ->
                 all_non_finite (rescale (num_abs r) min_offset scale (data tr))).
  { intros [r0 [Hr0 Hz]]. rewrite Hr in Hr0. injection Hr0 as <-.
    now apply rescale_zero_range. }
  simpl. split; [unfold rescale; apply length_map|]. split; [exact Hdeg|].
  intros samples -> Hs Hf. destruct samples as [|x samples].
  - rewrite Hs. constructor.
  - apply Hdeg. unfold degenerate. simpl.
    apply (@flat_range_zero tr (x :: samples) Hs); [discriminate|exact Hf].
Qed.

(** ** Further properties of the Offset Calculator *)

Lemma offset_of_header (tr tr' : Trace) :
  header tr' = header tr -> offset_of math_sqrt tr' = offset_of math_sqrt tr.
Proof.
  intros H. unfold offset_of, scalco_of, squared_distance. now rewrite H.
Qed.

(** X1.  The offset depends neither on the sign of the scale field (a
    negative and a positive scalar both divide) nor on which end is the
    source and which the group. *)
Theorem calcOffset_sign_and_direction (tr : Trace) :
  _calcOffset math_sqrt (negate_scale tr) = _calcOffset math_sqrt tr
  /\ _calcOffset math_sqrt (swap_ends tr) = _calcOffset math_sqrt tr.
Proof.
  rewrite !calcOffset_total. split; f_equal.
  - unfold offset_of, scalco_of, squared_distance, negate_scale. simpl.
    now rewrite Z.abs_opp.
  - unfold offset_of, scalco_of, squared_distance, swap_ends. cbn [header
      scalar_to_be_applied_to_all_coordinates group_coordinate_x group_coordinate_y
      source_coordinate_x source_coordinate_y].
    do 2 f_equal. ring.
Qed.

(** X2.  When [math.sqrt] returns no negative number the offset of
    every trace is computed and is not negative. *)
Theorem calcOffset_nonneg (tr : Trace) :
  (forall n, (0 <= math_sqrt n)%Q) ->
  exists offset, _calcOffset math_sqrt tr = Ok offset /\ (0 <= offset)%Q.
Proof.
  intros Hs. eexists. split; [apply calcOffset_total|].
  unfold offset_of. apply Qmult_le_0_compat; [|apply Hs].
  unfold Qdiv. rewrite Qmult_1_l. apply Qinv_le_0_compat.
  change 0%Q with (inject_Z 0). rewrite <- Zle_Qle.
  pose proof (effective_divisor_pos (Z.abs_nonneg
    (scalar_to_be_applied_to_all_coordinates (header tr)))) as H.
  unfold scalco_of. lia.
Qed.

(** ** Further properties: layout of the prepared collections *)

Lemma Forall2_length_eq (A B : Type) (R : A -> B -> Prop) (l : list A) (l' : list B) :
  Forall2 R l l' -> List.length l' = List.length l.
Proof. induction 1; simpl; congruence. Qed.

Lemma Forall2_trans_rel (A B C : Type) (R : A -> B -> Prop) (S : B -> C -> Prop)
    (T : A -> C -> Prop) (l : list A) (l' : list B) (l'' : list C) :
  (forall a b c, R a b -> S b c -> T a c) ->
  Forall2 R l l' -> Forall2 S l' l'' -> Forall2 T l l''.
Proof.
  intros H HR. revert l''. induction HR as [|a b l l' Hab _ IH]; intros l'' HS.
  - inversion HS. constructor.
  - inversion HS as [|? c ? l2 Hbc HS']; subst. constructor; eauto.
Qed.

Lemma Forall2_refl_rel (A : Type) (R : A -> A -> Prop) (l : list A) :
  (forall a, R a a) -> Forall2 R l l.
Proof. intros H. induction l; constructor; auto. Qed.

Lemma same_layout_refl (streams : list SUFile) : same_layout streams streams.
Proof.
  apply Forall2_refl_rel. intros st. split; [reflexivity|].
  now apply Forall2_refl_rel.
Qed.

Lemma same_layout_trans (s1 s2 s3 : list SUFile) :
  same_layout s1 s2 -> same_layout s2 s3 -> same_layout s1 s3.
Proof.
  unfold same_layout. apply Forall2_trans_rel.
  intros a b c [Hf1 Ht1] [Hf2 Ht2]. split; [congruence|].
  eapply Forall2_trans_rel; [|exact Ht1|exact Ht2]. cbv beta. congruence.
Qed.

Lemma aligned_same_layout (n : nat) (streams out : list SUFile) :
  aligned n streams out -> same_layout streams out.
Proof.
  unfold aligned, same_layout. apply Forall2_impl. intros st st' [Hf Ht].
  split; [exact Hf|]. eapply Forall2_impl; [|exact Ht].
  intros tr tr' H. apply H.
Qed.

Lemma normalized_same_layout (policy : normalize_policy) (m scale : Q)
    (streams out : list SUFile) :
  normalized_by policy m scale streams out ->
  same_layout streams out /\ same_sample_counts streams out.
Proof.
  unfold normalized_by, same_layout, same_sample_counts. intros H. split.
  - eapply Forall2_impl; [|exact H]. intros st st' [Hf Ht].
    split; [exact Hf|]. eapply Forall2_impl; [|exact Ht].
    intros tr tr' [r [_ ->]]. reflexivity.
  - eapply Forall2_impl; [|exact H]. intros st st' [_ Ht].
    eapply Forall2_impl; [|exact Ht].
    intros tr tr' [r [_ ->]]. simpl. unfold rescale. apply length_map.
Qed.

Lemma same_layout_length (streams out : list SUFile) :
  same_layout streams out -> List.length out = List.length streams.
Proof. apply Forall2_length_eq. Qed.

Lemma same_layout_no_empty_collection (streams out : list SUFile) :
  same_layout streams out -> no_empty_collection streams -> no_empty_collection out.
Proof.
  unfold same_layout, no_empty_collection. induction 1 as [|st st' l l' [_ Ht] _ IH];
    intros H; [constructor|].
  inversion H as [|? ? Hst Hl]; subst. constructor; [|auto].
  intros E. rewrite E in Ht. inversion Ht. congruence.
Qed.

Lemma same_layout_offsets (streams out : list SUFile) :
  same_layout streams out ->
  get_min_offset math_sqrt out = get_min_offset math_sqrt streams.
Proof.
  intros H. unfold get_min_offset.
  assert (E : mapM (stream_offset_spacing math_sqrt) out =
              mapM (stream_offset_spacing math_sqrt) streams).
  { induction H as [|st st' l l' [_ Ht] _ IH]; [reflexivity|].
    simpl. rewrite IH. f_equal.
    unfold stream_offset_spacing. rewrite !mapM_calcOffset.
    assert (Em : map (offset_of math_sqrt) (traces st')
                 = map (offset_of math_sqrt) (traces st)).
    { clear IH. induction Ht as [|tr tr' t t' Hh _ IHt]; [reflexivity|].
      simpl. now rewrite IHt, (offset_of_header tr tr' Hh). }
    rewrite Em, (Forall2_length_eq Ht). reflexivity. }
  now rewrite E.
Qed.

Lemma same_sample_counts_no_empty_trace (streams out : list SUFile) :
  same_sample_counts streams out -> no_empty_trace streams -> no_empty_trace out.
Proof.
  unfold same_sample_counts, no_empty_trace, all_traces.
  induction 1 as [|st st' l l' Ht _ IH]; intros H; [constructor|].
  simpl in *. apply Forall_app in H. destruct H as [Hst Hl].
  apply Forall_app. split; [|auto].
  clear IH Hl. induction Ht as [|tr tr' t t' Hlen _ IHt]; [constructor|].
  inversion Hst as [|? ? Hd Ht']; subst. constructor; [|auto].
  intros E. rewrite E in Hlen. destruct (data tr); [congruence|discriminate].
Qed.

Lemma aligned_no_empty_trace (n : nat) (streams out : list SUFile) :
  aligned n streams out -> (0 < n)%nat -> no_empty_trace out.
Proof.
  unfold aligned, no_empty_trace, all_traces.
  induction 1 as [|st st' l l' [_ Ht] _ IH]; intros Hn; [constructor|].
  simpl. apply Forall_app. split; [|auto].
  clear IH. induction Ht as [|tr tr' t t' [_ [_ [Hlen _]]] _ IHt]; constructor; auto.
  intros E. rewrite E in Hlen. simpl in Hlen. lia.
Qed.

Lemma shortest_length_pos (streams : list SUFile) (n : nat) :
  shortest_length streams n -> no_empty_trace streams -> (0 < n)%nat.
Proof.
  intros [[tr [Hin Hlen]] _] Hd. unfold no_empty_trace in Hd.
  rewrite Forall_forall in Hd. specialize (Hd tr Hin).
  destruct (data tr); [congruence|simpl in Hlen; lia].
Qed.

Lemma get_delta_ok (streams : list SUFile) :
  streams <> [] -> no_empty_collection streams ->
  exists delta, get_delta streams = Ok delta.
Proof.
  intros Hne Hcol. destruct streams as [|st rest]; [congruence|].
  inversion Hcol as [|? ? Hst _]; subst. unfold get_delta. simpl.
  destruct (traces st); [congruence|]. simpl. eauto.
Qed.

Lemma trim_stage_ok (trim : bool) (streams : list SUFile) :
  streams <> [] -> no_empty_collection streams -> no_empty_trace streams ->
  exists trimmed,
    trim_stage trim streams = Ok trimmed
    /\ same_layout streams trimmed
    /\ no_empty_trace trimmed
    /\ (trim = false -> trimmed = streams)
    /\ (trim = true -> exists n, shortest_length streams n /\ aligned n streams trimmed).
Proof.
  intros Hne Hcol Hd. destruct trim.
  - destruct (smallest_npts_spec Hne Hcol) as [n [Hn Hs]].
    assert (Ha : aligned n streams (trim_traces n streams))
      by (apply trim_traces_aligned; apply Hs).
    exists (trim_traces n streams). unfold trim_stage. rewrite Hn. simpl.
    split; [reflexivity|]. split; [now apply aligned_same_layout with n|].
    split; [|split; [discriminate|eauto]].
    apply aligned_no_empty_trace with n streams; [exact Ha|].
    now apply shortest_length_pos with streams.
  - exists streams. split; [reflexivity|]. split; [apply same_layout_refl|].
    split; [exact Hd|]. split; [reflexivity|discriminate].
Qed.

Lemma prepare_ok (cfg : Config) (streams : list SUFile) :
  streams <> [] -> no_empty_collection streams -> no_empty_trace streams ->
  exists out m,
    prepared math_sqrt cfg streams out m
    /\ same_layout streams out
    /\ no_empty_trace out
    /\ get_min_offset math_sqrt streams = Ok m.
Proof.
  intros Hne Hcol Hd.
  destruct (trim_stage_ok (trim_to_smallest_trace cfg) Hne Hcol Hd)
    as [trimmed [Ht [Hl [Hd' _]]]].
  assert (Hne' : trimmed <> []).
  { intros E. apply same_layout_length in Hl. rewrite E in Hl.
    destruct streams; [congruence|discriminate]. }
  pose proof (same_layout_no_empty_collection Hl Hcol) as Hcol'.
  destruct (get_min_offset_spec Hne' Hcol') as [m [Hm _]].
  destruct (normalize_stage_spec (normalize cfg) m (scale cfg) Hne' Hcol' Hd')
    as [out [Hout HN]].
  destruct (normalized_same_layout HN) as [Hl2 Hc2].
  exists out, m. split; [exists trimmed; auto|].
  split; [now apply same_layout_trans with trimmed|].
  split; [now apply same_sample_counts_no_empty_trace with trimmed|].
  now rewrite <- (same_layout_offsets Hl).
Qed.

(** X3.  Trimming and normalising keep the collections, their file
    names, their traces and the headers, so every trace keeps its offset:
    [min_offset] is the same computed before trimming, as the code does
    after it, or after normalising, and the offsets that place the curves
    are those behind the normalisation. *)
Theorem preparation_keeps_offsets (cfg : Config) (streams : list SUFile) :
  streams <> [] -> no_empty_collection streams -> no_empty_trace streams ->
  exists out m,
    prepared math_sqrt cfg streams out m
    /\ same_layout streams out
    /\ get_min_offset math_sqrt streams = Ok m
    /\ get_min_offset math_sqrt out = Ok m
    /\ Forall2 (fun st st' =>
                  Forall2 (fun tr tr' =>
                             _calcOffset math_sqrt tr' = _calcOffset math_sqrt tr)
                          (traces st) (traces st'))
               streams out.
Proof.
  intros Hne Hcol Hd.
  destruct (prepare_ok cfg Hne Hcol Hd) as [out [m [Hp [Hl [_ Hm]]]]].
  exists out, m. repeat (split; [assumption|]). split.
  - now rewrite (same_layout_offsets Hl).
  - eapply Forall2_impl; [|exact Hl]. intros st st' [_ Ht]. cbv beta.
    eapply Forall2_impl; [|exact Ht]. intros tr tr' Hh.
    now rewrite !calcOffset_total, (offset_of_header tr tr' Hh).
Qed.

Lemma plotBenchmark_prepared (cfg : Config) (streams out : list SUFile) (m : Q) (delta : Z) :
  streams <> [] ->
  get_delta streams = Ok delta ->
  prepared math_sqrt cfg streams out m ->
  plotBenchmark math_sqrt cfg streams = render math_sqrt cfg delta out.
Proof.
  intros Hne Hdelta [trimmed [Ht [Hm Hout]]].
  unfold plotBenchmark. destruct streams as [|st rest]; [congruence|].
  rewrite Hdelta, mbind_lift_ok, Ht, mbind_lift_ok, Hm, mbind_lift_ok, Hout,
    mbind_lift_ok. reflexivity.
Qed.

(** ** Further properties: rendering *)

Lemma mbind_emit (B : Type) (e : event) (k : unit -> M B) :
  mbind (emit e) k = (e :: fst (k tt), snd (k tt)).
Proof. reflexivity. Qed.

Lemma mbind_mret (A B : Type) (a : A) (k : A -> M B) : mbind (mret a) k = k a.
Proof. unfold mbind, mret. simpl. now destruct (k a). Qed.

Lemma mbind_raise (A B : Type) (c : M A) (k : A -> M B) (evs : list event) (e : exn) :
  c = (evs, Raise e) -> mbind c k = (evs, Raise e).
Proof. now intros ->. Qed.

Lemma set_title_events (title : string) : set_title title = (title_events title, Ok tt).
Proof.
  unfold set_title, title_events. destruct title; [reflexivity|].
  destruct (split_newline _) as [[main subtitle]|]; reflexivity.
Qed.

Lemma setup_figure_events (cfg : Config) :
  figure_available cfg -> setup_figure cfg = (figure_events cfg, Ok tt).
Proof.
  intros Ha. unfold setup_figure, figure_events.
  destruct (fig cfg) as [f|] eqn:Ef; [reflexivity|].
  destruct Ha as [Ha|Ha]; [congruence|].
  rewrite !py_div_nonzero by now apply inject_Z_nonzero.
  rewrite !mbind_lift_ok, !mbind_emit, set_title_events. reflexivity.
Qed.

Lemma setup_figure_zero_dpi (cfg : Config) :
  fig cfg = None -> dpi cfg = 0 ->
  setup_figure cfg = ([], Raise ZeroDivisionError).
Proof. intros Hf Hd. unfold setup_figure. rewrite Hf, Hd. reflexivity. Qed.

Lemma handle_output_events (cfg : Config) :
  handle_output cfg = (output_events cfg, Ok (returned cfg)).
Proof.
  unfold handle_output, output_events, returned.
  destruct (outfile cfg), (truthy (format cfg)), (fig cfg); reflexivity.
Qed.

Lemma file_names_length (streams : list SUFile) (l : list string) :
  file_names streams = Some l -> List.length l = List.length streams.
Proof.
  revert l. induction streams as [|st streams IH]; intros l H; simpl in H.
  - now injection H as <-.
  - destruct (file st); [|discriminate].
    destruct (file_names streams) as [l'|]; [|discriminate].
    injection H as <-. simpl. now rewrite (IH l').
Qed.

Lemma get_labels_names (streams : list SUFile) :
  get_labels streams =
  match file_names streams with
  | Some l => map basename l
  | None => stream_numbers (List.length streams)
  end.
Proof.
  unfold get_labels, stream_numbers.
  assert (E : fold_right (fun st acc =>
                            match file st, acc with
                            | Some name, Some l => Some (basename name :: l)
                            | _, _ => None
                            end) (Some []) streams
              = option_map (map basename) (file_names streams)).
  { induction streams as [|st streams IH]; [reflexivity|].
    simpl. rewrite IH. destruct (file st); [|reflexivity].
    now destruct (file_names streams). }
  rewrite E. now destruct (file_names streams).
Qed.

Lemma get_labels_length (streams : list SUFile) :
  List.length (get_labels streams) = List.length streams.
Proof.
  rewrite get_labels_names. destruct (file_names streams) as [l|] eqn:E.
  - rewrite length_map. now apply file_names_length.
  - unfold stream_numbers. now rewrite length_map, length_seq.
Qed.

Lemma file_names_none (streams : list SUFile) :
  Exists (fun st => file st = None) streams -> file_names streams = None.
Proof.
  induction 1 as [st l H|st l _ IH]; simpl.
  - now rewrite H.
  - rewrite IH. now destruct (file st).
Qed.

Lemma file_names_some (streams : list SUFile) :
  Forall (fun st => file st <> None) streams ->
  exists l, file_names streams = Some l /\ map Some l = map file streams.
Proof.
  induction 1 as [|st l H _ [names [E Hm]]]; [exists []; auto|].
  simpl. rewrite E. destruct (file st) as [name|] eqn:Ef; [|congruence].
  exists (name :: names). simpl. now rewrite Hm.
Qed.

(** X4.  There is one label for each collection.  When every collection
    has a file the labels are the base names of the files; as soon as one
    collection has none, every label is a stream number, also for the
    collections that have a file. *)
Theorem get_labels_all_or_nothing (streams : list SUFile) :
  List.length (get_labels streams) = List.length streams
  /\ (Forall (fun st => file st <> None) streams ->
      map Some (get_labels streams)
      = map (fun st => option_map basename (file st)) streams)
  /\ (Exists (fun st => file st = None) streams ->
      get_labels streams = stream_numbers (List.length streams)).
Proof.
  split; [apply get_labels_length|]. split; intros H.
  - destruct (file_names_some H) as [l [E Hm]].
    rewrite get_labels_names, E. rewrite map_map.
    change (fun x => Some (basename x)) with (fun x => option_map basename (Some x)).
    rewrite <- (map_map Some (option_map basename)), Hm, map_map. reflexivity.
  - now rewrite get_labels_names, (file_names_none H).
Qed.

Section PlotEvents.

Variables (clip : bool) (ymin ymax : option Q) (delta : Z).
Variables (colors labels : list string).

Lemma plot_trace_events (color lab : string) (_i : nat) (s : Bounds * bool) (tr : Trace) :
  data tr <> [] ->
  index labels _i = Ok lab ->
  plot_trace math_sqrt clip ymin ymax delta color labels _i s tr =
    (plots math_sqrt delta color (if snd s then Some lab else None)
           (filter (kept_by_loop math_sqrt clip ymin ymax) [tr]),
     Ok (observe math_sqrt delta (fst s) tr,
         if kept_by_loop math_sqrt clip ymin ymax tr then false else snd s)).
Proof.
  intros Hd Hlab. unfold plot_trace, observe.
  rewrite calcOffset_total, mbind_lift_ok.
  change (shift (offset_of math_sqrt tr) (data tr)) with (shifted math_sqrt tr).
  destruct (@py_best_nonempty _ num_gtb (shifted math_sqrt tr)) as [hi Hhi];
    [now apply shift_nonempty|].
  destruct (@py_best_nonempty _ num_ltb (shifted math_sqrt tr)) as [lo Hlo];
    [now apply shift_nonempty|].
  destruct (@py_best_nonempty _ num_gtb (trace_x delta tr)) as [xhi Hxhi];
    [now apply trace_x_nonempty|].
  fold py_max in Hhi, Hxhi. fold py_min in Hlo.
  rewrite Hhi, Hlo, Hxhi. rewrite !mbind_lift_ok.
  assert (Hk : kept_by_loop math_sqrt clip ymin ymax tr =
               negb (clip && out_of_image ymin ymax lo hi)).
  { unfold kept_by_loop, clipped_by_code. now rewrite Hhi, Hlo. }
  cbn [filter]. rewrite Hk.
  destruct (clip && out_of_image ymin ymax lo hi); [reflexivity|].
  destruct (snd s); [rewrite Hlab, mbind_lift_ok|]; reflexivity.
Qed.

Lemma plot_traces_events (color lab : string) (_i : nat) (trs : list Trace) :
  Forall (fun tr => data tr <> []) trs ->
  index labels _i = Ok lab ->
  forall s,
    foldM (plot_trace math_sqrt clip ymin ymax delta color labels _i) s trs =
      (plots math_sqrt delta color (if snd s then Some lab else None)
             (filter (kept_by_loop math_sqrt clip ymin ymax) trs),
       Ok (fold_left (observe math_sqrt delta) trs (fst s),
           if existsb (kept_by_loop math_sqrt clip ymin ymax) trs then false else snd s)).
Proof.
  intros Hd Hlab. induction Hd as [|tr trs Htr _ IH]; intros s.
  - simpl. unfold mret. now destruct s.
  - cbn [foldM].
    erewrite mbind_run;
      [|apply (@plot_trace_events color lab _i s tr Htr Hlab)|apply IH].
    cbn [filter existsb fst snd fold_left orb].
    destruct (kept_by_loop math_sqrt clip ymin ymax tr); cbn [plots app orb].
    + f_equal. now destruct (existsb _ trs).
    + reflexivity.
Qed.

Lemma plot_stream_events (b : Bounds) (_i : nat) (st : SUFile) :
  (_i < List.length colors)%nat ->
  (_i < List.length labels)%nat ->
  Forall (fun tr => data tr <> []) (traces st) ->
  plot_stream math_sqrt clip ymin ymax delta colors labels b (_i, st) =
    (stream_plots math_sqrt clip ymin ymax delta colors labels (_i, st),
     Ok (fold_left (observe math_sqrt delta) (traces st) b)).
Proof.
  intros Hc Hl Hd. unfold plot_stream, stream_plots, index. cbn [fst snd].
  destruct (nth_error colors _i) as [color|] eqn:Ec;
    [|apply nth_error_None in Ec; lia].
  destruct (nth_error labels _i) as [lab|] eqn:El;
    [|apply nth_error_None in El; lia].
  rewrite mbind_lift_ok.
  erewrite mbind_run;
    [|apply (@plot_traces_events color lab _i (traces st) Hd);
      unfold index; now rewrite El
     |reflexivity].
  cbn [fst snd]. now rewrite app_nil_r.
Qed.

Lemma plot_streams_events (streams : list SUFile) :
  no_empty_trace streams ->
  forall k b,
    (k + List.length streams <= List.length colors)%nat ->
    (k + List.length streams <= List.length labels)%nat ->
    foldM (plot_stream math_sqrt clip ymin ymax delta colors labels) b
          (combine (seq k (List.length streams)) streams) =
      (flat_map (stream_plots math_sqrt clip ymin ymax delta colors labels)
                (combine (seq k (List.length streams)) streams),
       Ok (fold_left (observe math_sqrt delta) (all_traces streams) b)).
Proof.
  unfold no_empty_trace, all_traces.
  induction streams as [|st streams IH]; intros Hd k b Hc Hl; [reflexivity|].
  simpl in Hd. apply Forall_app in Hd. destruct Hd as [Hst Hrest].
  simpl in Hc, Hl.
  cbn [List.length seq combine foldM flat_map]. rewrite fold_left_app.
  eapply mbind_run.
  - apply plot_stream_events; [lia|lia|assumption].
  - apply IH; [assumption|lia|lia].
Qed.

Lemma legend_entries_cons (e : event) (l : list event) :
  legend_entries (e :: l) = (legend_entries [e] ++ legend_entries l)%list.
Proof. unfold legend_entries. simpl. now rewrite app_nil_r. Qed.

Lemma plots_legend (color : string) (label : option string) (trs : list Trace) :
  legend_entries (plots math_sqrt delta color label trs) =
  match label, trs with
  | Some lab, _ :: _ => [lab]
  | _, _ => []
  end.
Proof.
  assert (H : forall l, legend_entries (plots math_sqrt delta color None l) = []).
  { induction l as [|tr l IH]; [reflexivity|].
    cbn [plots]. now rewrite legend_entries_cons, IH. }
  destruct trs as [|tr trs]; [now destruct label|].
  cbn [plots]. rewrite legend_entries_cons, H. now destruct label.
Qed.

Lemma filter_nonempty_existsb (A : Type) (f : A -> bool) (l : list A) :
  match filter f l with [] => existsb f l = false | _ :: _ => existsb f l = true end.
Proof.
  induction l as [|a l IH]; [reflexivity|]. simpl.
  destruct (f a); [reflexivity|exact IH].
Qed.

End PlotEvents.

(** X5.  Given a colour and a label for every collection and a sample in
    every trace, the plot loop emits, collection by collection, one
    [Plot] event for every trace that is not clipped, in the colour of the
    collection; within a collection only the first of these events
    carries the label.  The legend therefore has one entry for each
    collection of which a trace is drawn and none for a collection
    whose traces are all clipped. *)
Theorem plot_loop_legend (clip : bool) (ymin ymax : option Q) (delta : Z)
    (colors labels : list string) (streams : list SUFile) :
  (List.length streams <= List.length colors)%nat ->
  (List.length streams <= List.length labels)%nat ->
  no_empty_trace streams ->
  plot_loop math_sqrt clip ymin ymax delta colors labels streams =
    (loop_plots math_sqrt clip ymin ymax delta colors labels streams,
     Ok (tracked_bounds math_sqrt delta streams))
  /\ legend_entries (loop_plots math_sqrt clip ymin ymax delta colors labels streams)
     = drawn_labels math_sqrt clip ymin ymax labels streams.
Proof.
  intros Hc Hl Hd. split.
  - unfold plot_loop, loop_plots, tracked_bounds.
    now apply plot_streams_events.
  - unfold loop_plots, drawn_labels, legend_entries.
    assert (H : forall k,
               (k + List.length streams <= List.length colors)%nat ->
               flat_map (fun e => match e with
                                  | Plot _ _ _ (Some label) => [label]
                                  | _ => []
                                  end)
                 (flat_map (stream_plots math_sqrt clip ymin ymax delta colors labels)
                           (combine (seq k (List.length streams)) streams))
               = flat_map (fun ist : nat * SUFile =>
                             match nth_error labels (fst ist) with
                             | Some label =>
                                 if existsb (kept_by_loop math_sqrt clip ymin ymax)
                                            (traces (snd ist))
                                 then [label] else []
                             | None => []
                             end)
                          (combine (seq k (List.length streams)) streams)).
    { clear Hc Hl Hd. induction streams as [|st l IH]; intros k Hk; [reflexivity|].
      cbn [List.length seq combine flat_map]. rewrite flat_map_app.
      simpl in Hk. rewrite IH by lia. f_equal.
      unfold stream_plots. cbn [fst snd].
      destruct (nth_error colors k) eqn:Ec; [|apply nth_error_None in Ec; lia].
      destruct (nth_error labels k) as [lab|]; [|reflexivity].
      pose proof (plots_legend delta s (Some lab)
                    (filter (kept_by_loop math_sqrt clip ymin ymax) (traces st))) as E.
      unfold legend_entries in E. rewrite E.
      pose proof (filter_nonempty_existsb (kept_by_loop math_sqrt clip ymin ymax)
                    (traces st)) as F.
      destruct (filter _ (traces st)); now rewrite F. }
    now apply H.
Qed.

(** ** Further properties: the whole pipeline *)

Lemma render_events (cfg : Config) (delta : Z) (out : list SUFile) :
  figure_available cfg ->
  (List.length out <= 5)%nat ->
  no_empty_trace out ->
  render math_sqrt cfg delta out =
    ((figure_events cfg
      ++ loop_plots math_sqrt (clip_partial_traces cfg) (ymin cfg) (ymax cfg) delta
           palette (get_labels out) out
      ++ axis_events cfg (tracked_bounds math_sqrt delta out)
      ++ output_events cfg)%list,
     Ok (returned cfg)).
Proof.
  intros Ha Hn Hd. unfold render.
  eapply mbind_run; [now apply setup_figure_events|].
  assert (Hc : get_colors out = Ok palette).
  { unfold get_colors. destruct (Nat.ltb_spec 5 (List.length out)); [lia|reflexivity]. }
  rewrite Hc, mbind_lift_ok.
  eapply mbind_run.
  - unfold plot_loop. apply plot_streams_events; [exact Hd|simpl; lia|].
    rewrite get_labels_length. simpl. lia.
  - rewrite !mbind_emit. unfold axis_events. cbn [app]. fold tracked_bounds.
    unfold tracked_bounds at 1 2 3 4.
    do 4 f_equal.
    + destruct (plot_legend cfg).
      * rewrite mbind_emit, handle_output_events. reflexivity.
      * rewrite mbind_mret, handle_output_events. reflexivity.
    + destruct (plot_legend cfg).
      * rewrite mbind_emit, handle_output_events. reflexivity.
      * rewrite mbind_mret, handle_output_events. reflexivity.
Qed.

(** X7.  With more than five collections (all with a trace, all traces
    with a sample, a figure given or a non-zero [dpi]) [plotBenchmark]
    raises [TypeError] when it builds the colours, after the figure is
    set up and before anything is plotted: the only events are those of
    the figure. *)
Theorem plotBenchmark_six_collections (cfg : Config) (streams : list SUFile) :
  no_empty_collection streams ->
  no_empty_trace streams ->
  (5 < List.length streams)%nat ->
  figure_available cfg ->
  plotBenchmark math_sqrt cfg streams = (figure_events cfg, Raise TypeError).
Proof.
  intros Hcol Hd Hn Ha.
  assert (Hne : streams <> []) by (intros ->; simpl in Hn; lia).
  destruct (get_delta_ok Hne Hcol) as [delta Hdelta].
  destruct (prepare_ok cfg Hne Hcol Hd) as [out [m [Hp [Hl _]]]].
  rewrite (plotBenchmark_prepared Hne Hdelta Hp). unfold render.
  rewrite <- (app_nil_r (figure_events cfg)).
  eapply mbind_run; [now apply setup_figure_events|].
  unfold get_colors. rewrite (same_layout_length Hl).
  destruct (Nat.ltb_spec 5 (List.length streams)); [reflexivity|lia].
Qed.

(** X8.  With no figure given and [dpi = 0] (collections that all have
    a trace, traces that all have a sample) [plotBenchmark] raises
    [ZeroDivisionError] when it computes the size of the figure, before
    any rendering event. *)
Theorem plotBenchmark_zero_dpi (cfg : Config) (streams : list SUFile) :
  streams <> [] ->
  no_empty_collection streams ->
  no_empty_trace streams ->
  fig cfg = None ->
  dpi cfg = 0 ->
  plotBenchmark math_sqrt cfg streams = ([], Raise ZeroDivisionError).
Proof.
  intros Hne Hcol Hd Hf Hz.
  destruct (get_delta_ok Hne Hcol) as [delta Hdelta].
  destruct (prepare_ok cfg Hne Hcol Hd) as [out [m [Hp _]]].
  rewrite (plotBenchmark_prepared Hne Hdelta Hp). unfold render.
  apply mbind_raise. now apply setup_figure_zero_dpi.
Qed.

(** ** Further properties: a trace without samples *)

Lemma mapM_ok_or_raise (A B : Type) (f : A -> result B) (e : exn) (l : list A) :
  Forall (fun a => (exists b, f a = Ok b) \/ f a = Raise e) l ->
  (exists bs, mapM f l = Ok bs /\ List.length bs = List.length l) \/ mapM f l = Raise e.
Proof.
  induction 1 as [|a l [[b Hb]|Ha] _ IH].
  - left. exists []. auto.
  - simpl. rewrite Hb. simpl. destruct IH as [[bs [-> Hlen]]| ->].
    + left. exists (b :: bs). simpl. auto.
    + now right.
  - right. simpl. now rewrite Ha.
Qed.

Lemma mapAccumM_raises (S A B : Type) (f : S -> A -> result (B * S)) (e : exn)
    (l : list A) :
  Forall (fun a => forall s, (exists r, f s a = Ok r) \/ f s a = Raise e) l ->
  Exists (fun a => forall s, f s a = Raise e) l ->
  forall s, mapAccumM f s l = Raise e.
Proof.
  induction l as [|a l IH]; intros HF HE s; [inversion HE|].
  inversion HF as [|? ? Ha HF']; subst. simpl.
  inversion HE as [? ? Hr|? ? HE']; subst; [now rewrite Hr|].
  destruct (Ha s) as [[r Hr]| Hr]; rewrite Hr; [|reflexivity].
  simpl. now rewrite (IH HF' HE').
Qed.

Lemma py_best_ok_or_raise (A : Type) (better : A -> A -> bool) (l : list A) :
  (exists r, py_best better l = Ok r) \/ py_best better l = Raise ValueError.
Proof. destruct l; [now right|left; eexists; reflexivity]. Qed.

Lemma np_max_ok_or_raise (d : list num) :
  (exists r, np_max d = Ok r) \/ np_max d = Raise ValueError.
Proof. destruct d; [now right|left; eexists; reflexivity]. Qed.

Lemma np_min_ok_or_raise (d : list num) :
  (exists r, np_min d = Ok r) \/ np_min d = Raise ValueError.
Proof. destruct d; [now right|left; eexists; reflexivity]. Qed.

Lemma stream_max_ok_or_raise (st : SUFile) :
  (exists r, stream_max st = Ok r) \/ stream_max st = Raise ValueError.
Proof.
  unfold stream_max.
  destruct (@mapM_ok_or_raise _ _ (fun _i => np_max (data _i)) ValueError (traces st))
    as [[l [-> _]]| ->]; [| |now right].
  - apply Forall_forall. intros tr _. apply np_max_ok_or_raise.
  - simpl. apply py_best_ok_or_raise.
Qed.

Lemma stream_min_ok_or_raise (st : SUFile) :
  (exists r, stream_min st = Ok r) \/ stream_min st = Raise ValueError.
Proof.
  unfold stream_min.
  destruct (@mapM_ok_or_raise _ _ (fun _i => np_min (data _i)) ValueError (traces st))
    as [[l [-> _]]| ->]; [| |now right].
  - apply Forall_forall. intros tr _. apply np_min_ok_or_raise.
  - simpl. apply py_best_ok_or_raise.
Qed.

Lemma stream_max_empty_trace (st : SUFile) :
  Exists (fun tr => data tr = []) (traces st) -> stream_max st = Raise ValueError.
Proof.
  intros H. unfold stream_max. rewrite mapM_raises with (e := ValueError).
  - reflexivity.
  - eapply Exists_impl; [|exact H]. intros tr E. cbv beta. now rewrite E.
  - apply Forall_forall. intros tr _. apply np_max_ok_or_raise.
Qed.

Lemma empty_trace_somewhere (streams : list SUFile) :
  Exists (fun tr => data tr = []) (all_traces streams) ->
  Exists (fun st => Exists (fun tr => data tr = []) (traces st)) streams.
Proof.
  intros H. apply Exists_exists in H. destruct H as [tr [Hin E]].
  apply in_all_traces in Hin. destruct Hin as [st [Hst Htr]].
  apply Exists_exists. exists st. split; [exact Hst|].
  apply Exists_exists. eauto.
Qed.

Lemma global_data_range_empty_trace (streams : list SUFile) :
  Exists (fun tr => data tr = []) (all_traces streams) ->
  global_data_range streams = Raise ValueError.
Proof.
  intros H. apply empty_trace_somewhere in H. unfold global_data_range.
  rewrite mapM_raises with (e := ValueError).
  - reflexivity.
  - eapply Exists_impl; [|exact H]. intros st Hst. cbv beta.
    now rewrite (stream_max_empty_trace st Hst).
  - apply Forall_forall. intros st _.
    destruct (stream_max_ok_or_raise st) as [[hi ->]| ->]; [|now right]. simpl.
    destruct (stream_min_ok_or_raise st) as [[lo ->]| ->]; [|now right]. simpl.
    left. eauto.
Qed.

Lemma empty_trace_or_not (trs : list Trace) :
  Forall (fun tr => data tr <> []) trs \/ Exists (fun tr => data tr = []) trs.
Proof.
  induction trs as [|tr trs [IH|IH]].
  - left. constructor.
  - destruct (data tr) eqn:E.
    + right. now constructor.
    + left. constructor; [congruence|exact IH].
  - right. now constructor 2.
Qed.

Lemma normalize_stage_empty_trace (policy : normalize_policy) (m scale : Q)
    (streams : list SUFile) :
  no_empty_collection streams ->
  Exists (fun tr => data tr = []) (all_traces streams) ->
  normalize_stage policy m scale streams = Raise ValueError.
Proof.
  intros Hcol H. unfold normalize_stage.
  pose proof (@global_data_range_empty_trace streams H) as Hg.
  destruct policy.
  - rewrite Hg. reflexivity.
  - cbn [rbind]. rewrite mapAccumM_raises with (e := ValueError); [reflexivity| |].
    + unfold no_empty_collection in Hcol. eapply Forall_impl; [|exact Hcol].
      intros st Hst s. destruct (empty_trace_or_not (traces st)) as [Hd|He].
      * left.
        destruct (@normalize_stream_step NormalizeStream m scale streams s st Hst Hd)
          as [st' [s' [Hr _]]]; [unfold global_range_held; discriminate|eauto].
      * right. unfold normalize_stream. now rewrite (stream_max_empty_trace st He).
    + apply empty_trace_somewhere in H. eapply Exists_impl; [|exact H].
      intros st He s. unfold normalize_stream.
      now rewrite (stream_max_empty_trace st He).
  - rewrite Hg. reflexivity.
Qed.

Lemma aligned_in (n : nat) (streams out : list SUFile) (tr : Trace) :
  aligned n streams out -> In tr (all_traces streams) ->
  exists tr', In tr' (all_traces out) /\ truncated_to n tr tr'.
Proof.
  intros Ha Hin. apply in_all_traces in Hin. destruct Hin as [st [Hst Htr]].
  destruct (Forall2_In_l Ha _ Hst) as [st' [Hst' [_ Ht]]].
  destruct (Forall2_In_l Ht _ Htr) as [tr' [Htr' Hc]].
  exists tr'. split; [|exact Hc]. apply in_all_traces. eauto.
Qed.

(** X9.  When every collection has a trace but some trace has no
    sample, [plotBenchmark] raises [ValueError] before any rendering
    event, under every policy: without trimming from the maximum of the
    empty array, with trimming because every trace is then cut to zero
    samples. *)
Theorem plotBenchmark_empty_trace (cfg : Config) (streams : list SUFile) :
  no_empty_collection streams ->
  Exists (fun tr => data tr = []) (all_traces streams) ->
  plotBenchmark math_sqrt cfg streams = ([], Raise ValueError).
Proof.
  intros Hcol He.
  assert (Hne : streams <> []) by (intros ->; inversion He).
  destruct (get_delta_ok Hne Hcol) as [delta Hdelta].
  assert (Hprep : exists trimmed m,
             trim_stage (trim_to_smallest_trace cfg) streams = Ok trimmed
             /\ get_min_offset math_sqrt trimmed = Ok m
             /\ no_empty_collection trimmed
             /\ Exists (fun tr => data tr = []) (all_traces trimmed)).
  { destruct (get_min_offset_spec Hne Hcol) as [m [Hm _]].
    unfold trim_stage. destruct (trim_to_smallest_trace cfg).
    - destruct (smallest_npts_spec Hne Hcol) as [n [Hn [_ Hmin]]].
      assert (Ha : aligned n streams (trim_traces n streams))
        by now apply trim_traces_aligned.
      pose proof (aligned_same_layout Ha) as Hl.
      exists (trim_traces n streams), m. rewrite Hn. simpl.
      split; [reflexivity|]. split; [now rewrite (same_layout_offsets Hl)|].
      split; [now apply same_layout_no_empty_collection with streams|].
      apply Exists_exists in He. destruct He as [tr [Hin E]].
      destruct (aligned_in tr Ha Hin) as [tr' [Hin' [_ [_ [Hlen _]]]]].
      apply Exists_exists. exists tr'. split; [exact Hin'|].
      specialize (Hmin tr Hin). rewrite E in Hmin. simpl in Hmin.
      destruct (data tr'); [reflexivity|simpl in Hlen; lia].
    - exists streams, m. auto. }
  destruct Hprep as [trimmed [m [Ht [Hm [Hcol' He']]]]].
  unfold plotBenchmark. destruct streams as [|st rest]; [congruence|].
  rewrite Hdelta, mbind_lift_ok, Ht, mbind_lift_ok, Hm, mbind_lift_ok.
  now rewrite (normalize_stage_empty_trace (normalize cfg) m (scale cfg) Hcol' He').
Qed.

(** ** Further properties: trimming twice *)

Lemma set_data_same (tr : Trace) : set_data tr (data tr) = tr.
Proof. now destruct tr. Qed.

Lemma set_traces_same (st : SUFile) : set_traces st (traces st) = st.
Proof. now destruct st. Qed.

Lemma map_same (A : Type) (f : A -> A) (l : list A) :
  (forall a, In a l -> f a = a) -> map f l = l.
Proof.
  induction l as [|a l IH]; intros H; [reflexivity|].
  simpl. rewrite (H a (or_introl eq_refl)), IH; [reflexivity|].
  intros b Hb. apply H. now right.
Qed.

Lemma aligned_lengths (n : nat) (streams out : list SUFile) (tr' : Trace) :
  aligned n streams out -> In tr' (all_traces out) -> List.length (data tr') = n.
Proof.
  intros Ha Hin. apply in_all_traces in Hin. destruct Hin as [st' [Hst' Htr']].
  destruct (Forall2_In_r Ha _ Hst') as [st [_ [_ Ht]]].
  destruct (Forall2_In_r Ht _ Htr') as [tr [_ Hc]]. apply Hc.
Qed.

Lemma trim_traces_same (n : nat) (out : list SUFile) :
  (forall tr, In tr (all_traces out) -> List.length (data tr) = n) ->
  trim_traces n out = out.
Proof.
  intros H. unfold trim_traces. apply map_same. intros st Hst.
  rewrite map_same; [apply set_traces_same|].
  intros tr Htr. rewrite firstn_all2; [apply set_data_same|].
  rewrite (H tr); [lia|]. apply in_all_traces. eauto.
Qed.

(** X10.  Trimming is idempotent: the collections that the Trace
    Aligner returns are left as they are when they are trimmed again. *)
Theorem trim_stage_idempotent (streams : list SUFile) :
  streams <> [] ->
  no_empty_collection streams ->
  exists out,
    trim_stage true streams = Ok out /\ trim_stage true out = Ok out.
Proof.
  intros Hne Hcol.
  destruct (smallest_npts_spec Hne Hcol) as [n [Hn Hs]].
  assert (Ha : aligned n streams (trim_traces n streams))
    by (apply trim_traces_aligned; apply Hs).
  set (out := trim_traces n streams) in *.
  pose proof (aligned_same_layout Ha) as Hl.
  assert (Hne' : out <> []).
  { intros E. apply same_layout_length in Hl. rewrite E in Hl.
    destruct streams; [congruence|discriminate]. }
  pose proof (same_layout_no_empty_collection Hl Hcol) as Hcol'.
  destruct (smallest_npts_spec Hne' Hcol') as [n' [Hn' [[tr [Hin Hlen]] _]]].
  assert (E : n' = n).
  { rewrite <- Hlen. now apply aligned_lengths with streams out. }
  exists out. unfold trim_stage. rewrite Hn, Hn'. simpl.
  split; [reflexivity|]. f_equal. rewrite E. apply trim_traces_same.
  intros tr0 H0. now apply aligned_lengths with streams out.
Qed.

(** ** Further properties of the Amplitude Normalizer *)

Lemma Forall2_eq_map (A B : Type) (f : A -> B) (l : list A) (l' : list B) :
  Forall2 (fun a b => b = f a) l l' -> l' = map f l.
Proof. induction 1; simpl; congruence. Qed.

Lemma Forall2_with_left (A B : Type) (P : A -> Prop) (R : A -> B -> Prop)
    (l : list A) (l' : list B) :
  Forall2 R l l' -> Forall P l -> Forall2 (fun a b => P a /\ R a b) l l'.
Proof.
  induction 1 as [|a b l l' Hab _ IH]; intros HP; [constructor|].
  inversion HP; subst. constructor; auto.
Qed.

Lemma set_traces_eta (st st' : SUFile) (trs : list Trace) :
  file st' = file st -> traces st' = trs -> st' = set_traces st trs.
Proof. destruct st'. unfold set_traces. simpl. congruence. Qed.

(** X11.  Under the global policy every trace of every collection is
    divided by the same number, the absolute global range over
    [min_offset * scale]; under the policy ["stream"] every trace of a
    collection is divided by the same number, made of the range of that
    collection.  The absolute value taken at each trace does not change
    the divisor from one trace to the next. *)
Theorem normalize_shared_divisor (min_offset scale : Q) (streams : list SUFile) :
  streams <> [] ->
  no_empty_collection streams ->
  no_empty_trace streams ->
  (exists r,
      global_data_range streams = Ok r
      /\ normalize_stage NormalizeNone min_offset scale streams =
           Ok (map (fun st =>
                      set_traces st (map (divide_by_range r min_offset scale) (traces st)))
                   streams))
  /\ (exists out,
         normalize_stage NormalizeStream min_offset scale streams = Ok out
         /\ Forall2 (fun st st' =>
                       exists r,
                         stream_range st = Ok r
                         /\ st' = set_traces st
                                    (map (divide_by_range r min_offset scale) (traces st)))
                    streams out).
Proof.
  intros Hne Hcol Hd. split.
  - destruct (global_data_range_ok Hne Hcol Hd) as [r Hr].
    destruct (normalize_stage_spec NormalizeNone min_offset scale Hne Hcol Hd)
      as [out [Hout HN]].
    exists r. split; [exact Hr|]. rewrite Hout. f_equal.
    apply Forall2_eq_map. eapply Forall2_impl; [|exact HN].
    intros st st' [Hf Ht]. apply set_traces_eta; [exact Hf|].
    apply Forall2_eq_map. eapply Forall2_impl; [|exact Ht].
    intros tr tr' [r' [Hr' ->]]. simpl in Hr'. rewrite Hr in Hr'.
    now injection Hr' as <-.
  - destruct (normalize_stage_spec NormalizeStream min_offset scale Hne Hcol Hd)
      as [out [Hout HN]].
    exists out. split; [exact Hout|].
    unfold normalized_by in HN.
    pose proof (Forall2_with_left HN Hcol) as HN'.
    eapply Forall2_impl; [|exact HN']. intros st st' [Hst [Hf Ht]]. cbv beta in Hst.
    destruct (traces st) as [|tr0 trs] eqn:Et; [congruence|].
    inversion Ht as [|? tr0' ? trs' [r [Hr _]] _ E1 E2]; subst.
    simpl in Hr. exists r. split; [exact Hr|].
    apply set_traces_eta; [exact Hf|].
    apply Forall2_eq_map. eapply Forall2_impl; [|exact Ht].
    intros tr tr' [r' [Hr' ->]]. simpl in Hr'. rewrite Hr in Hr'.
    now injection Hr' as <-.
Qed.

(** X12.  For a single collection the global policy and the policy
    ["stream"] do the same, whatever the collection is: the same
    collection is returned or the same exception raised. *)
Theorem normalize_single_collection (min_offset scale : Q) (st : SUFile) :
  normalize_stage NormalizeNone min_offset scale [st] =
  normalize_stage NormalizeStream min_offset scale [st].
Proof.
  unfold normalize_stage, global_data_range.
  cbn [mapM mapAccumM rbind]. unfold normalize_stream.
  destruct (stream_max st) as [hi|e]; [|reflexivity]. cbn [rbind].
  destruct (stream_min st) as [lo|e]; [|reflexivity]. cbn [rbind map fst snd].
  unfold py_min, py_max, py_best. cbn [fold_left rbind]. reflexivity.
Qed.

Lemma Forall2_functional (A B : Type) (P : A -> Prop) (R S : A -> B -> Prop)
    (l : list A) (l1 l2 : list B) :
  (forall a b c, P a -> R a b -> S a c -> b = c) ->
  Forall P l -> Forall2 R l l1 -> Forall2 S l l2 -> l1 = l2.
Proof.
  intros H HP HR. revert l2. induction HR as [|a b l l1 Hab _ IH]; intros l2 HS.
  - now inversion HS.
  - inversion HS as [|? c ? l2' Hac HS']; subst. inversion HP; subst.
    f_equal; eauto.
Qed.

Lemma stream_range_one_trace (st : SUFile) (tr : Trace) :
  traces st = [tr] -> stream_range st = own_range tr.
Proof.
  intros E. unfold stream_range, stream_max, stream_min, own_range. rewrite E.
  cbn [mapM]. destruct (np_max (data tr)) as [hi|e]; [|reflexivity].
  destruct (np_min (data tr)) as [lo|e]; reflexivity.
Qed.

(** X13.  When every collection has exactly one trace (with a sample)
    the policies ["stream"] and ["traces"] return the same collections. *)
Theorem normalize_one_trace_each (min_offset scale : Q) (streams : list SUFile) :
  streams <> [] ->
  one_trace_each streams ->
  no_empty_trace streams ->
  exists out,
    normalize_stage NormalizeStream min_offset scale streams = Ok out
    /\ normalize_stage NormalizeTraces min_offset scale streams = Ok out.
Proof.
  intros Hne Hone Hd.
  assert (Hcol : no_empty_collection streams).
  { eapply Forall_impl; [|exact Hone]. intros st [tr E]. rewrite E. discriminate. }
  destruct (normalize_stage_spec NormalizeStream min_offset scale Hne Hcol Hd)
    as [out1 [Hout1 HN1]].
  destruct (normalize_stage_spec NormalizeTraces min_offset scale Hne Hcol Hd)
    as [out2 [Hout2 HN2]].
  exists out1. split; [exact Hout1|]. rewrite Hout2. f_equal. symmetry.
  eapply Forall2_functional; [|exact Hone|exact HN1|exact HN2].
  intros st st1 st2 [tr E] [Hf1 Ht1] [Hf2 Ht2]. rewrite E in Ht1, Ht2.
  inversion Ht1 as [|? tr1 ? l1 [r1 [Hr1 E1]] Hl1 Ea1 Eb1]; subst.
  inversion Ht2 as [|? tr2 ? l2 [r2 [Hr2 E2]] Hl2 Ea2 Eb2]; subst.
  inversion Hl1; subst. inversion Hl2; subst.
  simpl in Hr1, Hr2. rewrite (stream_range_one_trace st E), Hr2 in Hr1.
  injection Hr1 as <-.
  destruct st1 as [t1 f1], st2 as [t2 f2]. simpl in *. congruence.
Qed.

(** ** Further properties: the bounds of the plot loop *)

Lemma num_le_refl (a : num) : is_nan a = false -> num_le a a.
Proof. intros H. unfold num_le. auto using num_ltb_irrefl. Qed.

Lemma pick_min (a m : num) :
  is_nan a = false -> is_nan m = false ->
  let r := if num_ltb a m then a else m in
  is_nan r = false /\ num_le r a /\ num_le r m /\ (r = m \/ r = a).
Proof.
  intros Ha Hm. destruct (num_ltb a m) eqn:E; cbv zeta.
  - split; [exact Ha|]. split; [now apply num_le_refl|].
    split; [|now right]. unfold num_le. auto using num_ltb_asym.
  - split; [exact Hm|]. split; [unfold num_le; auto|].
    split; [now apply num_le_refl|now left].
Qed.

Lemma pick_max (a m : num) :
  is_nan a = false -> is_nan m = false ->
  let r := if num_gtb a m then a else m in
  is_nan r = false /\ num_le a r /\ num_le m r /\ (r = m \/ r = a).
Proof.
  intros Ha Hm. unfold num_gtb. destruct (num_ltb m a) eqn:E; cbv zeta.
  - split; [exact Ha|]. split; [now apply num_le_refl|].
    split; [|now right]. unfold num_le. auto using num_ltb_asym.
  - split; [exact Hm|]. split; [unfold num_le; auto|].
    split; [now apply num_le_refl|now left].
Qed.

Lemma trace_x_no_nan (delta : Z) (tr : Trace) : no_nan (trace_x delta tr).
Proof. unfold no_nan, trace_x. apply Forall_map. now apply Forall_forall. Qed.

Lemma observe_encloses (delta : Z) (b : Bounds) (tr : Trace) :
  no_nan_bounds b -> data tr <> [] -> no_nan (data tr) ->
  let b' := observe math_sqrt delta b tr in
  no_nan_bounds b' /\ widens b b' /\ encloses math_sqrt delta b' tr
  /\ (min_y b' = min_y b \/ In (min_y b') (shifted math_sqrt tr))
  /\ (max_y b' = max_y b \/ In (max_y b') (shifted math_sqrt tr)).
Proof.
  intros [Hb1 [Hb2 Hb3]] Hd Hn. unfold observe.
  assert (Hy : shifted math_sqrt tr <> []) by now apply shift_nonempty.
  assert (Hyn : no_nan (shifted math_sqrt tr)) by now apply shift_no_nan.
  destruct (py_max_spec Hy Hyn) as [hi [-> [Hhi Hmax]]].
  destruct (py_min_spec Hy Hyn) as [lo [-> [Hlo Hmin]]].
  destruct (py_max_spec (trace_x_nonempty delta tr Hd) (trace_x_no_nan delta tr))
    as [xhi [-> [Hxhi Hxmax]]].
  assert (Nlo : is_nan lo = false) by apply (Hmin lo Hlo).
  assert (Nhi : is_nan hi = false) by apply (Hmax hi Hhi).
  assert (Nxhi : is_nan xhi = false) by apply (Hxmax xhi Hxhi).
  destruct (pick_min lo (min_y b) Nlo Hb1) as [P1 [P2 [P3 P4]]].
  destruct (pick_max hi (max_y b) Nhi Hb2) as [Q1 [Q2 [Q3 Q4]]].
  destruct (pick_max xhi (max_x b) Nxhi Hb3) as [R1 [R2 [R3 _]]].
  cbv zeta. unfold no_nan_bounds, widens, encloses, within, update_bounds.
  cbn [min_y max_y max_x].
  split; [exact (conj P1 (conj Q1 R1))|].
  split; [exact (conj P3 (conj Q3 R3))|].
  split; [split|split].
  - intros v Hv. split.
    + apply num_le_trans with lo; [exact P2|now apply Hmin].
    + apply num_le_trans with hi; [now apply Hmax|exact Q2].
  - intros x Hx. apply num_le_trans with xhi; [now apply Hxmax|exact R2].
  - destruct P4 as [E|E]; [now left|right; now rewrite E].
  - destruct Q4 as [E|E]; [now left|right; now rewrite E].
Qed.

Lemma encloses_widens (delta : Z) (b b' : Bounds) (tr : Trace) :
  encloses math_sqrt delta b tr -> widens b b' -> encloses math_sqrt delta b' tr.
Proof.
  intros [Hy Hx] [W1 [W2 W3]]. split.
  - intros v Hv. destruct (Hy v Hv) as [H1 H2]. split.
    + now apply num_le_trans with (min_y b).
    + now apply num_le_trans with (max_y b).
  - intros x H. apply num_le_trans with (max_x b); auto.
Qed.

Lemma widens_refl (b : Bounds) : no_nan_bounds b -> widens b b.
Proof. intros [H1 [H2 H3]]. unfold widens. auto using num_le_refl. Qed.

Lemma widens_trans (b1 b2 b3 : Bounds) : widens b1 b2 -> widens b2 b3 -> widens b1 b3.
Proof.
  intros [A1 [A2 A3]] [B1 [B2 B3]]. unfold widens.
  split; [now apply num_le_trans with (min_y b2)|].
  split; [now apply num_le_trans with (max_y b2)|].
  now apply num_le_trans with (max_x b2).
Qed.

Lemma fold_observe_encloses (delta : Z) (trs : list Trace) :
  Forall (fun tr => data tr <> [] /\ no_nan (data tr)) trs ->
  forall b, no_nan_bounds b ->
  let b' := fold_left (observe math_sqrt delta) trs b in
  no_nan_bounds b' /\ widens b b'
  /\ (forall tr, In tr trs -> encloses math_sqrt delta b' tr)
  /\ (min_y b' = min_y b
      \/ exists tr, In tr trs /\ In (min_y b') (shifted math_sqrt tr))
  /\ (max_y b' = max_y b
      \/ exists tr, In tr trs /\ In (max_y b') (shifted math_sqrt tr)).
Proof.
  induction 1 as [|tr trs [Hd Hn] _ IH]; intros b Hb; cbv zeta.
  - simpl. split; [exact Hb|]. split; [now apply widens_refl|].
    split; [intros tr []|]. split; now left.
  - simpl.
    destruct (@observe_encloses delta b tr Hb Hd Hn) as [Hb1 [W1 [E1 [M1 X1]]]].
    destruct (IH _ Hb1) as [Hb' [W' [E' [M' X']]]].
    split; [exact Hb'|]. split; [now apply widens_trans with (observe math_sqrt delta b tr)|].
    split; [|split].
    + intros tr0 [<-|Hin]; [|now apply E'].
      now apply encloses_widens with (observe math_sqrt delta b tr).
    + destruct M' as [M'|[tr0 [Hin Hm]]].
      * rewrite M'. destruct M1 as [M1|M1]; [now left|].
        right. exists tr. split; [now left|exact M1].
      * right. exists tr0. split; [now right|exact Hm].
    + destruct X' as [X'|[tr0 [Hin Hm]]].
      * rewrite X'. destruct X1 as [X1|X1]; [now left|].
        right. exists tr. split; [now left|exact X1].
      * right. exists tr0. split; [now right|exact Hm].
Qed.

Lemma traces_well_formed (streams : list SUFile) :
  no_empty_trace streams ->
  Forall (fun tr => no_nan (data tr)) (all_traces streams) ->
  Forall (fun tr => data tr <> [] /\ no_nan (data tr)) (all_traces streams).
Proof.
  unfold no_empty_trace. rewrite !Forall_forall. intros H1 H2 tr Htr. auto.
Qed.

Lemma num_le_PInf (v : num) : num_le PInf v -> v = PInf.
Proof. intros [_ [Hn Hl]]. destruct v; simpl in *; congruence. Qed.

Lemma num_le_NInf (v : num) : num_le v NInf -> v = NInf.
Proof. intros [Hn [_ Hl]]. destruct v; simpl in *; congruence. Qed.

Lemma observe_max_x_attained (delta : Z) (b : Bounds) (tr : Trace) :
  data tr <> [] ->
  max_x (observe math_sqrt delta b tr) = max_x b
  \/ In (max_x (observe math_sqrt delta b tr)) (sample_times delta tr).
Proof.
  intros Hd. unfold observe.
  destruct (@py_best_nonempty _ num_gtb (shifted math_sqrt tr)) as [hi Hhi];
    [now apply shift_nonempty|].
  destruct (@py_best_nonempty _ num_ltb (shifted math_sqrt tr)) as [lo Hlo];
    [now apply shift_nonempty|].
  destruct (@py_best_in _ num_gtb (trace_x delta tr)) as [xhi [Hxhi Hin]];
    [now apply trace_x_nonempty|].
  fold py_max in Hhi, Hxhi. fold py_min in Hlo. rewrite Hhi, Hlo, Hxhi.
  unfold update_bounds. cbn [max_x].
  destruct (num_gtb xhi (max_x b)); [right; exact Hin|now left].
Qed.

Lemma fold_observe_max_x (delta : Z) (trs : list Trace) :
  Forall (fun tr => data tr <> []) trs ->
  forall b,
    max_x (fold_left (observe math_sqrt delta) trs b) = max_x b
    \/ exists tr, In tr trs
                  /\ In (max_x (fold_left (observe math_sqrt delta) trs b))
                        (sample_times delta tr).
Proof.
  induction 1 as [|tr trs Hd _ IH]; intros b; [now left|].
  cbn [fold_left].
  destruct (IH (observe math_sqrt delta b tr)) as [E|[tr0 [Hin Hm]]].
  - rewrite E. destruct (@observe_max_x_attained delta b tr Hd) as [E'|Hm].
    + now left.
    + right. exists tr. split; [now left|exact Hm].
  - right. exists tr0. split; [now right|exact Hm].
Qed.

(** The bounds tracked over traces without [nan] are the extremes of all
    points. *)
Lemma tracked_extremes (delta : Z) (streams : list SUFile) :
  all_traces streams <> [] ->
  no_empty_trace streams ->
  Forall (fun tr => no_nan (data tr)) (all_traces streams) ->
  extremes_of_all math_sqrt delta streams (tracked_bounds math_sqrt delta streams).
Proof.
  intros Hne Hd Hn.
  assert (Hb0 : no_nan_bounds initial_bounds) by (repeat split).
  destruct (fold_observe_encloses delta (traces_well_formed Hd Hn) Hb0)
    as [_ [_ [E [M X]]]].
  destruct (tracked_max_x_finite delta Hne Hd) as [q Hq].
  pose proof (fold_observe_max_x delta Hd initial_bounds) as MX.
  unfold tracked_bounds in *. cbn [initial_bounds min_y max_y max_x] in M, X, MX.
  set (b := fold_left (observe math_sqrt delta) (all_traces streams) initial_bounds) in *.
  assert (H0 : exists tr0 v0, In tr0 (all_traces streams) /\ In v0 (shifted math_sqrt tr0)).
  { destruct (all_traces streams) as [|tr0 rest] eqn:Et; [congruence|].
    assert (Hd0 : data tr0 <> []).
    { unfold no_empty_trace in Hd. rewrite Et in Hd. now inversion Hd. }
    exists tr0. unfold shifted. destruct (data tr0) as [|v d]; [congruence|].
    eexists. split; [now left|now left]. }
  destruct H0 as [tr0 [v0 [Ht0 Hv0]]].
  destruct (E tr0 Ht0) as [Hy0 _]. destruct (Hy0 v0 Hv0) as [Hlo0 Hhi0].
  split; [|split]; split.
  - destruct M as [M|[tr [Hin Hm]]].
    + rewrite M in *. apply num_le_PInf in Hlo0. subst v0.
      apply in_flat_map. eauto.
    + apply in_flat_map. eauto.
  - intros v Hv. apply in_flat_map in Hv. destruct Hv as [tr [Hin Hv]].
    destruct (E tr Hin) as [Hy _]. apply (Hy v Hv).
  - destruct X as [X|[tr [Hin Hm]]].
    + rewrite X in *. apply num_le_NInf in Hhi0. subst v0.
      apply in_flat_map. eauto.
    + apply in_flat_map. eauto.
  - intros v Hv. apply in_flat_map in Hv. destruct Hv as [tr [Hin Hv]].
    destruct (E tr Hin) as [Hy _]. apply (Hy v Hv).
  - destruct MX as [MX|[tr [Hin Hm]]]; [congruence|].
    apply in_flat_map. eauto.
  - intros v Hv. apply in_flat_map in Hv. destruct Hv as [tr [Hin Hv]].
    destruct (E tr Hin) as [_ Hx]. apply (Hx v Hv).
Qed.

(** C4 (amended).  Given a colour and a label for every collection and
    at least one sample in every trace, the plot loop ends with the same
    running bounds whether [clip_partial_traces] is set or not.  Without
    clipping the curve of every trace is drawn: its offset-shifted
    samples against the sample times.  When no sample is [nan], with
    clipping the curves drawn are those of the traces none of whose
    offset-shifted samples is below the explicit [ymin] or above the
    explicit [ymax], so a trace partly outside is not drawn at all; and
    the bounds are the minimum and the maximum over the points of all
    traces, whether drawn or not. *)
Theorem plot_loop_clipping (ymin ymax : option Q) (delta : Z)
    (colors labels : list string) (streams : list SUFile) :
  (List.length streams <= List.length colors)%nat ->
  (List.length streams <= List.length labels)%nat ->
  no_empty_trace streams ->
  exists events_on events_off,
    plot_loop math_sqrt true ymin ymax delta colors labels streams =
      (events_on, Ok (tracked_bounds math_sqrt delta streams))
    /\ plot_loop math_sqrt false ymin ymax delta colors labels streams =
         (events_off, Ok (tracked_bounds math_sqrt delta streams))
    /\ drawn events_off = curves_of math_sqrt (fun _ => true) delta colors streams
    /\ (Forall (fun tr => no_nan (data tr)) (all_traces streams) ->
        drawn events_on =
          curves_of math_sqrt
            (fun tr => negb (partly_outside ymin ymax (shifted math_sqrt tr)))
            delta colors streams
        /\ (all_traces streams <> [] ->
            extremes_of_all math_sqrt delta streams
              (tracked_bounds math_sqrt delta streams))).
Proof.
  intros Hc Hl Hd.
  destruct (@plot_streams_run true ymin ymax delta colors labels streams Hd 0%nat
              initial_bounds Hc Hl) as [on [Hon Don]].
  destruct (@plot_streams_run false ymin ymax delta colors labels streams Hd 0%nat
              initial_bounds Hc Hl) as [off [Hoff Doff]].
  exists on, off.
  split; [exact Hon|]. split; [exact Hoff|]. split; [rewrite Doff; reflexivity|].
  intros Hn. split; [|intros Hne; now apply tracked_extremes].
  rewrite Don. apply curves_of_ext. intros tr Htr.
  unfold kept_by_loop. cbn [andb]. f_equal. apply clipped_by_code_spec.
  - apply shift_nonempty. unfold no_empty_trace in Hd.
    rewrite Forall_forall in Hd. now apply Hd.
  - apply shift_no_nan. rewrite Forall_forall in Hn. now apply Hn.
Qed.

(** X14.  When every trace has a sample and no sample is [nan], the
    bounds that the plot loop has tracked contain every point of every
    curve, of the traces drawn and of the traces clipped alike: every
    offset-shifted sample lies between [min_y] and [max_y] and every
    time is at most [max_x]. *)
Theorem tracked_bounds_enclose (delta : Z) (streams : list SUFile) :
  no_empty_trace streams ->
  Forall (fun tr => no_nan (data tr)) (all_traces streams) ->
  forall tr, In tr (all_traces streams) ->
             encloses math_sqrt delta (tracked_bounds math_sqrt delta streams) tr.
Proof.
  intros Hd Hn.
  destruct (@fold_observe_encloses delta (all_traces streams)
              (traces_well_formed Hd Hn) initial_bounds) as [_ [_ [H _]]].
  - unfold no_nan_bounds. auto.
  - exact H.
Qed.

Lemma all_finite_no_nan (d : list num) : all_finite d -> no_nan d.
Proof.
  unfold all_finite, no_nan. apply Forall_impl. now intros [].
Qed.

Lemma shifted_finite (tr : Trace) (v : num) :
  all_finite (data tr) -> In v (shifted math_sqrt tr) -> exists q, v = Fin q.
Proof.
  unfold shifted, shift, all_finite. intros Hf Hv.
  apply in_map_iff in Hv. destruct Hv as [s [<- Hs]].
  rewrite Forall_forall in Hf. specialize (Hf s Hs).
  destruct s; try discriminate. simpl. eauto.
Qed.

Lemma num_le_finite (a b : Q) : num_le (Fin a) (Fin b) <-> (a <= b)%Q.
Proof.
  unfold num_le. simpl. rewrite Qltb_ge. tauto.
Qed.

Lemma trace_x_nonneg (delta : Z) (tr : Trace) (x : num) :
  0 <= delta -> In x (trace_x delta tr) -> num_le (Fin 0) x.
Proof.
  intros Hdelta Hx. unfold trace_x in Hx. apply in_map_iff in Hx.
  destruct Hx as [i [<- _]]. apply num_le_finite.
  apply Qle_shift_div_l; [reflexivity|]. rewrite Qmult_0_l.
  change 0%Q with (inject_Z 0). rewrite <- Zle_Qle. nia.
Qed.

(** For finite samples the tracked y range is finite and holds every
    offset-shifted sample. *)
Lemma tracked_range_finite (delta : Z) (streams : list SUFile) :
  all_traces streams <> [] ->
  no_empty_trace streams ->
  Forall (fun tr => all_finite (data tr)) (all_traces streams) ->
  let b := tracked_bounds math_sqrt delta streams in
  exists lo hi,
    min_y b = Fin lo /\ max_y b = Fin hi /\ (lo <= hi)%Q
    /\ forall tr, In tr (all_traces streams) ->
         (forall v, In v (shifted math_sqrt tr) ->
                    exists q, v = Fin q /\ (lo <= q)%Q /\ (q <= hi)%Q)
         /\ (forall x, In x (trace_x delta tr) -> num_le x (max_x b)).
Proof.
  intros Hne Hd Hf. cbv zeta.
  assert (Hn : Forall (fun tr => no_nan (data tr)) (all_traces streams)).
  { eapply Forall_impl; [|exact Hf]. intros tr. apply all_finite_no_nan. }
  destruct (@fold_observe_encloses delta (all_traces streams)
              (traces_well_formed Hd Hn) initial_bounds)
    as [_ [_ [E [M X]]]]; [unfold no_nan_bounds; auto|].
  fold (tracked_bounds math_sqrt delta streams) in E, M, X.
  set (b := tracked_bounds math_sqrt delta streams) in *.
  rewrite Forall_forall in Hf.
  assert (H0 : exists tr0 q0, In tr0 (all_traces streams)
                              /\ In (Fin q0) (shifted math_sqrt tr0)).
  { unfold no_empty_trace in Hd.
    destruct (all_traces streams) as [|tr0 rest] eqn:Etr; [congruence|].
    inversion Hd as [|? ? Hd0 _]; subst.
    destruct (shifted math_sqrt tr0) as [|v0 l] eqn:Es.
    - exfalso. revert Es. now apply shift_nonempty.
    - destruct (@shifted_finite tr0 v0) as [q0 E0];
        [apply Hf; now left|rewrite Es; now left|].
      exists tr0, q0. split; [now left|]. rewrite Es, <- E0. now left. }
  destruct H0 as [tr0 [q0 [Hin0 Hq0]]].
  destruct (E tr0 Hin0) as [Ey0 _]. destruct (Ey0 _ Hq0) as [Hlo0 Hhi0].
  assert (Hmin : exists lo, min_y b = Fin lo).
  { destruct M as [M|[tr [Hin Hm]]].
    - rewrite M in Hlo0. destruct Hlo0 as [_ [_ H]]. discriminate.
    - now apply (@shifted_finite tr (min_y b) (Hf tr Hin)). }
  assert (Hmax : exists hi, max_y b = Fin hi).
  { destruct X as [X|[tr [Hin Hm]]].
    - rewrite X in Hhi0. destruct Hhi0 as [_ [_ H]]. discriminate.
    - now apply (@shifted_finite tr (max_y b) (Hf tr Hin)). }
  destruct Hmin as [lo Hlo]. destruct Hmax as [hi Hhi].
  rewrite Hlo in Hlo0. rewrite Hhi in Hhi0.
  apply num_le_finite in Hlo0. apply num_le_finite in Hhi0.
  exists lo, hi. split; [exact Hlo|]. split; [exact Hhi|]. split; [lra|].
  intros tr Hin. destruct (E tr Hin) as [Hy Hx]. split; [|exact Hx].
  intros v Hv. destruct (@shifted_finite tr v (Hf tr Hin) Hv) as [q ->].
  destruct (Hy _ Hv) as [H1 H2]. rewrite Hlo in H1. rewrite Hhi in H2.
  apply num_le_finite in H1. apply num_le_finite in H2. eauto.
Qed.

(** X15.  With no explicit bound, a sample interval that is not
    negative and finite samples (at least one trace, a sample in every
    trace), the tracked y range is a finite [[lo, hi]] with [lo <= hi],
    the final y limits are [lo - (hi - lo)/50] and [hi + (hi - lo)/50],
    and every point of every curve lies within the final y limits and
    within the final x limits [[0, max_x]]. *)
Theorem automatic_limits_enclose (delta : Z) (streams : list SUFile) :
  0 <= delta ->
  all_traces streams <> [] ->
  no_empty_trace streams ->
  Forall (fun tr => all_finite (data tr)) (all_traces streams) ->
  let b := tracked_bounds math_sqrt delta streams in
  let ylim := limit_offset_axis None None b in
  let xlim := limit_time_axis None None b in
  exists lo hi,
    min_y b = Fin lo /\ max_y b = Fin hi /\ (lo <= hi)%Q
    /\ ylim = (Fin (lo - (hi - lo) / 50), Fin (hi + (hi - lo) / 50))
    /\ forall tr, In tr (all_traces streams) ->
         (forall v, In v (shifted math_sqrt tr) -> within (fst ylim) (snd ylim) v)
         /\ (forall x, In x (trace_x delta tr) -> within (fst xlim) (snd xlim) x).
Proof.
  intros Hdelta Hne Hd Hf. cbv zeta.
  destruct (tracked_range_finite delta Hne Hd Hf) as [lo [hi [Hlo [Hhi [Hle E]]]]].
  assert (Hpad : (0 <= (hi - lo) / 50)%Q).
  { apply Qle_shift_div_l; [reflexivity|]. lra. }
  assert (Ey : limit_offset_axis None None (tracked_bounds math_sqrt delta streams)
               = (Fin (lo - (hi - lo) / 50), Fin (hi + (hi - lo) / 50))).
  { unfold limit_offset_axis. rewrite Hlo, Hhi. reflexivity. }
  exists lo, hi. split; [exact Hlo|]. split; [exact Hhi|]. split; [exact Hle|].
  split; [exact Ey|]. intros tr Hin. rewrite Ey. cbn [fst snd].
  destruct (E tr Hin) as [Hy Hx]. split.
  - intros v Hv. destruct (Hy v Hv) as [q [-> [H1 H2]]].
    split; apply num_le_finite; lra.
  - intros x Hxin. split; [|now apply Hx].
    now apply trace_x_nonneg with delta tr.
Qed.

Lemma existsb_false_all (A : Type) (f : A -> bool) (l : list A) (a : A) :
  existsb f l = false -> In a l -> f a = false.
Proof.
  intros H Ha. destruct (f a) eqn:E; [|reflexivity].
  rewrite <- H. symmetry. apply existsb_exists. eauto.
Qed.

(** X16.  With [clip_partial_traces] set and finite samples, every
    point of every curve that is drawn lies within the final y limits,
    whatever explicit [ymin] and [ymax] are given: a kept bound is one
    that the drawn traces respect, and a replaced bound is the padded
    observed one. *)
Theorem clipped_curves_within_limits (ymin ymax : option Q) (delta : Z)
    (streams : list SUFile) :
  all_traces streams <> [] ->
  no_empty_trace streams ->
  Forall (fun tr => all_finite (data tr)) (all_traces streams) ->
  let ylim := limit_offset_axis ymin ymax (tracked_bounds math_sqrt delta streams) in
  forall tr,
    In tr (all_traces streams) ->
    kept_by_loop math_sqrt true ymin ymax tr = true ->
    forall v, In v (shifted math_sqrt tr) -> within (fst ylim) (snd ylim) v.
Proof.
  intros Hne Hd Hf. cbv zeta. intros tr Hin Hk v Hv.
  destruct (tracked_range_finite delta Hne Hd Hf) as [lo [hi [Hlo [Hhi [Hle E]]]]].
  destruct (E tr Hin) as [Hy _]. destruct (Hy v Hv) as [q [-> [H1 H2]]].
  assert (Hpad : (0 <= (hi - lo) / 50)%Q).
  { apply Qle_shift_div_l; [reflexivity|]. lra. }
  assert (Hout : partly_outside ymin ymax (shifted math_sqrt tr) = false).
  { rewrite <- clipped_by_code_spec.
    - unfold kept_by_loop in Hk. cbn [andb] in Hk. now apply negb_true_iff in Hk.
    - apply shift_nonempty. unfold no_empty_trace in Hd.
      rewrite Forall_forall in Hd. now apply Hd.
    - apply shift_no_nan. apply all_finite_no_nan.
      rewrite Forall_forall in Hf. now apply Hf. }
  unfold partly_outside in Hout. apply orb_false_iff in Hout.
  destruct Hout as [Hbelow Habove].
  unfold limit_offset_axis. rewrite Hlo, Hhi. cbn [fst snd]. split.
  - destruct ymin as [m|]; [|apply num_le_finite; lra].
    pose proof (existsb_false_all _ _ (Fin q) Hbelow Hv) as Hm. simpl in Hm.
    apply Qltb_ge in Hm. simpl.
    destruct (Qltb m lo); apply num_le_finite; lra.
  - destruct ymax as [m|]; [|apply num_le_finite; lra].
    pose proof (existsb_false_all _ _ (Fin q) Habove Hv) as Hm.
    unfold num_gtb in Hm. simpl in Hm. apply Qltb_ge in Hm.
    unfold num_gtb. simpl.
    destruct (Qltb hi m); apply num_le_finite; lra.
Qed.

Lemma Exists_Forall2_pick (A B : Type) (P : A -> Prop) (R : A -> B -> Prop)
    (l : list A) (l' : list B) :
  Exists P l -> Forall2 R l l' -> exists a b, P a /\ R a b /\ In b l'.
Proof.
  intros HE HF. induction HF as [|a b l l' Hab HF IH].
  - inversion HE.
  - inversion HE as [? ? Ha|? ? Hl]; subst.
    + exists a, b. split; [exact Ha|]. split; [exact Hab|]. now left.
    + destruct (IH Hl) as [a' [b' [Ha' [Hr Hin]]]].
      exists a', b'. split; [exact Ha'|]. split; [exact Hr|]. now right.
Qed.

(** X17.  When one collection has a single trace its offset spacing is
    [(max - min) / 1 = 0], so [min_offset] is zero; under the policy
    ["traces"] every trace of every collection whose samples are finite
    and not all equal is then divided by an infinite number and comes out
    with all samples zero: the amplitudes are lost. *)
Theorem single_trace_collection_flattens (scale : Q) (streams : list SUFile) :
  no_empty_collection streams ->
  no_empty_trace streams ->
  Exists (fun st => exists tr, traces st = [tr]) streams ->
  exists m out,
    get_min_offset math_sqrt streams = Ok m
    /\ (m == 0)%Q
    /\ normalize_stage NormalizeTraces m scale streams = Ok out
    /\ Forall2 (fun st st' =>
                  Forall2 (fun tr tr' =>
                             forall samples,
                               data tr = map Fin samples -> ~ flat samples ->
                               data tr' = map Fin (map (fun _ => 0%Q) samples))
                          (traces st) (traces st'))
               streams out.
Proof.
  intros Hcol Hd Hone.
  assert (Hne : streams <> []) by (intros ->; inversion Hone).
  destruct (get_min_offset_spec Hne Hcol) as [m [Hm Hspec]].
  destruct (normalize_stage_spec NormalizeTraces m scale Hne Hcol Hd) as [out [Hout HN]].
  pose proof (min_offset_nonneg Hspec) as Hpos.
  assert (Hzero : (m == 0)%Q).
  { destruct Hspec as [qs [HF [_ Hleast]]].
    destruct (Exists_Forall2_pick Hone HF) as [st [q [[tr Htr] [Hq Hin]]]].
    destruct Hq as [hi [lo [[Hhi _] [[Hlo _] ->]]]].
    rewrite Htr in Hhi, Hlo. simpl in Hhi, Hlo.
    destruct Hhi as [<-|[]]. destruct Hlo as [<-|[]].
    specialize (Hleast _ Hin). rewrite Htr in Hleast. simpl in Hleast.
    assert (E : ((offset_of math_sqrt tr - offset_of math_sqrt tr) / inject_Z 1 == 0)%Q)
      by (unfold Qdiv; ring).
    change (inject_Z (Z.of_nat 1)) with (inject_Z 1) in Hleast. lra. }
  exists m, out. repeat (split; [assumption|]).
  eapply Forall2_impl; [|exact HN]. intros st st' [_ HF]. cbv beta.
  eapply Forall2_impl; [|exact HF]. intros tr tr' [r [Hr ->]].
  intros samples Hs Hnf. cbn [applicable_range] in Hr.
  destruct (own_range_finite tr Hs (not_flat_nonempty Hnf)) as [hi [lo [Hr' [Hg Hl]]]].
  rewrite Hr' in Hr. injection Hr as <-.
  pose proof (extremes_apart Hg Hl Hnf) as Hlt.
  cbn [set_data data]. rewrite Hs.
  change (num_abs (Fin (hi - lo))) with (Fin (Qabs (hi - lo))).
  apply rescale_by_infinity.
  - rewrite Hzero. ring.
  - rewrite Qabs_pos by lra. lra.
Qed.

Lemma calls_all_accepted (accepts : event -> bool) (events : list event) :
  Forall (fun e => accepts e = true) events ->
  calls_until_rejected accepts events = (events, false).
Proof.
  induction 1 as [|e rest He _ IH]; [reflexivity|].
  cbn [calls_until_rejected]. now rewrite He, IH.
Qed.

Lemma calls_first_rejected (accepts : event -> bool) (before after : list event)
    (e : event) :
  Forall (fun e => accepts e = true) before ->
  accepts e = false ->
  calls_until_rejected accepts (before ++ e :: after) = ((before ++ [e])%list, true).
Proof.
  intros Hb He. induction Hb as [|e0 rest H0 _ IH].
  - simpl. now rewrite He.
  - simpl. now rewrite H0, IH.
Qed.

Lemma all_traces_nonempty (streams : list SUFile) :
  streams <> [] -> no_empty_collection streams -> all_traces streams <> [].
Proof.
  intros Hne Hcol. destruct streams as [|st rest]; [congruence|].
  inversion Hcol as [|? ? Hst _]; subst. unfold all_traces. cbn [flat_map].
  destruct (traces st); [congruence|discriminate].
Qed.

Lemma limits_finite (cfg : Config) (b : Bounds) (lo hi xhi : Q) :
  min_y b = Fin lo -> max_y b = Fin hi -> max_x b = Fin xhi ->
  exists ylo yhi xlo xhi',
    limit_offset_axis (ymin cfg) (ymax cfg) b = (Fin ylo, Fin yhi)
    /\ limit_time_axis (xmin cfg) (xmax cfg) b = (Fin xlo, Fin xhi').
Proof.
  intros Hlo Hhi Hx. unfold limit_offset_axis, limit_time_axis.
  rewrite Hlo, Hhi, Hx. unfold num_gtb. cbn [num_ltb num_sub num_add].
  assert (Hs : exists p, num_div (Fin (hi - lo)) (Fin 50) = Fin p).
  { eexists. reflexivity. }
  destruct Hs as [p Hp]. rewrite Hp. cbn [num_add num_sub].
  destruct (ymin cfg) as [v|], (ymax cfg) as [w|], (xmin cfg) as [x|], (xmax cfg) as [y|];
    repeat match goal with |- context [if ?c then _ else _] => destruct c end;
    do 4 eexists; split; reflexivity.
Qed.

(** X6.  For one to five collections that all have a trace, traces that
    all have a sample, and a figure given or a non-zero [dpi], the code
    of [plotBenchmark] itself raises nothing.  The calls it makes are, in
    this order, those of the figure (none when a figure is given), the
    [Plot] calls of the prepared collections, the y and x limits computed
    from the bounds tracked over all prepared traces, the axis labels, the
    legend when asked for, and the calls of the one output mode that
    applies.  When the library accepts all of them the function returns
    the image string when only a format is given, the given figure when
    neither an output file nor a format is given, and [None] otherwise;
    when the library raises at one of them, the function raises there,
    after the calls before it and none after.  When the prepared samples
    are all finite, so are the limits passed to [set_ylim] and
    [set_xlim]. *)
Theorem plotBenchmark_renders (accepts : event -> bool) (cfg : Config)
    (streams : list SUFile) :
  streams <> [] ->
  no_empty_collection streams ->
  no_empty_trace streams ->
  (List.length streams <= 5)%nat ->
  figure_available cfg ->
  exists delta out m,
    get_delta streams = Ok delta
    /\ prepared math_sqrt cfg streams out m
    /\ let b := tracked_bounds math_sqrt delta out in
       let calls :=
         (figure_events cfg
          ++ loop_plots math_sqrt (clip_partial_traces cfg) (ymin cfg) (ymax cfg) delta
               palette (get_labels out) out
          ++ axis_events cfg b
          ++ output_events cfg)%list in
       (Forall (fun e => accepts e = true) calls ->
        run_with accepts (plotBenchmark math_sqrt cfg streams)
        = (calls, Returns (returned cfg)))
       /\ (forall before e after,
              calls = (before ++ e :: after)%list ->
              Forall (fun e => accepts e = true) before ->
              accepts e = false ->
              run_with accepts (plotBenchmark math_sqrt cfg streams)
              = ((before ++ [e])%list, LibraryRaises))
       /\ (Forall (fun tr => all_finite (data tr)) (all_traces out) ->
           exists ylo yhi xlo xhi,
             limit_offset_axis (ymin cfg) (ymax cfg) b = (Fin ylo, Fin yhi)
             /\ limit_time_axis (xmin cfg) (xmax cfg) b = (Fin xlo, Fin xhi)).
Proof.
  intros Hne Hcol Hd Hn Ha.
  destruct (get_delta_ok Hne Hcol) as [delta Hdelta].
  destruct (prepare_ok cfg Hne Hcol Hd) as [out [m [Hp [Hl [Hd' _]]]]].
  exists delta, out, m. split; [exact Hdelta|]. split; [exact Hp|].
  cbv zeta.
  assert (Hrun : plotBenchmark math_sqrt cfg streams =
                 ((figure_events cfg
                   ++ loop_plots math_sqrt (clip_partial_traces cfg) (ymin cfg)
                        (ymax cfg) delta palette (get_labels out) out
                   ++ axis_events cfg (tracked_bounds math_sqrt delta out)
                   ++ output_events cfg)%list,
                  Ok (returned cfg))).
  { rewrite (plotBenchmark_prepared Hne Hdelta Hp).
    apply render_events; [exact Ha| |exact Hd'].
    now rewrite (same_layout_length Hl). }
  rewrite Hrun. unfold run_with. cbn [fst snd].
  split; [|split].
  - intros Hall. now rewrite (@calls_all_accepted accepts _ Hall).
  - intros before e after -> Hb He.
    now rewrite (@calls_first_rejected accepts before after e Hb He).
  - intros Hf.
    assert (Hout : all_traces out <> []).
    { apply all_traces_nonempty.
      - intros E. apply Hne. apply length_zero_iff_nil.
        rewrite <- (same_layout_length Hl), E. reflexivity.
      - exact (same_layout_no_empty_collection Hl Hcol). }
    destruct (tracked_range_finite delta Hout Hd' Hf) as [lo [hi [Hlo [Hhi _]]]].
    destruct (tracked_max_x_finite delta Hout Hd') as [xhi Hx].
    exact (limits_finite cfg _ Hlo Hhi Hx).
Qed.

End Properties.

(** ** The properties on concrete inputs *)

Lemma calcOffset_divisor_counterexample :
  spec_divisor (scalco_of unscaled_trace) = 0%Z
  /\ _calcOffset integer_sqrt unscaled_trace = Ok (1 / 1 * 5)%Q
  /\ ~ offset_follows_spec integer_sqrt unscaled_trace.
Proof.
  split; [reflexivity|]. split; [reflexivity|].
  unfold offset_follows_spec. vm_compute. discriminate.
Qed.

Lemma calcOffset_zero_scale_counterexample :
  ~ offset_fails integer_sqrt unscaled_trace.
Proof. intros [e H]. vm_compute in H. discriminate. Qed.

Lemma calcOffset_zero_scale_witness :
  exists offset,
    _calcOffset integer_sqrt unscaled_trace = Ok offset
    /\ (offset == integer_sqrt (squared_distance unscaled_trace))%Q.
Proof. apply (calcOffset_zero_scale integer_sqrt unscaled_trace). reflexivity. Defined.

Lemma trim_stage_aligns_witness :
  exists out,
    shortest_length uneven_streams 50
    /\ trim_stage true uneven_streams = Ok out
    /\ aligned 50 uneven_streams out
    /\ trim_stage false uneven_streams = Ok uneven_streams.
Proof.
  destruct (@trim_stage_aligns uneven_streams) as [n [out [Hs [Ht [Ha Hf]]]]].
  - discriminate.
  - repeat constructor; discriminate.
  - assert (E : n = 50%nat).
    { destruct Hs as [[tr [Hin Hlen]] Hmin].
      assert (H50 : (n <= 50)%nat).
      { apply (Hmin (long_trace 10 50)). simpl. now left. }
      simpl in Hin. destruct Hin as [<-|[<-|[<-|[]]]]; vm_compute in Hlen; lia. }
    subst n. exists out. auto.
Defined.

Lemma limit_time_axis_counterexample :
  ~ only_x_bounds_shrink observed_bounds.
Proof. intros [_ H]. apply (H 2 3); reflexivity. Qed.

Lemma limit_time_axis_witness :
  limit_time_axis (Some (-5)) (Some 1) observed_bounds = (Fin 0, Fin 1)
  /\ snd (limit_offset_axis None (Some 2) observed_bounds) = Fin 2
  /\ fst (limit_offset_axis (Some (-1)) None observed_bounds) = Fin (-1).
Proof.
  destruct (@limit_time_axis_spec (Some (-5)) (Some 1) observed_bounds 2 eq_refl)
    as [_ [_ [Hlo [_ [_ [Hhi [_ [Hy Hy']]]]]]]].
  split; [|split].
  - apply injective_projections.
    + apply (Hlo (-5) eq_refl). reflexivity.
    + apply (Hhi 1 eq_refl). discriminate.
  - apply (Hy None 2 3 eq_refl). discriminate.
  - apply (Hy' None (-1) (-2) eq_refl). discriminate.
Defined.

Lemma limit_offset_axis_counterexample :
  ~ explicit_ymax_inside_is_overridden None (Some 2) observed_bounds.
Proof.
  intros H.
  assert (E : num_eq (Fin 2) (Fin (3 + (3 - -2) / 50))).
  { apply (H 2 (-2) 3); try reflexivity; discriminate. }
  vm_compute in E. discriminate.
Qed.

Lemma limit_offset_axis_witness :
  num_eq (fst (limit_offset_axis None None observed_bounds)) (Fin (-21 # 10))
  /\ num_eq (snd (limit_offset_axis None None observed_bounds)) (Fin (31 # 10))
  /\ snd (limit_offset_axis None (Some 2) observed_bounds) = Fin 2.
Proof.
  assert (Hle : (-2 <= 3)%Q) by discriminate.
  destruct (@limit_offset_axis_spec None None observed_bounds (-2) 3 eq_refl eq_refl Hle)
    as [Hlo [Hhi _]].
  destruct (@limit_offset_axis_spec None (Some 2) observed_bounds (-2) 3 eq_refl eq_refl Hle)
    as [_ [_ [Hin _]]].
  split; [|split].
  - rewrite (Hlo eq_refl). reflexivity.
  - rewrite (Hhi eq_refl). reflexivity.
  - apply (Hin 2 eq_refl). discriminate.
Defined.

Lemma normalize_traces_range_counterexample :
  ~ every_range_is_spacing_times_scale integer_sqrt 3 sample_streams
  /\ ~ every_range_is_spacing_times_scale integer_sqrt (-3) drawable_streams.
Proof.
  split; intros H.
  - assert (E1 : get_min_offset integer_sqrt sample_streams = Ok (30 # 3))
      by (vm_compute; reflexivity).
    destruct (normalize_stage NormalizeTraces (30 # 3) 3 sample_streams)
      as [out|e] eqn:E2; [|vm_compute in E2; discriminate].
    specialize (H _ _ E1 E2). vm_compute in E2. injection E2 as <-.
    apply Forall_inv_tail in H. apply Forall_inv in H.
    destruct H as [r' [Hr He]]. vm_compute in Hr. injection Hr as <-. exact He.
  - assert (E1 : get_min_offset integer_sqrt drawable_streams = Ok (10 # 2))
      by (vm_compute; reflexivity).
    destruct (normalize_stage NormalizeTraces (10 # 2) (-3) drawable_streams)
      as [out|e] eqn:E2; [|vm_compute in E2; discriminate].
    specialize (H _ _ E1 E2). vm_compute in E2. injection E2 as <-.
    apply Forall_inv in H.
    destruct H as [r' [Hr He]]. vm_compute in Hr. injection Hr as <-.
    vm_compute in He. discriminate.
Qed.

Lemma normalize_traces_range_witness :
  exists m out,
    get_min_offset integer_sqrt sample_streams = Ok m
    /\ min_offset_spacing integer_sqrt sample_streams m
    /\ (0 <= m)%Q
    /\ normalize_stage NormalizeTraces m 3 sample_streams = Ok out
    /\ Forall2 (fun st st' => Forall2 (spread_fits m 3) (traces st) (traces st'))
               sample_streams out.
Proof.
  apply (@normalize_traces_range integer_sqrt 3 sample_streams).
  - discriminate.
  - repeat constructor; discriminate.
  - unfold no_empty_trace. simpl. repeat constructor; discriminate.
Defined.

Lemma normalize_zero_range_counterexample :
  ~ normalizer_rejects_flat NormalizeTraces 10 3 sample_streams.
Proof.
  intros H. destruct H as [e He].
  - exists flat_trace, [5; 5; 5]%Q. split; [simpl; auto|]. split; [reflexivity|].
    intros x y Hx Hy. simpl in Hx, Hy.
    destruct Hx as [<-|[<-|[<-|[]]]]; destruct Hy as [<-|[<-|[<-|[]]]]; reflexivity.
  - vm_compute in He. discriminate.
Qed.

Lemma normalize_zero_range_witness :
  exists out,
    normalize_stage NormalizeTraces 10 3 sample_streams = Ok out
    /\ Forall2 (fun st st' =>
                  Forall2 (fun tr tr' =>
                             List.length (data tr') = List.length (data tr)
                             /\ (degenerate NormalizeTraces sample_streams st tr ->
                                 all_non_finite (data tr'))
                             /\ (forall samples,
                                    NormalizeTraces = NormalizeTraces ->
                                    data tr = map Fin samples -> flat samples ->
                                    all_non_finite (data tr')))
                          (traces st) (traces st'))
               sample_streams out.
Proof.
  apply (@normalize_zero_range NormalizeTraces 10 3 sample_streams).
  - discriminate.
  - repeat constructor; discriminate.
  - unfold no_empty_trace. simpl. repeat constructor; discriminate.
Defined.

Lemma plot_loop_clipping_counterexample :
  partly_outside None (Some 50) (shifted integer_sqrt nan_trace) = true
  /\ ~ partly_outside_is_excluded integer_sqrt None (Some 50) 1000 palette
        ["Stream #0"%string] nan_streams.
Proof.
  split; [reflexivity|]. intros H.
  apply (H nan_trace "grey"%string).
  - simpl. auto.
  - reflexivity.
  - vm_compute. left. reflexivity.
Qed.

Lemma plot_loop_clipping_witness :
  exists events_on events_off,
    plot_loop integer_sqrt true None (Some 45) 1000 palette ["Stream #0"%string]
              drawable_streams =
      (events_on, Ok (tracked_bounds integer_sqrt 1000 drawable_streams))
    /\ plot_loop integer_sqrt false None (Some 45) 1000 palette ["Stream #0"%string]
                 drawable_streams =
         (events_off, Ok (tracked_bounds integer_sqrt 1000 drawable_streams))
    /\ drawn events_off = curves_of integer_sqrt (fun _ => true) 1000 palette drawable_streams
    /\ drawn events_on =
         curves_of integer_sqrt
           (fun tr => negb (partly_outside None (Some 45) (shifted integer_sqrt tr)))
           1000 palette drawable_streams
    /\ extremes_of_all integer_sqrt 1000 drawable_streams
         (tracked_bounds integer_sqrt 1000 drawable_streams).
Proof.
  destruct (@plot_loop_clipping integer_sqrt None (Some 45) 1000%Z palette
              ["Stream #0"%string] drawable_streams)
    as [on [off [Hon [Hoff [Doff H]]]]].
  - simpl. lia.
  - simpl. lia.
  - unfold no_empty_trace. simpl. repeat constructor; discriminate.
  - destruct H as [Don Hb]; [simpl; repeat constructor|].
    exists on, off. repeat (split; [assumption|]).
    apply Hb. discriminate.
Defined.

Lemma plotBenchmark_empty_collection_witness :
  exists e,
    (e = IndexError \/ e = ValueError)
    /\ plotBenchmark integer_sqrt default_config
         (sample_streams ++ [ {| traces := []; file := None |} ]) = ([], Raise e).
Proof.
  apply (@plotBenchmark_empty_collection integer_sqrt default_config
           (sample_streams ++ [ {| traces := []; file := None |} ])).
  - discriminate.
  - simpl. apply Exists_cons_tl. apply Exists_cons_hd. reflexivity.
Defined.

Lemma calcOffset_nonneg_witness :
  exists offset, _calcOffset integer_sqrt unscaled_trace = Ok offset /\ (0 <= offset)%Q.
Proof.
  apply (@calcOffset_nonneg integer_sqrt unscaled_trace).
  intros n. unfold integer_sqrt. change 0%Q with (inject_Z 0).
  rewrite <- Zle_Qle. apply Z.sqrt_nonneg.
Defined.

Lemma preparation_keeps_offsets_witness :
  exists out m,
    prepared integer_sqrt default_config uneven_streams out m
    /\ same_layout uneven_streams out
    /\ get_min_offset integer_sqrt uneven_streams = Ok m
    /\ get_min_offset integer_sqrt out = Ok m
    /\ Forall2 (fun st st' =>
                  Forall2 (fun tr tr' =>
                             _calcOffset integer_sqrt tr' = _calcOffset integer_sqrt tr)
                          (traces st) (traces st'))
               uneven_streams out.
Proof.
  apply (@preparation_keeps_offsets integer_sqrt default_config uneven_streams).
  - discriminate.
  - repeat constructor; discriminate.
  - unfold no_empty_trace. simpl. repeat constructor; discriminate.
Defined.

Lemma plot_loop_legend_witness :
  plot_loop integer_sqrt true None (Some 45) 1000 palette ["Stream #0"%string]
            drawable_streams =
    (loop_plots integer_sqrt true None (Some 45) 1000 palette ["Stream #0"%string]
                drawable_streams,
     Ok (tracked_bounds integer_sqrt 1000 drawable_streams))
  /\ legend_entries
       (loop_plots integer_sqrt true None (Some 45) 1000 palette ["Stream #0"%string]
                   drawable_streams)
     = drawn_labels integer_sqrt true None (Some 45) ["Stream #0"%string] drawable_streams.
Proof.
  apply (@plot_loop_legend integer_sqrt true None (Some 45) 1000%Z palette
           ["Stream #0"%string] drawable_streams).
  - simpl. lia.
  - simpl. lia.
  - unfold no_empty_trace. simpl. repeat constructor; discriminate.
Defined.

Lemma plotBenchmark_renders_witness :
  exists delta out m,
    get_delta drawable_streams = Ok delta
    /\ prepared integer_sqrt explicit_config drawable_streams out m
    /\ (Forall (fun e => finite_limits_only e = true)
          (figure_events explicit_config
           ++ loop_plots integer_sqrt (clip_partial_traces explicit_config)
                (ymin explicit_config) (ymax explicit_config) delta
                palette (get_labels out) out
           ++ axis_events explicit_config (tracked_bounds integer_sqrt delta out)
           ++ output_events explicit_config) ->
        run_with finite_limits_only
          (plotBenchmark integer_sqrt explicit_config drawable_streams)
        = ((figure_events explicit_config
            ++ loop_plots integer_sqrt (clip_partial_traces explicit_config)
                 (ymin explicit_config) (ymax explicit_config) delta
                 palette (get_labels out) out
            ++ axis_events explicit_config (tracked_bounds integer_sqrt delta out)
            ++ output_events explicit_config)%list,
           Returns (returned explicit_config)))
    /\ (forall before e after,
           (figure_events explicit_config
            ++ loop_plots integer_sqrt (clip_partial_traces explicit_config)
                 (ymin explicit_config) (ymax explicit_config) delta
                 palette (get_labels out) out
            ++ axis_events explicit_config (tracked_bounds integer_sqrt delta out)
            ++ output_events explicit_config)%list
           = (before ++ e :: after)%list ->
           Forall (fun e => finite_limits_only e = true) before ->
           finite_limits_only e = false ->
           run_with finite_limits_only
             (plotBenchmark integer_sqrt explicit_config drawable_streams)
           = ((before ++ [e])%list, LibraryRaises))
    /\ (Forall (fun tr => all_finite (data tr)) (all_traces out) ->
        exists ylo yhi xlo xhi,
          limit_offset_axis (ymin explicit_config) (ymax explicit_config)
            (tracked_bounds integer_sqrt delta out) = (Fin ylo, Fin yhi)
          /\ limit_time_axis (xmin explicit_config) (xmax explicit_config)
               (tracked_bounds integer_sqrt delta out) = (Fin xlo, Fin xhi)).
Proof.
  apply (@plotBenchmark_renders integer_sqrt finite_limits_only explicit_config
           drawable_streams).
  - discriminate.
  - repeat constructor; discriminate.
  - unfold no_empty_trace. simpl. repeat constructor; discriminate.
  - simpl. lia.
  - right. discriminate.
Defined.

Lemma plotBenchmark_six_collections_witness :
  plotBenchmark integer_sqrt default_config six_streams
  = (figure_events default_config, Raise TypeError).
Proof.
  apply (@plotBenchmark_six_collections integer_sqrt default_config six_streams).
  - repeat constructor; discriminate.
  - unfold no_empty_trace. simpl. repeat constructor; discriminate.
  - simpl. lia.
  - right. discriminate.
Defined.

Lemma plotBenchmark_zero_dpi_witness :
  plotBenchmark integer_sqrt zero_dpi_config drawable_streams
  = ([], Raise ZeroDivisionError).
Proof.
  apply (@plotBenchmark_zero_dpi integer_sqrt zero_dpi_config drawable_streams).
  - discriminate.
  - repeat constructor; discriminate.
  - unfold no_empty_trace. simpl. repeat constructor; discriminate.
  - reflexivity.
  - reflexivity.
Defined.

Lemma plotBenchmark_empty_trace_witness :
  plotBenchmark integer_sqrt default_config empty_trace_streams = ([], Raise ValueError).
Proof.
  apply (@plotBenchmark_empty_trace integer_sqrt default_config empty_trace_streams).
  - repeat constructor; discriminate.
  - simpl. apply Exists_cons_tl. apply Exists_cons_hd. reflexivity.
Defined.

Lemma trim_stage_idempotent_witness :
  exists out,
    trim_stage true uneven_streams = Ok out /\ trim_stage true out = Ok out.
Proof.
  apply (@trim_stage_idempotent uneven_streams).
  - discriminate.
  - repeat constructor; discriminate.
Defined.

Lemma normalize_shared_divisor_witness :
  (exists r,
      global_data_range uneven_streams = Ok r
      /\ normalize_stage NormalizeNone 5 3 uneven_streams =
           Ok (map (fun st =>
                      set_traces st (map (divide_by_range r 5 3) (traces st)))
                   uneven_streams))
  /\ (exists out,
         normalize_stage NormalizeStream 5 3 uneven_streams = Ok out
         /\ Forall2 (fun st st' =>
                       exists r,
                         stream_range st = Ok r
                         /\ st' = set_traces st
                                    (map (divide_by_range r 5 3) (traces st)))
                    uneven_streams out).
Proof.
  apply (@normalize_shared_divisor 5 3 uneven_streams).
  - discriminate.
  - repeat constructor; discriminate.
  - unfold no_empty_trace. simpl. repeat constructor; discriminate.
Defined.

Lemma normalize_one_trace_each_witness :
  exists out,
    normalize_stage NormalizeStream 10 3 single_trace_streams = Ok out
    /\ normalize_stage NormalizeTraces 10 3 single_trace_streams = Ok out.
Proof.
  apply (@normalize_one_trace_each 10 3 single_trace_streams).
  - discriminate.
  - repeat constructor; eexists; reflexivity.
  - unfold no_empty_trace. simpl. repeat constructor; discriminate.
Defined.

Lemma tracked_bounds_enclose_witness :
  encloses integer_sqrt 1000 (tracked_bounds integer_sqrt 1000 drawable_streams)
           (make_trace 1 20 0 [1; 2; 3]%Q).
Proof.
  apply (@tracked_bounds_enclose integer_sqrt 1000%Z drawable_streams).
  - unfold no_empty_trace. simpl. repeat constructor; discriminate.
  - simpl. repeat constructor.
  - simpl. auto.
Defined.

Lemma automatic_limits_enclose_witness :
  exists lo hi,
    min_y (tracked_bounds integer_sqrt 1000 drawable_streams) = Fin lo
    /\ max_y (tracked_bounds integer_sqrt 1000 drawable_streams) = Fin hi
    /\ (lo <= hi)%Q
    /\ limit_offset_axis None None (tracked_bounds integer_sqrt 1000 drawable_streams)
       = (Fin (lo - (hi - lo) / 50), Fin (hi + (hi - lo) / 50))
    /\ forall tr, In tr (all_traces drawable_streams) ->
         (forall v, In v (shifted integer_sqrt tr) ->
            within
              (fst (limit_offset_axis None None
                      (tracked_bounds integer_sqrt 1000 drawable_streams)))
              (snd (limit_offset_axis None None
                      (tracked_bounds integer_sqrt 1000 drawable_streams))) v)
         /\ (forall x, In x (trace_x 1000 tr) ->
               within
                 (fst (limit_time_axis None None
                         (tracked_bounds integer_sqrt 1000 drawable_streams)))
                 (snd (limit_time_axis None None
                         (tracked_bounds integer_sqrt 1000 drawable_streams))) x).
Proof.
  apply (@automatic_limits_enclose integer_sqrt 1000%Z drawable_streams).
  - lia.
  - discriminate.
  - unfold no_empty_trace. simpl. repeat constructor; discriminate.
  - simpl. repeat constructor.
Defined.

Lemma clipped_curves_within_limits_witness :
  within
    (fst (limit_offset_axis None (Some 45)
            (tracked_bounds integer_sqrt 1000 drawable_streams)))
    (snd (limit_offset_axis None (Some 45)
            (tracked_bounds integer_sqrt 1000 drawable_streams)))
    (Fin 21).
Proof.
  apply (@clipped_curves_within_limits integer_sqrt None (Some 45) 1000%Z
           drawable_streams)
    with (tr := make_trace 1 20 0 [1; 2; 3]%Q).
  - discriminate.
  - unfold no_empty_trace. simpl. repeat constructor; discriminate.
  - simpl. repeat constructor.
  - simpl. auto.
  - reflexivity.
  - left. reflexivity.
Defined.

Lemma single_trace_collection_flattens_witness :
  exists m out,
    get_min_offset integer_sqrt single_trace_streams = Ok m
    /\ (m == 0)%Q
    /\ normalize_stage NormalizeTraces m 3 single_trace_streams = Ok out
    /\ Forall2 (fun st st' =>
                  Forall2 (fun tr tr' =>
                             forall samples,
                               data tr = map Fin samples -> ~ flat samples ->
                               data tr' = map Fin (map (fun _ => 0%Q) samples))
                          (traces st) (traces st'))
               single_trace_streams out.
Proof.
  apply (@single_trace_collection_flattens integer_sqrt 3 single_trace_streams).
  - repeat constructor; discriminate.
  - unfold no_empty_trace. simpl. repeat constructor; discriminate.
  - apply Exists_cons_hd. eexists. reflexivity.
Defined.
